(** * lsofgraph: from [lsof -F] records to a Graphviz description

    A shallow embedding of [lsofgraph.py] and the properties of its four
    stages: [parse_lsof], [find_kernel_threads], [find_links] and
    [generate_dot].

    Conventions of the embedding.
    - A Python [str] is a [string] whose characters are the code points
      below 256; on that alphabet [str.isdigit], [str.strip], [sorted] and
      [in] are modelled exactly.
    - A Python value that the program handles is [None], an [int] or a
      [str]: type [value].  [int] converts at most 4300 digits, the
      default limit of the interpreter, and raises [ValueError] beyond.
    - A [dict] is an association list in insertion order (iteration order
      matters: [src, dst = pids]); [dset] overwrites in place or appends.
    - An exception is an [exn]; code that can raise lives in [result]. *)

From Stdlib Require Import List String Ascii ZArith Bool Lia Permutation.
From Stdlib Require Import DecimalString DecimalPos.
Import ListNotations.

Local Open Scope string_scope.
Local Open Scope list_scope.

Set Implicit Arguments.

(* ================================================================= *)
(** ** Python values, exceptions and dictionaries *)

Module Py.

Inductive value : Type :=
| VNone
| VInt (z : Z)
| VStr (s : string).

(** [a == b] on values: an [int] never equals a [str]. *)
Definition value_eqb (a b : value) : bool :=
  match a, b with
  | VNone, VNone => true
  | VInt x, VInt y => Z.eqb x y
  | VStr s, VStr t => String.eqb s t
  | _, _ => false
  end.

(** Truth value of an object: [None], [0] and [''] are false. *)
Definition truthy (v : value) : bool :=
  match v with
  | VNone => false
  | VInt z => negb (Z.eqb z 0)
  | VStr s => negb (String.eqb s "")
  end.

(** [a or b] *)
Definition py_or (a b : value) : value := if truthy a then a else b.

Inductive exn : Type :=
| IndexError
| ValueError
| TypeError
| KeyError (k : ascii)
| UnboundLocalError (name : string).

Inductive result (A : Type) : Type :=
| Ok (a : A)
| Raise (e : exn).

Arguments Ok {A} a.
Arguments Raise {A} e.

Definition bind {A B : Type} (m : result A) (k : A -> result B) : result B :=
  match m with
  | Ok a => k a
  | Raise e => Raise e
  end.

(** Keys of a dictionary: a type with the equality test used for lookup. *)
Class Key (K : Type) : Type := key_eqb : K -> K -> bool.

#[global] Instance value_Key : Key value := value_eqb.
#[global] Instance ascii_Key : Key ascii := Ascii.eqb.

Definition dict (K V : Type) : Type := list (K * V).

Section Dict.
Context {K V : Type} `{Key K}.

(** [d.get(k)], [None] standing for a missing key. *)
Fixpoint dget (d : dict K V) (k : K) : option V :=
  match d with
  | [] => None
  | (k', v) :: rest => if key_eqb k' k then Some v else dget rest k
  end.

(** [d[k] = v]: an existing key keeps its place, a new key goes last. *)
Fixpoint dset (d : dict K V) (k : K) (v : V) : dict K V :=
  match d with
  | [] => [(k, v)]
  | (k', v') :: rest =>
      if key_eqb k' k then (k', v) :: rest else (k', v') :: dset rest k v
  end.

Definition dkeys (d : dict K V) : list K := map fst d.

(** The value a [defaultdict] holds at [k], before or after creation. *)
Definition dget_default (dflt : V) (d : dict K V) (k : K) : V :=
  match dget d k with
  | Some v => v
  | None => dflt
  end.

(** [d[k]] on a [defaultdict], for its effect on [d]: a missing key is
    created with the default value. *)
Definition dtouch (dflt : V) (d : dict K V) (k : K) : dict K V :=
  match dget d k with
  | Some _ => d
  | None => dset d k dflt
  end.
End Dict.

(** *** Strings *)

Definition dquote : string := String "034"%char EmptyString.
Definition newline : string := String "010"%char EmptyString.
Definition tab : string := String "009"%char EmptyString.

Definition is_ascii_digit (c : ascii) : bool :=
  let n := nat_of_ascii c in Nat.leb 48 n && Nat.leb n 57.

(** Code points below 256 with the Unicode digit property: the ten ASCII
    digits and the superscripts two, three and one. *)
Definition is_digit_char (c : ascii) : bool :=
  is_ascii_digit c ||
  let n := nat_of_ascii c in
  Nat.eqb n 178 || Nat.eqb n 179 || Nat.eqb n 185.

Fixpoint all_chars (p : ascii -> bool) (s : string) : bool :=
  match s with
  | EmptyString => true
  | String c rest => p c && all_chars p rest
  end.

(** [s.isdigit()] *)
Definition isdigit (s : string) : bool :=
  match s with
  | EmptyString => false
  | _ => all_chars is_digit_char s
  end.

Fixpoint digits_value (acc : Z) (s : string) : Z :=
  match s with
  | EmptyString => acc
  | String c rest =>
      digits_value (10 * acc + (Z.of_nat (nat_of_ascii c) - 48))%Z rest
  end.

(** The most digits [int] converts ([sys.int_info.default_max_str_digits]);
    leading zeros count. *)
Definition max_str_digits : Z := 4300.

(** [int(s)] for a string that passed [isdigit]: decimal digits convert,
    up to [max_str_digits] of them; a superscript digit is an invalid
    literal, a longer text exceeds the limit, and both raise
    [ValueError]. *)
Definition int_of_str (s : string) : result Z :=
  if all_chars is_ascii_digit s
     && (Z.of_nat (String.length s) <=? max_str_digits)%Z
  then Ok (digits_value 0 s)
  else Raise ValueError.

(** [str(v)], as [format] and [%s] print a value.  (An int that
    [int_of_str] returned has at most [max_str_digits] digits, and [str]
    prints it without raising.) *)
Definition str (v : value) : string :=
  match v with
  | VNone => "None"
  | VInt z => NilZero.string_of_int (Z.to_int z)
  | VStr s => s
  end.

Fixpoint drop (n : nat) (s : string) : string :=
  match n, s with
  | O, _ => s
  | S n', String _ rest => drop n' rest
  | S _, EmptyString => EmptyString
  end.

(** [s.startswith(sep)] *)
Fixpoint startswith (sep s : string) : bool :=
  match sep, s with
  | EmptyString, _ => true
  | String _ _, EmptyString => false
  | String a sep', String b s' => Ascii.eqb a b && startswith sep' s'
  end.

(** The text before and after the leftmost occurrence of [sep] in [s]. *)
Fixpoint partition_at (sep s : string) : option (string * string) :=
  if startswith sep s then Some (EmptyString, drop (String.length sep) s)
  else
    match s with
    | EmptyString => None
    | String c rest =>
        match partition_at sep rest with
        | Some (a, b) => Some (String c a, b)
        | None => None
        end
    end.

(** [sep in s] *)
Definition contains (sep s : string) : bool :=
  match partition_at sep s with
  | Some _ => true
  | None => false
  end.

(** [s.split(sep, 1)] *)
Definition split1 (sep s : string) : list string :=
  match partition_at sep s with
  | Some (a, b) => [a; b]
  | None => [s]
  end.

Fixpoint insert_sorted (x : string) (l : list string) : list string :=
  match l with
  | [] => [x]
  | y :: rest => if String.ltb x y then x :: l else y :: insert_sorted x rest
  end.

(** [sorted(l)] on strings: ascending by code point, stable. *)
Definition sorted (l : list string) : list string :=
  fold_left (fun acc x => insert_sorted x acc) l [].

(** [sep.join(l)] *)
Definition join (sep : string) (l : list string) : string :=
  String.concat sep l.

Definition is_space (c : ascii) : bool :=
  let n := nat_of_ascii c in
  (Nat.leb 9 n && Nat.leb n 13) || (Nat.leb 28 n && Nat.leb n 32)
  || Nat.eqb n 133 || Nat.eqb n 160.

Fixpoint lstrip (s : string) : string :=
  match s with
  | String c rest => if is_space c then lstrip rest else s
  | EmptyString => EmptyString
  end.

Fixpoint rstrip (s : string) : string :=
  match s with
  | EmptyString => EmptyString
  | String c rest =>
      match rstrip rest with
      | EmptyString => if is_space c then EmptyString else String c EmptyString
      | r => String c r
      end
  end.

(** [s.strip()] *)
Definition strip (s : string) : string := rstrip (lstrip s).

End Py.

Import Py.

Notation "x <- m ;; k" := (bind m (fun x => k))
  (at level 61, m at next level, right associativity).

(* ================================================================= *)
(** ** The tables *)

(** Attribute set of a record: field character to value. *)
Definition fields : Type := dict ascii value.

(** [proc_info]: pid to process fields. *)
Definition proc_table : Type := dict value fields.

(** Descriptors of one process: fd to descriptor fields. *)
Definition fd_table : Type := dict value fields.

(** [file_info]: pid to fd to descriptor fields. *)
Definition file_table : Type := dict value fd_table.

(** [fields[k]] *)
Definition subscript (d : fields) (k : ascii) : result value :=
  match dget d k with
  | Some v => Ok v
  | None => Raise (KeyError k)
  end.

(** [fields.get(k)] *)
Definition get (d : fields) (k : ascii) : value :=
  match dget d k with
  | Some v => v
  | None => VNone
  end.

(* ================================================================= *)
(** ** parse_lsof *)

(** The dictionary the local variable [fields] refers to: a record of
    [proc_info] or of [file_info].  Entries are never removed or replaced
    while parsing, so the reference is its path. *)
Inductive target : Type :=
| TProc (pid : value)
| TFile (pid fd : value).

Record parse_state : Type := mk_parse_state {
  st_proc_info : proc_table;
  st_file_info : file_table;
  st_current_pid : option value;   (* [None]: the name is not bound yet *)
  st_fields : option target
}.

Definition parse_init : parse_state :=
  mk_parse_state [] [] None None.

(** [field, value = line[0], line[1:]] followed by the digit coercion. *)
Definition read_line (line : string) : result (ascii * value) :=
  match line with
  | EmptyString => Raise IndexError
  | String field value =>
      if isdigit value then
        z <- int_of_str value ;; Ok (field, VInt z)
      else Ok (field, VStr value)
  end.

(** [file_info[pid][fd]] on the nested [defaultdict]. *)
Definition open_file (fi : file_table) (pid fd : value) : file_table :=
  dset fi pid (dtouch [] (dget_default [] fi pid) fd).

(** [fields[field] = value] through the reference. *)
Definition store (st : parse_state) (t : target) (field : ascii) (v : value)
  : parse_state :=
  match t with
  | TProc pid =>
      let tags := dget_default [] (st_proc_info st) pid in
      mk_parse_state (dset (st_proc_info st) pid (dset tags field v))
        (st_file_info st) (st_current_pid st) (st_fields st)
  | TFile pid fd =>
      let fds := dget_default [] (st_file_info st) pid in
      let rec := dget_default [] fds fd in
      mk_parse_state (st_proc_info st)
        (dset (st_file_info st) pid (dset fds fd (dset rec field v)))
        (st_current_pid st) (st_fields st)
  end.

(** One iteration of the loop over the lines, on the decoded line. *)
Definition parse_field (st : parse_state) (field : ascii) (v : value)
  : result parse_state :=
  if Ascii.eqb field "p" then
    Ok (mk_parse_state (dtouch [] (st_proc_info st) v) (st_file_info st)
          (Some v) (Some (TProc v)))
  else if Ascii.eqb field "f" then
    match st_current_pid st with
    | None => Raise (UnboundLocalError "current_pid")
    | Some pid =>
        Ok (mk_parse_state (st_proc_info st) (open_file (st_file_info st) pid v)
              (st_current_pid st) (Some (TFile pid v)))
    end
  else
    match st_fields st with
    | None => Raise (UnboundLocalError "fields")
    | Some t => Ok (store st t field v)
    end.

Definition parse_line (st : parse_state) (line : string) : result parse_state :=
  fv <- read_line line ;; parse_field st (fst fv) (snd fv).

Fixpoint parse_lines (st : parse_state) (lines : list string)
  : result parse_state :=
  match lines with
  | [] => Ok st
  | line :: rest => st' <- parse_line st line ;; parse_lines st' rest
  end.

Definition parse_lsof (line_iter : list string)
  : result (proc_table * file_table) :=
  st <- parse_lines parse_init line_iter ;;
  Ok (st_proc_info st, st_file_info st).

(* ================================================================= *)
(** ** find_kernel_threads and the filter of main *)

Definition is_kernel_txt (fd : value) (fds : fields) : bool :=
  value_eqb fd (VStr "txt") && value_eqb (get fds "t") (VStr "unknown").

(** The pids the generator yields, in order. *)
Definition find_kernel_threads (file_info : file_table) : list value :=
  flat_map
    (fun entry : value * fd_table =>
       flat_map
         (fun fd_entry : value * fields =>
            if is_kernel_txt (fst fd_entry) (snd fd_entry)
            then [fst entry] else [])
         (snd entry))
    file_info.

(** [pid in kernel_thread_pids] *)
Definition mem (pid : value) (pids : list value) : bool :=
  existsb (value_eqb pid) pids.

(** The dict comprehension of [main] that drops the kernel threads. *)
Definition drop_kernel_threads (file_info : file_table) : file_table :=
  let kernel_thread_pids := find_kernel_threads file_info in
  filter (fun entry : value * fd_table => negb (mem (fst entry) kernel_thread_pids))
    file_info.

(* ================================================================= *)
(** ** find_links *)

(** One partition: resource key to pid to descriptor fields. *)
Definition partition : Type := dict value (dict value fields).

Record links : Type := mk_links {
  unix : partition;
  fifo : partition;
  pipe : partition;
  tcp : partition;
  udp : partition
}.

Definition no_links : links := mk_links [] [] [] [] [].

(** [part[name][pid] = fields] on a [defaultdict(dict)]. *)
Definition file_under (part : partition) (name pid : value) (fds : fields)
  : partition :=
  dset part name (dset (dget_default [] part name) pid fds).

(** [sep in v]: only a [str] can be searched. *)
Definition value_contains (sep : string) (v : value) : result bool :=
  match v with
  | VStr s => Ok (contains sep s)
  | _ => Raise TypeError
  end.

(** [v.split(sep, 1)] *)
Definition value_split1 (sep : string) (v : value) : result (list string) :=
  match v with
  | VStr s => Ok (split1 sep s)
  | _ => Raise TypeError
  end.

(** The body of the inner loop, for descriptor [fds] of process [pid]. *)
Definition link_fd (pid : value) (acc : links) (fds : fields) : result links :=
  fd_type <- subscript fds "t" ;;
  if value_eqb fd_type (VStr "unix") then
    let name := py_or (get fds "i") (get fds "d") in
    Ok (mk_links (file_under (unix acc) name pid fds)
          (fifo acc) (pipe acc) (tcp acc) (udp acc))
  else if value_eqb fd_type (VStr "FIFO") then
    i <- subscript fds "i" ;;
    Ok (mk_links (unix acc) (file_under (fifo acc) i pid fds)
          (pipe acc) (tcp acc) (udp acc))
  else if value_eqb fd_type (VStr "IPv4") || value_eqb fd_type (VStr "IPv6") then
    n <- subscript fds "n" ;;
    has <- value_contains "->" n ;;
    if negb has then Ok acc
    else
      parts <- value_split1 "->" n ;;
      let name := sorted parts in
      proto <- subscript fds "P" ;;
      let key := VStr (join "\n" name) in
      if value_eqb proto (VStr "TCP") then
        Ok (mk_links (unix acc) (fifo acc) (pipe acc)
              (file_under (tcp acc) key pid fds) (udp acc))
      else
        Ok (mk_links (unix acc) (fifo acc) (pipe acc)
              (tcp acc) (file_under (udp acc) key pid fds))
  else Ok acc.

Fixpoint link_fds (pid : value) (acc : links) (fd_fields : fd_table)
  : result links :=
  match fd_fields with
  | [] => Ok acc
  | (_, fds) :: rest => acc' <- link_fd pid acc fds ;; link_fds pid acc' rest
  end.

Fixpoint link_pids (acc : links) (file_info : file_table) : result links :=
  match file_info with
  | [] => Ok acc
  | (pid, fd_fields) :: rest =>
      acc' <- link_fds pid acc fd_fields ;; link_pids acc' rest
  end.

Definition find_links (file_info : file_table) : result links :=
  link_pids no_links file_info.

(* ================================================================= *)
(** ** generate_dot *)

(** The arguments of [template_node.format]. *)
Record node : Type := mk_node {
  node_pid : value;
  node_label : string;
  node_color : string
}.

(** The arguments of [template_edge.format]. *)
Record edge : Type := mk_edge {
  edge_a : value;
  edge_b : value;
  edge_label : string;
  edge_pw : Z;
  edge_weight : Z;
  edge_color : string;
  edge_dir : string
}.

Definition template_node (n : node) : string :=
  "p" ++ str (node_pid n) ++ " [label=" ++ dquote ++ node_label n ++ dquote
  ++ ", fillcolor=" ++ node_color n ++ "];".

Definition template_edge (e : edge) : string :=
  "p" ++ str (edge_a e) ++ " -> p" ++ str (edge_b e)
  ++ " [label=" ++ dquote ++ edge_label e ++ dquote
  ++ ", penwidth=" ++ str (VInt (edge_pw e))
  ++ ", weight=" ++ str (VInt (edge_weight e))
  ++ ", color=" ++ edge_color e
  ++ ", dir=" ++ dquote ++ edge_dir e ++ dquote ++ "];".

Definition template_graph (nodes edges : string) : string :=
  newline
  ++ "digraph G {" ++ newline
  ++ "    graph [center=true, margin=0.2, nodesep=0.1, ranksep=0.3, rankdir=LR];"
  ++ newline
  ++ tab ++ "node [shape=box, style=" ++ dquote ++ "rounded,filled" ++ dquote
  ++ ", width=0, height=0, fontname=Helvetica, fontsize=10];" ++ newline
  ++ tab ++ "edge [fontname=Helvetica, fontsize=10];" ++ newline
  ++ nodes ++ newline
  ++ edges ++ newline
  ++ "}" ++ newline.

(** The body of the loop over the retained pids: one node, and an edge from
    the parent when field [R] is set and is not 1. *)
Definition dot_pid (proc_info : proc_table) (pid : value)
    (acc : list node * list edge) : result (list node * list edge) :=
  let tags := dget_default [] proc_info pid in
  let name := py_or (get tags "n") (get tags "c") in
  r <- subscript tags "R" ;;
  let color := if value_eqb r (VInt 1) then "grey70" else "white" in
  login <- subscript tags "L" ;;
  let label := (str name ++ "\n" ++ str pid ++ " " ++ str login)%string in
  let nodes := fst acc ++ [mk_node pid label color] in
  let pid_parent := get tags "R" in
  if truthy pid_parent && negb (value_eqb pid_parent (VInt 1)) then
    Ok (nodes, snd acc ++ [mk_edge pid_parent pid "" 2 100 "gray60" "none"])
  else Ok (nodes, snd acc).

Fixpoint dot_pids (proc_info : proc_table) (pids : list value)
    (acc : list node * list edge) : result (list node * list edge) :=
  match pids with
  | [] => Ok acc
  | pid :: rest => acc' <- dot_pid proc_info pid acc ;; dot_pids proc_info rest acc'
  end.

(** One entry of [conn_props]. *)
Record props : Type := mk_props {
  desc : string;
  color : string
}.

Definition conn_props (unix fifo tcp udp : partition)
  : list (partition * props) :=
  [ (unix, mk_props "unix" "purple");
    (fifo, mk_props "fifo" "green");
    (tcp, mk_props "tcp" "red");
    (udp, mk_props "udp" "orange") ].

(** The body of the loop over the keys of a partition. *)
Definition dot_key (p : props) (fd_name : value) (pids : dict value fields)
    (edges : list edge) : result (list edge) :=
  if Nat.eqb (List.length pids) 2 then
    match dkeys pids with
    | [src; dst] =>
        fd_type <- subscript (dget_default [] pids src) "a" ;;
        let dir :=
          if value_eqb fd_type (VStr "w") then "forward"
          else if value_eqb fd_type (VStr "r") then "backward"
          else "both" in
        let label := (desc p ++ ":\n" ++ str fd_name)%string in
        Ok (edges ++ [mk_edge src dst label 1 10 (color p) dir])
    | _ => Ok edges
    end
  else Ok edges.

Fixpoint dot_keys (p : props) (fd_pids : partition) (edges : list edge)
  : result (list edge) :=
  match fd_pids with
  | [] => Ok edges
  | (fd_name, pids) :: rest =>
      edges' <- dot_key p fd_name pids edges ;; dot_keys p rest edges'
  end.

Fixpoint dot_conns (conns : list (partition * props)) (edges : list edge)
  : result (list edge) :=
  match conns with
  | [] => Ok edges
  | (fd_pids, p) :: rest =>
      edges' <- dot_keys p fd_pids edges ;; dot_conns rest edges'
  end.

(** The lists [nodes] and [edges] as they stand before they are joined. *)
Definition dot_statements (proc_info : proc_table) (file_info : file_table)
    (unix fifo pipe tcp udp : partition) : result (list node * list edge) :=
  ne <- dot_pids proc_info (dkeys file_info) ([], []) ;;
  edges <- dot_conns (conn_props unix fifo tcp udp) (snd ne) ;;
  Ok (fst ne, edges).

Definition render (nodes : list node) (edges : list edge) : string :=
  let nodes := join newline (map (fun i => (tab ++ template_node i)%string) nodes) in
  let edges := join newline (map (fun i => (tab ++ template_edge i)%string) edges) in
  strip (template_graph nodes edges).

Definition generate_dot (proc_info : proc_table) (file_info : file_table)
    (unix fifo pipe tcp udp : partition) : result string :=
  ne <- dot_statements proc_info file_info unix fifo pipe tcp udp ;;
  Ok (render (fst ne) (snd ne)).

(* ================================================================= *)
(** ** main, from the lines on *)

(** [main] from the call of [parse_lsof] on (lines 30 to 38 of the
    source).  [lines] is the sequence [main] hands to [parse_lsof], line
    by line as the iterator yields them; where it comes from, the standard
    input or the output of the [lsof] command (lines 23 to 28), and
    [print] (line 39) are input and output, and are not part of the
    embedding.

    The statements [main] has built when it prints: parse, drop the
    kernel threads, correlate, build nodes and edges. *)
Definition main_statements (lines : list string)
  : result (list node * list edge) :=
  tables <- parse_lsof lines ;;
  let proc_info := fst tables in
  let file_info := drop_kernel_threads (snd tables) in
  l <- find_links file_info ;;
  dot_statements proc_info file_info (unix l) (fifo l) (pipe l) (tcp l) (udp l).

(** The text [main] hands to [print]. *)
Definition main (lines : list string) : result string :=
  tables <- parse_lsof lines ;;
  let proc_info := fst tables in
  let file_info := drop_kernel_threads (snd tables) in
  l <- find_links file_info ;;
  generate_dot proc_info file_info (unix l) (fifo l) (pipe l) (tcp l) (udp l).

(* ================================================================= *)
(** ** Notions used in the statements *)

(** The four channel classes [generate_dot] draws. *)
Inductive chan : Type := Unix | Fifo | Tcp | Udp.

Definition chan_eqb (a b : chan) : bool :=
  match a, b with
  | Unix, Unix | Fifo, Fifo | Tcp, Tcp | Udp, Udp => true
  | _, _ => false
  end.

Definition chan_part (c : chan) (l : links) : partition :=
  match c with
  | Unix => unix l
  | Fifo => fifo l
  | Tcp => tcp l
  | Udp => udp l
  end.

Definition chan_props (c : chan) : props :=
  match c with
  | Unix => mk_props "unix" "purple"
  | Fifo => mk_props "fifo" "green"
  | Tcp => mk_props "tcp" "red"
  | Udp => mk_props "udp" "orange"
  end.

(** Where [link_fd] files a descriptor: the class and resource key, or
    nowhere, or the exception it raises. *)
Definition route (fds : fields) : result (option (chan * value)) :=
  fd_type <- subscript fds "t" ;;
  if value_eqb fd_type (VStr "unix") then
    Ok (Some (Unix, py_or (get fds "i") (get fds "d")))
  else if value_eqb fd_type (VStr "FIFO") then
    i <- subscript fds "i" ;; Ok (Some (Fifo, i))
  else if value_eqb fd_type (VStr "IPv4") || value_eqb fd_type (VStr "IPv6") then
    n <- subscript fds "n" ;;
    has <- value_contains "->" n ;;
    if negb has then Ok None
    else
      parts <- value_split1 "->" n ;;
      proto <- subscript fds "P" ;;
      let key := VStr (join "\n" (sorted parts)) in
      Ok (Some (if value_eqb proto (VStr "TCP") then Tcp else Udp, key))
  else Ok None.

(** [l] after [part[name][pid] = fds] in the partition of class [c]. *)
Definition file_chan (c : chan) (l : links) (name pid : value) (fds : fields)
  : links :=
  match c with
  | Unix => mk_links (file_under (unix l) name pid fds)
              (fifo l) (pipe l) (tcp l) (udp l)
  | Fifo => mk_links (unix l) (file_under (fifo l) name pid fds)
              (pipe l) (tcp l) (udp l)
  | Tcp => mk_links (unix l) (fifo l) (pipe l)
             (file_under (tcp l) name pid fds) (udp l)
  | Udp => mk_links (unix l) (fifo l) (pipe l) (tcp l)
             (file_under (udp l) name pid fds)
  end.

Definition routed_to (c : chan) (key : value) (fds : fields) : bool :=
  match route fds with
  | Ok (Some (c', key')) => chan_eqb c c' && value_eqb key key'
  | _ => false
  end.

(** Process [pid] of [file_info] has a descriptor that [find_links] files
    under [key] in the partition of class [c]. *)
Definition holds (file_info : file_table) (pid : value) (c : chan) (key : value)
  : Prop :=
  exists fd_fields fd fds,
    In (pid, fd_fields) file_info /\ In (fd, fds) fd_fields /\
    route fds = Ok (Some (c, key)).

Fixpoint distinct (l : list value) : list value :=
  match l with
  | [] => []
  | x :: rest => if mem x rest then distinct rest else x :: distinct rest
  end.

(** The distinct process ids of [file_info] that hold a descriptor under
    [key] in class [c]. *)
Definition holders (file_info : file_table) (c : chan) (key : value)
  : list value :=
  distinct
    (map fst
       (filter
          (fun entry : value * fd_table =>
             existsb (fun fd_entry : value * fields =>
                        routed_to c key (snd fd_entry)) (snd entry))
          file_info)).

(** [pid] is a participant of [key] in partition [part]. *)
Definition member (part : partition) (key pid : value) : Prop :=
  In pid (dkeys (dget_default [] part key)).

(** The last descriptor of [fd_fields] filed under [key] in class [c]. *)
Fixpoint last_routed (c : chan) (key : value) (fd_fields : fd_table)
  : option fields :=
  match fd_fields with
  | [] => None
  | (_, fds) :: rest =>
      match last_routed c key rest with
      | Some r => Some r
      | None => if routed_to c key fds then Some fds else None
      end
  end.

(** An edge drawn for a channel, as opposed to the edge from a parent. *)
Definition is_link (e : edge) : Prop := edge_dir e <> "none".

(** The attribute set stored for [pid] under [key]. *)
Definition stored (part : partition) (key pid : value) : option fields :=
  dget (dget_default [] part key) pid.

(** What every partition built by [find_links] satisfies: keys are unique
    at both levels and every key has a participant. *)
Definition wf_part (part : partition) : Prop :=
  NoDup (dkeys part) /\
  forall key pids, In (key, pids) part -> NoDup (dkeys pids) /\ pids <> [].

Definition wf_links (l : links) : Prop :=
  (forall c, wf_part (chan_part c l)) /\ pipe l = [].

(** [l] after a descriptor routed to [r] has been filed. *)
Definition filed (r : option (chan * value)) (l : links) (pid : value)
    (fds : fields) : links :=
  match r with
  | None => l
  | Some (c, key) => file_chan c l key pid fds
  end.

(** The state of the parser once a line has made [pid] the current process. *)
Definition process_opened (st : parse_state) (pid : value) : parse_state :=
  mk_parse_state (dtouch [] (st_proc_info st) pid) (st_file_info st)
    (Some pid) (Some (TProc pid)).

Definition is_ip (fds : fields) : Prop :=
  dget fds "t"%char = Some (VStr "IPv4") \/ dget fds "t"%char = Some (VStr "IPv6").


(** *** Lines and the records they are attached to *)

Definition target_eqb (a b : target) : bool :=
  match a, b with
  | TProc p, TProc q => value_eqb p q
  | TFile p f, TFile q g => value_eqb p q && value_eqb f g
  | _, _ => false
  end.

(** A field character that sets an attribute, not one that opens a record. *)
Definition is_attr (field : ascii) : bool :=
  negb (Ascii.eqb field "p") && negb (Ascii.eqb field "f").

(** A line that neither starts a process nor a descriptor and decodes. *)
Definition is_attr_line (line : string) : bool :=
  match read_line line with
  | Ok (field, _) => is_attr field
  | Raise _ => false
  end.

(** What a line contributes: the record [fields] refers to once the line
    is processed, with the decoded field and value. *)
Definition attachment : Type := (target * ascii * value)%type.


(** The attachment stores field [x] of record [t]. *)
Definition sets (ev : attachment) (t : target) (x : ascii) : bool :=
  is_attr (snd (fst ev)) && target_eqb (fst (fst ev)) t
  && Ascii.eqb (snd (fst ev)) x.



(** Lookups in the two tables, missing records read as empty. *)
Definition pattr (proc_info : proc_table) (pid : value) (x : ascii)
  : option value :=
  dget (dget_default [] proc_info pid) x.

Definition fattr (file_info : file_table) (pid fd : value) (x : ascii)
  : option value :=
  dget (dget_default [] (dget_default [] file_info pid) fd) x.

Definition fhas (file_info : file_table) (pid fd : value) : Prop :=
  In fd (dkeys (dget_default [] file_info pid)).

(** Keys are unique at both levels of the descriptor table. *)
Definition wf_files (file_info : file_table) : Prop :=
  NoDup (dkeys file_info) /\
  forall pid, NoDup (dkeys (dget_default [] file_info pid)).







(* ================================================================= *)
(** ** Sample inputs *)

(** The descriptor table [main] correlates, for given lines. *)
Definition retained (lines : list string) : file_table :=
  match parse_lsof lines with
  | Ok tables => drop_kernel_threads (snd tables)
  | Raise _ => []
  end.

Definition links_of (file_info : file_table) : links :=
  match find_links file_info with
  | Ok l => l
  | Raise _ => no_links
  end.

(** Two processes on the two ends of unix socket 12345. *)
Definition two_unix_lines : list string :=
  [ "p10"; "R1"; "Lroot"; "cinit"; "f3"; "au"; "tunix"; "i12345";
    "p20"; "R10"; "Lbob"; "csh"; "f4"; "aw"; "tunix"; "i12345" ].

(** The same, the first process without an access mode. *)
Definition no_access_lines : list string :=
  [ "p10"; "R1"; "Lroot"; "cinit"; "f3"; "tunix"; "i12345";
    "p20"; "R10"; "Lbob"; "csh"; "f4"; "aw"; "tunix"; "i12345" ].


(** A descriptor without a type field, after one that has it. *)
Definition no_type_lines : list string :=
  [ "p10"; "R1"; "Lroot"; "cinit"; "f3"; "ar"; "tREG"; "f4"; "aw" ].

(** A process-start line whose value is not a number. *)
Definition text_pid_lines : list string :=
  [ "pabc"; "R1"; "Lroot"; "f3"; "tREG" ].

(** One process, pid 10, and no descriptor. *)
Definition lone_process_lines : list string :=
  [ "p10"; "R1"; "Lroot"; "cinit" ].

(** A kernel thread, pid 2, whose descriptor 3 has the same unix inode as
    a descriptor of process 10 and one of process 20. *)
Definition kernel_thread_lines : list string :=
  [ "p2"; "R0"; "Lroot"; "ckthreadd"; "ftxt"; "tunknown";
    "f3"; "au"; "tunix"; "i7";
    "p10"; "R1"; "Lroot"; "cinit"; "f3"; "au"; "tunix"; "i7";
    "p20"; "R10"; "Lbob"; "csh"; "f5"; "au"; "tunix"; "i7" ].

(** The two tables the parser builds from them. *)
Definition kernel_thread_tables : proc_table * file_table :=
  Eval vm_compute in
    match parse_lsof kernel_thread_lines with
    | Ok tables => tables
    | Raise _ => ([], [])
    end.

(** The two ends of one TCP connection, seen from process 10 and from
    process 20. *)
Definition two_tcp_lines : list string :=
  [ "p10"; "R1"; "Lroot"; "csrv"; "f3"; "au"; "tIPv4"; "PTCP"; "nA:80->B:1234";
    "p20"; "R1"; "Lbob"; "ccli"; "f5"; "au"; "tIPv4"; "PTCP"; "nB:1234->A:80" ].

Definition two_tcp_table : file_table :=
  Eval vm_compute in retained two_tcp_lines.

Definition two_tcp_links : links :=
  Eval vm_compute in links_of two_tcp_table.

(** A writer and a reader-writer on unix socket 5, in the two orders of
    the two process blocks. *)
Definition writer_block : list string :=
  [ "p10"; "R1"; "Lroot"; "f3"; "aw"; "tunix"; "i5" ].

Definition other_block : list string :=
  [ "p20"; "R1"; "Lroot"; "f4"; "au"; "tunix"; "i5" ].

Definition writer_first_lines : list string := writer_block ++ other_block.




(** [no_access_lines] with the two process blocks exchanged. *)
Definition no_access_swapped_lines : list string :=
  [ "p20"; "R10"; "Lbob"; "csh"; "f4"; "aw"; "tunix"; "i12345";
    "p10"; "R1"; "Lroot"; "cinit"; "f3"; "tunix"; "i12345" ].

Definition writer_first_procs : proc_table :=
  Eval vm_compute in
    match parse_lsof writer_first_lines with
    | Ok tables => fst tables
    | Raise _ => []
    end.

(** Participants filed under the unix keys of the samples. *)
Definition writer_first_pids : dict value fields :=
  Eval vm_compute in
    dget_default [] (unix (links_of (retained writer_first_lines))) (VInt 5).

Definition no_access_pids : dict value fields :=
  Eval vm_compute in
    dget_default [] (unix (links_of (retained no_access_lines))) (VInt 12345).




(** A process-start line whose value is a superscript two. *)
Definition superscript_pid_line : string :=
  String "p" (String "178" EmptyString).

(** Process 10 holds unix socket 12345 through descriptors 3 and 4 and
    socket 777 through descriptors 5 and 6; process 20 holds socket
    12345. *)
Definition shared_lines : list string :=
  [ "p10"; "R1"; "Lroot"; "cinit";
    "f3"; "ar"; "tunix"; "i12345";
    "f4"; "aw"; "tunix"; "i12345";
    "f5"; "au"; "tunix"; "i777";
    "f6"; "au"; "tunix"; "i777";
    "p20"; "R10"; "Lbob"; "csh";
    "f7"; "au"; "tunix"; "i12345" ].

Definition shared_table : file_table :=
  Eval vm_compute in retained shared_lines.

Definition shared_links : links :=
  Eval vm_compute in links_of shared_table.

Definition kernel_thread_links : links :=
  Eval vm_compute in
    links_of (drop_kernel_threads (snd kernel_thread_tables)).

(* ================================================================= *)
(** ** Notions used in the further properties *)

(** The line has a first character, and its value is not made of digits
    or is made of decimal digits, [max_str_digits] at most. *)
Definition readable (line : string) : bool :=
  match line with
  | EmptyString => false
  | String _ value =>
      negb (isdigit value)
      || (all_chars is_ascii_digit value
          && (Z.of_nat (String.length value) <=? max_str_digits)%Z)
  end.

(** The line is a process-start line. *)
Definition starts_process (line : string) : bool :=
  match line with
  | String c _ => Ascii.eqb c "p"
  | EmptyString => false
  end.

(** The names [current_pid] and [fields] are bound. *)
Definition bound (st : parse_state) : Prop :=
  st_current_pid st <> None /\ st_fields st <> None.

(** What the two tables keep while the parser runs: unique keys at every
    level, every pid of the descriptor table in the process table, no pid
    without a descriptor. *)
Definition tables_ok (proc_info : proc_table) (file_info : file_table) : Prop :=
  NoDup (dkeys proc_info) /\
  (forall pid, NoDup (dkeys (dget_default [] proc_info pid))) /\
  wf_files file_info /\
  (forall pid fd,
     NoDup (dkeys (dget_default [] (dget_default [] file_info pid) fd))) /\
  (forall pid, In pid (dkeys file_info) -> In pid (dkeys proc_info)) /\
  (forall pid, In pid (dkeys file_info) -> dget_default [] file_info pid <> []).

Definition state_ok (st : parse_state) : Prop :=
  tables_ok (st_proc_info st) (st_file_info st) /\
  (forall pid, st_current_pid st = Some pid -> In pid (dkeys (st_proc_info st))) /\
  (forall pid fd, st_fields st = Some (TFile pid fd) ->
                  In pid (dkeys (st_file_info st))).

(** A type that [find_links] files: unix, FIFO, IPv4 or IPv6. *)
Definition channel_type (ty : value) : bool :=
  value_eqb ty (VStr "unix") || value_eqb ty (VStr "FIFO")
  || value_eqb ty (VStr "IPv4") || value_eqb ty (VStr "IPv6").

(** Regular files and directories only. *)
Definition plain_files_lines : list string :=
  [ "p10"; "R1"; "Lroot"; "cinit"; "fcwd"; "tDIR"; "f3"; "ar"; "tREG" ].

Definition plain_files_table : file_table :=
  Eval vm_compute in retained plain_files_lines.

(** An IPv4 descriptor whose name is a number. *)
Definition number_name_lines : list string :=
  [ "p10"; "R1"; "Lroot"; "cinit"; "f3"; "au"; "tIPv4"; "PTCP"; "n8080" ].

Definition number_name_table : file_table :=
  Eval vm_compute in retained number_name_lines.

(** The number of keys of a partition that have exactly two participants. *)
Definition two_party (part : partition) : nat :=
  List.length
    (filter (fun entry : value * dict value fields =>
               Nat.eqb (List.length (snd entry)) 2) part).

(** The line ends with a line feed, as the lines of a text stream do when
    the stream is iterated. *)
Fixpoint terminated (line : string) : bool :=
  match line with
  | EmptyString => false
  | String c rest =>
      match rest with
      | EmptyString => Ascii.eqb c "010"
      | _ => terminated rest
      end
  end.

(** What the parser reads off such a line: text, empty or still ending
    with the line feed. *)
Definition unstripped (v : value) : bool :=
  match v with
  | VStr EmptyString => true
  | VStr s => terminated s
  | _ => false
  end.

Definition fields_unstripped (d : fields) : Prop :=
  Forall (fun kv : ascii * value => unstripped (snd kv) = true) d.

Definition state_unstripped (st : parse_state) : Prop :=
  Forall (fun entry : value * fields => fields_unstripped (snd entry))
    (st_proc_info st) /\
  Forall (fun entry : value * fd_table =>
            Forall (fun fd_entry : value * fields =>
                      fields_unstripped (snd fd_entry)) (snd entry))
    (st_file_info st).

(** The lines of [two_unix_lines], each with its line feed. *)
Definition terminated_lines : list string :=
  Eval vm_compute in map (fun s => (s ++ newline)%string) two_unix_lines.

Definition terminated_tables : proc_table * file_table :=
  Eval vm_compute in
    match parse_lsof terminated_lines with
    | Ok tables => tables
    | Raise _ => ([], [])
    end.

(* ================================================================= *)
(** ** Notions used for the links of a run *)

(** The entries the emitter goes through, in its order: the keys of the
    unix partition, then those of fifo, tcp and udp, each with its
    class. *)
Definition drawn (l : links) : list (chan * (value * dict value fields)) :=
  flat_map (fun c => map (pair c) (chan_part c l)) [Unix; Fifo; Tcp; Udp].

(** What the loop body makes of one entry, starting from no edge. *)
Definition yield (entry : chan * (value * dict value fields))
  : result (list edge) :=
  dot_key (chan_props (fst entry)) (fst (snd entry)) (snd (snd entry)) [].

(** [e] has the colour of class [c] and the label of [key] in it. *)
Definition edge_of (c : chan) (key : value) (e : edge) : bool :=
  String.eqb (edge_color e) (color (chan_props c))
  && String.eqb (edge_label e) (desc (chan_props c) ++ ":\n" ++ str key).


Definition writer_first_table : file_table :=
  Eval vm_compute in retained writer_first_lines.

Definition writer_first_links : links :=
  Eval vm_compute in links_of writer_first_table.

Definition no_access_table : file_table :=
  Eval vm_compute in retained no_access_lines.







Definition no_access_links : links :=
  Eval vm_compute in links_of no_access_table.

(** The participants of unix socket 777 of [shared_lines]: process 10
    alone. *)
Definition single_holder_pids : dict value fields :=
  Eval vm_compute in dget_default [] (unix shared_links) (VInt 777).








(* ================================================================= *)
(** * Properties *)

Unset Implicit Arguments.

(** ** Equality tests *)

Lemma value_eqb_spec (a b : value) : reflect (a = b) (value_eqb a b).
Proof.
  destruct a as [|x|s], b as [|y|t]; simpl; try (constructor; congruence).
  - destruct (Z.eqb_spec x y); constructor; congruence.
  - destruct (String.eqb_spec s t); constructor; congruence.
Qed.

Lemma value_eqb_refl (a : value) : value_eqb a a = true.
Proof. destruct (value_eqb_spec a a); congruence. Qed.

Lemma value_eqb_eq (a b : value) : value_eqb a b = true <-> a = b.
Proof. destruct (value_eqb_spec a b); split; congruence. Qed.

Lemma value_eqb_neq (a b : value) : value_eqb a b = false <-> a <> b.
Proof. destruct (value_eqb_spec a b); split; congruence. Qed.

Lemma value_eq_dec (a b : value) : {a = b} + {a <> b}.
Proof. destruct (value_eqb_spec a b); [left | right]; assumption. Qed.

Lemma chan_eqb_eq (a b : chan) : chan_eqb a b = true <-> a = b.
Proof. destruct a, b; simpl; split; congruence. Qed.

(** A key type whose test decides equality. *)
Class KeyLaw (K : Type) `{Key K} : Type :=
  key_eqb_spec : forall a b : K, reflect (a = b) (key_eqb a b).

Arguments KeyLaw K {_}.

#[global] Instance value_KeyLaw : KeyLaw value := value_eqb_spec.
#[global] Instance ascii_KeyLaw : KeyLaw ascii := Ascii.eqb_spec.

Lemma mem_In (x : value) (l : list value) : mem x l = true <-> In x l.
Proof.
  unfold mem. rewrite existsb_exists. split.
  - intros [y [Hy Heq]]. apply value_eqb_eq in Heq. subst. assumption.
  - intros Hx. exists x. split; [assumption | apply value_eqb_refl].
Qed.

Lemma mem_false (x : value) (l : list value) : mem x l = false <-> ~ In x l.
Proof.
  rewrite <- mem_In. destruct (mem x l); split; congruence.
Qed.

(** ** Dictionaries *)

Section DictFacts.
Context {K V : Type} `{KeyLaw K}.
Implicit Types (d : dict K V) (k : K) (v : V).

Lemma key_eqb_refl k : key_eqb k k = true.
Proof. destruct (key_eqb_spec k k); congruence. Qed.

Lemma key_eqb_false k k' : k <> k' -> key_eqb k k' = false.
Proof. destruct (key_eqb_spec k k'); congruence. Qed.

Lemma dget_dset_same d k v : dget (dset d k v) k = Some v.
Proof.
  induction d as [|[k' v'] d IH]; simpl.
  - now rewrite key_eqb_refl.
  - destruct (key_eqb_spec k' k) as [->|Hne]; simpl.
    + now rewrite key_eqb_refl.
    + now rewrite key_eqb_false.
Qed.

Lemma dget_dset_other d k k' v : k <> k' -> dget (dset d k v) k' = dget d k'.
Proof.
  intros Hne. induction d as [|[k0 v0] d IH]; simpl.
  - now rewrite key_eqb_false.
  - destruct (key_eqb_spec k0 k) as [->|Hne0]; simpl.
    + now rewrite key_eqb_false.
    + now rewrite IH.
Qed.

Lemma dkeys_dset d k v k' :
  In k' (dkeys (dset d k v)) <-> k' = k \/ In k' (dkeys d).
Proof.
  unfold dkeys. induction d as [|[k0 v0] d IH]; simpl.
  - intuition.
  - destruct (key_eqb_spec k0 k) as [->|Hne0]; simpl.
    + intuition.
    + rewrite IH. intuition.
Qed.

Lemma NoDup_dset d k v : NoDup (dkeys d) -> NoDup (dkeys (dset d k v)).
Proof.
  unfold dkeys. induction d as [|[k0 v0] d IH]; simpl; intros Hnd.
  - constructor; [intros [] | constructor].
  - inversion Hnd as [|? ? Hnot Hnd']; subst.
    destruct (key_eqb_spec k0 k) as [->|Hne0]; simpl.
    + constructor; assumption.
    + constructor; [| now apply IH].
      intros Hin. apply (dkeys_dset d k v k0) in Hin.
      destruct Hin as [->|Hin]; [now apply Hne0 | now apply Hnot].
Qed.

Lemma dget_Some_In d k v : dget d k = Some v -> In (k, v) d.
Proof.
  induction d as [|[k0 v0] d IH]; simpl; [discriminate|].
  destruct (key_eqb_spec k0 k) as [->|Hne0].
  - intros [= ->]. now left.
  - intros Hg. right. now apply IH.
Qed.

Lemma In_dkeys d k v : In (k, v) d -> In k (dkeys d).
Proof. intros Hin. unfold dkeys. now apply (in_map fst) in Hin. Qed.

Lemma dkeys_In d k : In k (dkeys d) -> exists v, In (k, v) d.
Proof.
  unfold dkeys. rewrite in_map_iff. intros [[k0 v0] [Heq Hin]].
  simpl in Heq. subst. now exists v0.
Qed.

Lemma In_dget d k v : NoDup (dkeys d) -> In (k, v) d -> dget d k = Some v.
Proof.
  unfold dkeys. induction d as [|[k0 v0] d IH]; simpl; intros Hnd Hin;
    [contradiction|].
  inversion Hnd as [|? ? Hnot Hnd']; subst.
  destruct Hin as [[= -> ->]|Hin].
  - now rewrite key_eqb_refl.
  - destruct (key_eqb_spec k0 k) as [->|Hne0].
    + exfalso. apply Hnot. now apply (in_map fst) in Hin.
    + now apply IH.
Qed.

Lemma dget_None d k : dget d k = None <-> ~ In k (dkeys d).
Proof.
  unfold dkeys. induction d as [|[k0 v0] d IH]; simpl.
  - intuition.
  - destruct (key_eqb_spec k0 k) as [->|Hne0].
    + split; [discriminate | intros Hn; exfalso; apply Hn; now left].
    + rewrite IH. intuition.
Qed.

Lemma dget_dkeys d k : In k (dkeys d) <-> exists v, dget d k = Some v.
Proof.
  destruct (dget d k) as [v|] eqn:Hg.
  - split; [now exists v|]. intros _.
    apply dget_Some_In in Hg. now apply In_dkeys in Hg.
  - apply dget_None in Hg. split; [contradiction | intros [v [=]]].
Qed.

Lemma In_dset d k v k' v' :
  In (k', v') (dset d k v) -> (k' = k /\ v' = v) \/ In (k', v') d.
Proof.
  induction d as [|[k0 v0] d IH]; simpl.
  - intros [[= -> ->]|[]]. now left.
  - destruct (key_eqb_spec k0 k) as [->|Hne0]; simpl.
    + intros [[= -> ->]|Hin]; [now left | right; now right].
    + intros [Heq|Hin]; [right; now left|].
      destruct (IH Hin) as [?|?]; [now left | right; now right].
Qed.

Lemma dset_nonempty d k v : dset d k v <> [].
Proof.
  destruct d as [|[k0 v0] d]; simpl; [discriminate|].
  destruct (key_eqb k0 k); discriminate.
Qed.


Lemma dget_default_Some (dflt : V) d k v :
  dget d k = Some v -> dget_default dflt d k = v.
Proof. unfold dget_default. now intros ->. Qed.

Lemma dget_default_dset_same (dflt : V) d k v :
  dget_default dflt (dset d k v) k = v.
Proof. unfold dget_default. now rewrite dget_dset_same. Qed.

Lemma dget_default_dset_other (dflt : V) d k k' v :
  k <> k' -> dget_default dflt (dset d k v) k' = dget_default dflt d k'.
Proof. intros Hne. unfold dget_default. now rewrite dget_dset_other. Qed.

Lemma dkeys_dtouch (dflt : V) d k k' :
  In k' (dkeys (dtouch dflt d k)) <-> k' = k \/ In k' (dkeys d).
Proof.
  unfold dtouch. destruct (dget d k) as [v|] eqn:Hg.
  - split; [now right|]. intros [->|Hin]; [|assumption].
    apply dget_dkeys. now exists v.
  - apply dkeys_dset.
Qed.

Lemma NoDup_dtouch (dflt : V) d k :
  NoDup (dkeys d) -> NoDup (dkeys (dtouch dflt d k)).
Proof.
  unfold dtouch. destruct (dget d k); [trivial | apply NoDup_dset].
Qed.

Lemma dget_default_dtouch (dflt : V) d k k' :
  dget_default dflt (dtouch dflt d k) k' = dget_default dflt d k'.
Proof.
  unfold dtouch, dget_default. destruct (dget d k) as [v|] eqn:Hg;
    [reflexivity|].
  destruct (key_eqb_spec k k') as [->|Hne].
  - now rewrite dget_dset_same, Hg.
  - now rewrite dget_dset_other.
Qed.
End DictFacts.

(** ** find_links: where a descriptor is filed *)

Lemma link_fd_route (pid : value) (acc : links) (fds : fields) :
  link_fd pid acc fds = (r <- route fds ;; Ok (filed r acc pid fds)).
Proof.
  unfold link_fd, route.
  destruct (subscript fds "t") as [fd_type|e]; simpl; [|reflexivity].
  destruct (value_eqb fd_type (VStr "unix")); [reflexivity|].
  destruct (value_eqb fd_type (VStr "FIFO")).
  { destruct (subscript fds "i"); reflexivity. }
  destruct (value_eqb fd_type (VStr "IPv4") || value_eqb fd_type (VStr "IPv6"));
    [|destruct acc; reflexivity].
  destruct (subscript fds "n") as [n|e]; simpl; [|reflexivity].
  destruct (value_contains "->" n) as [has|e]; simpl; [|reflexivity].
  destruct has; simpl; [|destruct acc; reflexivity].
  destruct (value_split1 "->" n) as [parts|e]; simpl; [|reflexivity].
  destruct (subscript fds "P") as [proto|e]; simpl; [|reflexivity].
  destruct (value_eqb proto (VStr "TCP")); reflexivity.
Qed.

Lemma chan_part_file_chan_same c l key pid fds :
  chan_part c (file_chan c l key pid fds) = file_under (chan_part c l) key pid fds.
Proof. destruct c; reflexivity. Qed.

Lemma chan_part_file_chan_other c c0 l key pid fds :
  c <> c0 -> chan_part c (file_chan c0 l key pid fds) = chan_part c l.
Proof. destruct c, c0; simpl; congruence. Qed.

Lemma pipe_file_chan c l key pid fds : pipe (file_chan c l key pid fds) = pipe l.
Proof. destruct c; reflexivity. Qed.

Lemma chan_eq_dec (a b : chan) : a = b \/ a <> b.
Proof. destruct a, b; (now left) || (right; discriminate). Qed.

Lemma stored_file_under part name pid fds key p :
  stored (file_under part name pid fds) key p =
  if value_eqb key name && value_eqb p pid then Some fds else stored part key p.
Proof.
  unfold stored, file_under.
  destruct (value_eqb_spec key name) as [->|Hk]; simpl.
  - rewrite dget_default_dset_same.
    destruct (value_eqb_spec p pid) as [->|Hp].
    + apply dget_dset_same.
    + apply dget_dset_other. congruence.
  - rewrite dget_default_dset_other by congruence. reflexivity.
Qed.

Lemma member_stored part key p :
  member part key p <-> exists fds, stored part key p = Some fds.
Proof. unfold member, stored. apply dget_dkeys. Qed.

Lemma member_file_under part name pid fds key p :
  member (file_under part name pid fds) key p <->
  member part key p \/ (key = name /\ p = pid).
Proof.
  rewrite !member_stored, stored_file_under.
  destruct (value_eqb_spec key name) as [->|Hk]; simpl.
  - destruct (value_eqb_spec p pid) as [->|Hp].
    + split; [intros _; now right | intros _; now exists fds].
    + intuition.
  - intuition.
Qed.

Lemma member_file_chan c0 l name pid fds c key p :
  member (chan_part c (file_chan c0 l name pid fds)) key p <->
  member (chan_part c l) key p \/ (c = c0 /\ key = name /\ p = pid).
Proof.
  destruct (chan_eq_dec c c0) as [->|Hc].
  - rewrite chan_part_file_chan_same, member_file_under. intuition.
  - rewrite chan_part_file_chan_other by assumption. intuition.
Qed.

Lemma wf_part_file_under part name pid fds :
  wf_part part -> wf_part (file_under part name pid fds).
Proof.
  intros [Hnd Hin]. split.
  - apply NoDup_dset. assumption.
  - intros key pids Hk. apply In_dset in Hk. destruct Hk as [[-> ->]|Hk].
    + split; [|apply dset_nonempty].
      apply NoDup_dset. unfold dget_default.
      destruct (dget _ _) as [pids|] eqn:Hg; [|constructor].
      apply dget_Some_In in Hg. now apply Hin in Hg.
    + now apply (Hin key).
Qed.

Lemma wf_links_file_chan c l name pid fds :
  wf_links l -> wf_links (file_chan c l name pid fds).
Proof.
  intros [Hwf Hp]. split; [|now rewrite pipe_file_chan].
  intros c'. destruct (chan_eq_dec c' c) as [->|Hc].
  - rewrite chan_part_file_chan_same. apply wf_part_file_under, Hwf.
  - rewrite chan_part_file_chan_other by assumption. apply Hwf.
Qed.

Lemma wf_no_links : wf_links no_links.
Proof.
  split; [|reflexivity].
  intros c; destruct c; (split; [constructor | intros ? ? []]).
Qed.

Lemma routed_to_iff c key fds r :
  route fds = Ok r -> (routed_to c key fds = true <-> r = Some (c, key)).
Proof.
  intros Hr. unfold routed_to. rewrite Hr.
  destruct r as [[c' key']|]; [|split; discriminate].
  rewrite andb_true_iff, chan_eqb_eq, value_eqb_eq.
  split; [intros [-> ->]; reflexivity | intros [= -> ->]; now split].
Qed.

Lemma routed_to_route c key fds :
  routed_to c key fds = true <-> route fds = Ok (Some (c, key)).
Proof.
  unfold routed_to. destruct (route fds) as [[[c' key']|]|e];
    try (split; discriminate).
  rewrite andb_true_iff, chan_eqb_eq, value_eqb_eq.
  split; [intros [-> ->]; reflexivity | intros [= -> ->]; now split].
Qed.

Lemma member_filed r l pid fds c key p :
  member (chan_part c (filed r l pid fds)) key p <->
  member (chan_part c l) key p \/ (r = Some (c, key) /\ p = pid).
Proof.
  destruct r as [[c0 k0]|]; simpl.
  - rewrite member_file_chan. split.
    + intros [?|[-> [-> ->]]]; [now left | now right].
    + intros [?|[[= -> ->] ->]]; [now left | now right].
  - split; [now left | intros [?|[[=] _]]; assumption].
Qed.

Lemma stored_filed r l pid fds c key p :
  route fds = Ok r ->
  stored (chan_part c (filed r l pid fds)) key p =
  if routed_to c key fds && value_eqb p pid then Some fds
  else stored (chan_part c l) key p.
Proof.
  intros Hr. destruct (routed_to c key fds) eqn:Hrt; simpl.
  - apply (routed_to_iff c key fds r Hr) in Hrt. subst r. simpl.
    rewrite chan_part_file_chan_same, stored_file_under.
    now rewrite value_eqb_refl.
  - destruct r as [[c0 k0]|]; simpl; [|reflexivity].
    destruct (chan_eq_dec c c0) as [->|Hc].
    + rewrite chan_part_file_chan_same, stored_file_under.
      destruct (value_eqb_spec key k0) as [->|Hk]; [|reflexivity].
      assert (routed_to c0 k0 fds = true) by now apply (routed_to_iff c0 k0 fds _ Hr).
      congruence.
    + now rewrite chan_part_file_chan_other.
Qed.

Lemma wf_links_filed r l pid fds : wf_links l -> wf_links (filed r l pid fds).
Proof.
  destruct r as [[c key]|]; simpl; [apply wf_links_file_chan | trivial].
Qed.

Lemma link_fd_Ok pid acc fds acc' :
  link_fd pid acc fds = Ok acc' <->
  exists r, route fds = Ok r /\ acc' = filed r acc pid fds.
Proof.
  rewrite link_fd_route. destruct (route fds) as [r|e]; simpl.
  - split; [intros [= <-]; now exists r | intros [r' [[= <-] ->]]; reflexivity].
  - split; [discriminate | intros [r' [[=] _]]].
Qed.

Lemma link_fd_Raise pid acc fds e :
  link_fd pid acc fds = Raise e <-> route fds = Raise e.
Proof.
  rewrite link_fd_route. destruct (route fds) as [r|e']; simpl;
    split; congruence.
Qed.

(** The descriptors of one process. *)
Lemma link_fds_routes pid fd_fields : forall acc acc',
  link_fds pid acc fd_fields = Ok acc' ->
  forall fd fds, In (fd, fds) fd_fields -> exists r, route fds = Ok r.
Proof.
  induction fd_fields as [|[fd0 fds0] rest IH]; simpl; intros acc acc' Hl fd fds Hin;
    [contradiction|].
  destruct (link_fd pid acc fds0) as [acc1|e] eqn:H1; simpl in Hl; [|discriminate].
  destruct Hin as [[= <- <-]|Hin].
  - apply link_fd_Ok in H1. destruct H1 as [r [Hr _]]. now exists r.
  - exact (IH _ _ Hl _ _ Hin).
Qed.

Lemma link_fds_wf pid fd_fields : forall acc acc',
  link_fds pid acc fd_fields = Ok acc' -> wf_links acc -> wf_links acc'.
Proof.
  induction fd_fields as [|[fd0 fds0] rest IH]; simpl; intros acc acc' Hl Hwf.
  - now injection Hl as <-.
  - destruct (link_fd pid acc fds0) as [acc1|e] eqn:H1; simpl in Hl; [|discriminate].
    apply link_fd_Ok in H1. destruct H1 as [r [_ ->]].
    apply (IH _ _ Hl). now apply wf_links_filed.
Qed.

Lemma link_fds_member pid fd_fields : forall acc acc',
  link_fds pid acc fd_fields = Ok acc' ->
  forall c key p,
    member (chan_part c acc') key p <->
    member (chan_part c acc) key p \/
    (p = pid /\ exists fd fds, In (fd, fds) fd_fields /\
                              route fds = Ok (Some (c, key))).
Proof.
  induction fd_fields as [|[fd0 fds0] rest IH]; simpl; intros acc acc' Hl c key p.
  - injection Hl as <-. split; [now left|].
    intros [?|[_ [? [? [[] _]]]]]. assumption.
  - destruct (link_fd pid acc fds0) as [acc1|e] eqn:H1; simpl in Hl; [|discriminate].
    apply link_fd_Ok in H1. destruct H1 as [r [Hr ->]].
    rewrite (IH _ _ Hl), member_filed. split.
    + intros [[?|[-> ->]]|[-> [fd [fds [Hin Hroute]]]]].
      * now left.
      * right. split; [reflexivity|]. exists fd0, fds0. split; [now left | assumption].
      * right. split; [reflexivity|]. exists fd, fds. split; [now right | assumption].
    + intros [?|[-> [fd [fds [[[= <- <-]|Hin] Hroute]]]]].
      * left. now left.
      * left. right. split; [congruence | reflexivity].
      * right. split; [reflexivity|]. now exists fd, fds.
Qed.

Lemma link_fds_stored pid fd_fields : forall acc acc',
  link_fds pid acc fd_fields = Ok acc' ->
  forall c key p,
    stored (chan_part c acc') key p =
    if value_eqb p pid then
      match last_routed c key fd_fields with
      | Some r => Some r
      | None => stored (chan_part c acc) key p
      end
    else stored (chan_part c acc) key p.
Proof.
  induction fd_fields as [|[fd0 fds0] rest IH]; simpl; intros acc acc' Hl c key p.
  - injection Hl as <-. now destruct (value_eqb p pid).
  - destruct (link_fd pid acc fds0) as [acc1|e] eqn:H1; simpl in Hl; [|discriminate].
    apply link_fd_Ok in H1. destruct H1 as [r [Hr ->]].
    rewrite (IH _ _ Hl), (stored_filed _ _ _ _ _ _ _ Hr).
    destruct (value_eqb p pid); [|now rewrite andb_false_r].
    rewrite andb_true_r.
    destruct (last_routed c key rest); [reflexivity|].
    now destruct (routed_to c key fds0).
Qed.

Lemma link_fds_total pid fd_fields : forall acc,
  (forall fd fds, In (fd, fds) fd_fields -> exists r, route fds = Ok r) ->
  exists acc', link_fds pid acc fd_fields = Ok acc'.
Proof.
  induction fd_fields as [|[fd0 fds0] rest IH]; simpl; intros acc Hall.
  - now exists acc.
  - destruct (Hall fd0 fds0 (or_introl eq_refl)) as [r Hr].
    rewrite link_fd_route, Hr. simpl. apply IH.
    intros fd fds Hin. apply (Hall fd fds). now right.
Qed.

(** The whole table. *)
Lemma link_pids_routes file_info : forall acc acc',
  link_pids acc file_info = Ok acc' ->
  forall pid fd_fields fd fds,
    In (pid, fd_fields) file_info -> In (fd, fds) fd_fields ->
    exists r, route fds = Ok r.
Proof.
  induction file_info as [|[pid0 fdf0] rest IH]; simpl;
    intros acc acc' Hl pid fd_fields fd fds Hin Hfd; [contradiction|].
  destruct (link_fds pid0 acc fdf0) as [acc1|e] eqn:H1; simpl in Hl; [|discriminate].
  destruct Hin as [[= <- <-]|Hin].
  - exact (link_fds_routes _ _ _ _ H1 _ _ Hfd).
  - exact (IH _ _ Hl _ _ _ _ Hin Hfd).
Qed.

Lemma link_pids_wf file_info : forall acc acc',
  link_pids acc file_info = Ok acc' -> wf_links acc -> wf_links acc'.
Proof.
  induction file_info as [|[pid0 fdf0] rest IH]; simpl; intros acc acc' Hl Hwf.
  - now injection Hl as <-.
  - destruct (link_fds pid0 acc fdf0) as [acc1|e] eqn:H1; simpl in Hl; [|discriminate].
    apply (IH _ _ Hl). exact (link_fds_wf _ _ _ _ H1 Hwf).
Qed.

Lemma link_pids_member file_info : forall acc acc',
  link_pids acc file_info = Ok acc' ->
  forall c key p,
    member (chan_part c acc') key p <->
    member (chan_part c acc) key p \/ holds file_info p c key.
Proof.
  unfold holds.
  induction file_info as [|[pid0 fdf0] rest IH]; simpl; intros acc acc' Hl c key p.
  - injection Hl as <-. split; [now left|].
    intros [?|[? [? [? [[] _]]]]]. assumption.
  - destruct (link_fds pid0 acc fdf0) as [acc1|e] eqn:H1; simpl in Hl; [|discriminate].
    rewrite (IH _ _ Hl), (link_fds_member _ _ _ _ H1). split.
    + intros [[?|[-> [fd [fds [Hin Hroute]]]]]|[fdf [fd [fds [Hin [Hfd Hroute]]]]]].
      * now left.
      * right. exists fdf0, fd, fds. split; [now left | now split].
      * right. exists fdf, fd, fds. split; [now right | now split].
    + intros [?|[fdf [fd [fds [[[= <- <-]|Hin] [Hfd Hroute]]]]]].
      * left. now left.
      * left. right. split; [reflexivity|]. now exists fd, fds.
      * right. exists fdf, fd, fds. now repeat split.
Qed.

Lemma link_pids_stored_other file_info : forall acc acc' pid,
  link_pids acc file_info = Ok acc' ->
  ~ In pid (dkeys file_info) ->
  forall c key, stored (chan_part c acc') key pid = stored (chan_part c acc) key pid.
Proof.
  induction file_info as [|[pid0 fdf0] rest IH]; simpl; intros acc acc' pid Hl Hnot c key.
  - now injection Hl as <-.
  - destruct (link_fds pid0 acc fdf0) as [acc1|e] eqn:H1; simpl in Hl; [|discriminate].
    rewrite (IH _ _ pid Hl) by (intros Hin; apply Hnot; now right).
    rewrite (link_fds_stored _ _ _ _ H1).
    destruct (value_eqb_spec pid pid0) as [->|Hne]; [|reflexivity].
    exfalso. apply Hnot. now left.
Qed.

Lemma link_pids_stored file_info : forall acc acc' pid fd_fields,
  link_pids acc file_info = Ok acc' ->
  NoDup (dkeys file_info) ->
  In (pid, fd_fields) file_info ->
  forall c key,
    stored (chan_part c acc') key pid =
    match last_routed c key fd_fields with
    | Some r => Some r
    | None => stored (chan_part c acc) key pid
    end.
Proof.
  induction file_info as [|[pid0 fdf0] rest IH]; simpl;
    intros acc acc' pid fd_fields Hl Hnd Hin c key; [contradiction|].
  destruct (link_fds pid0 acc fdf0) as [acc1|e] eqn:H1; simpl in Hl; [|discriminate].
  inversion Hnd as [|? ? Hnot Hnd']; subst.
  destruct Hin as [[= <- <-]|Hin].
  - rewrite (link_pids_stored_other _ _ _ pid0 Hl Hnot).
    rewrite (link_fds_stored _ _ _ _ H1). now rewrite value_eqb_refl.
  - rewrite (IH _ _ _ _ Hl Hnd' Hin).
    rewrite (link_fds_stored _ _ _ _ H1).
    destruct (value_eqb_spec pid pid0) as [->|Hne]; [|reflexivity].
    exfalso. apply Hnot. exact (In_dkeys _ _ _ Hin).
Qed.

Lemma link_pids_total file_info : forall acc,
  (forall pid fd_fields fd fds,
      In (pid, fd_fields) file_info -> In (fd, fds) fd_fields ->
      exists r, route fds = Ok r) ->
  exists acc', link_pids acc file_info = Ok acc'.
Proof.
  induction file_info as [|[pid0 fdf0] rest IH]; simpl; intros acc Hall.
  - now exists acc.
  - destruct (link_fds_total pid0 fdf0 acc) as [acc1 H1].
    { intros fd fds Hin. apply (Hall pid0 fdf0 fd fds); [now left | assumption]. }
    rewrite H1. simpl. apply IH.
    intros pid fdf fd fds Hin Hfd. apply (Hall pid fdf fd fds); [now right | assumption].
Qed.

Lemma member_nil key p : ~ member [] key p.
Proof. intros []. Qed.

Lemma member_no_links c key p : ~ member (chan_part c no_links) key p.
Proof. destruct c; apply member_nil. Qed.

(** The participants of a key are the processes that hold a descriptor
    routed to it. *)
Lemma find_links_member file_info l c key p :
  find_links file_info = Ok l ->
  (member (chan_part c l) key p <-> holds file_info p c key).
Proof.
  intros Hl. unfold find_links in Hl.
  rewrite (link_pids_member _ _ _ Hl). split; [|now right].
  intros [Hm|?]; [|assumption]. now apply member_no_links in Hm.
Qed.

Lemma find_links_wf file_info l : find_links file_info = Ok l -> wf_links l.
Proof. intros Hl. exact (link_pids_wf _ _ _ Hl wf_no_links). Qed.

Lemma find_links_routes file_info l :
  find_links file_info = Ok l ->
  forall pid fd_fields fd fds,
    In (pid, fd_fields) file_info -> In (fd, fds) fd_fields ->
    exists r, route fds = Ok r.
Proof. intros Hl. exact (link_pids_routes _ _ _ Hl). Qed.

Lemma find_links_total file_info :
  (forall pid fd_fields fd fds,
      In (pid, fd_fields) file_info -> In (fd, fds) fd_fields ->
      exists r, route fds = Ok r) ->
  exists l, find_links file_info = Ok l.
Proof. apply link_pids_total. Qed.

(** An entry of a well-formed partition, seen through lookups. *)
Lemma wf_part_entry part key pids :
  wf_part part -> In (key, pids) part ->
  dget_default [] part key = pids /\ NoDup (dkeys pids) /\ pids <> [].
Proof.
  intros [Hnd Hall] Hin. destruct (Hall _ _ Hin) as [Hnd' Hne].
  repeat split; try assumption.
  unfold dget_default. now rewrite (In_dget _ _ _ Hnd Hin).
Qed.

(** ** The distinct holders of a key *)

Lemma distinct_In (x : value) (l : list value) : In x (distinct l) <-> In x l.
Proof.
  induction l as [|y l IH]; simpl; [reflexivity|].
  destruct (mem y l) eqn:Hm.
  - rewrite IH. apply mem_In in Hm. split; [now right|].
    intros [<-|?]; assumption.
  - simpl. now rewrite IH.
Qed.

Lemma distinct_NoDup (l : list value) : NoDup (distinct l).
Proof.
  induction l as [|y l IH]; simpl; [constructor|].
  destruct (mem y l) eqn:Hm; [assumption|].
  constructor; [|assumption].
  rewrite distinct_In. now apply mem_false.
Qed.

Lemma holders_In file_info c key p :
  In p (holders file_info c key) <-> holds file_info p c key.
Proof.
  unfold holders, holds. rewrite distinct_In, in_map_iff. split.
  - intros [[pid fdf] [Heq Hin]]. simpl in Heq. subst pid.
    apply filter_In in Hin. destruct Hin as [Hin Hex]. simpl in Hex.
    apply existsb_exists in Hex. destruct Hex as [[fd fds] [Hfd Hr]].
    simpl in Hr. apply routed_to_route in Hr. now exists fdf, fd, fds.
  - intros [fdf [fd [fds [Hin [Hfd Hr]]]]]. exists (p, fdf). split; [reflexivity|].
    apply filter_In. split; [assumption|]. simpl.
    apply existsb_exists. exists (fd, fds). split; [assumption|].
    simpl. now apply routed_to_route.
Qed.

Lemma holders_NoDup file_info c key : NoDup (holders file_info c key).
Proof. apply distinct_NoDup. Qed.

(** The participants recorded under a key are its distinct holders. *)
Lemma participants_holders file_info l c key pids :
  find_links file_info = Ok l ->
  In (key, pids) (chan_part c l) ->
  Permutation (dkeys pids) (holders file_info c key).
Proof.
  intros Hl Hin.
  destruct (find_links_wf _ _ Hl) as [Hwf _].
  destruct (wf_part_entry _ _ _ (Hwf c) Hin) as [Hget [Hnd _]].
  apply NoDup_Permutation; [assumption | apply holders_NoDup|].
  intros p. rewrite holders_In, <- (find_links_member _ _ _ _ _ Hl).
  unfold member. now rewrite Hget.
Qed.

(** The text printed is the rendering of the statements. *)
Lemma main_render (lines : list string) :
  main lines = (ne <- main_statements lines ;; Ok (render (fst ne) (snd ne))).
Proof.
  unfold main, main_statements, generate_dot.
  destruct (parse_lsof lines) as [tables|e]; cbn [bind]; [|reflexivity].
  destruct (find_links (drop_kernel_threads (snd tables))) as [l|e];
    reflexivity.
Qed.

(** ** generate_dot: the loop over the keys *)

Lemma conn_props_chan (l : links) :
  conn_props (unix l) (fifo l) (tcp l) (udp l) =
  map (fun c => (chan_part c l, chan_props c)) [Unix; Fifo; Tcp; Udp].
Proof. reflexivity. Qed.

Lemma dkeys_length {V : Type} (d : dict value V) :
  List.length (dkeys d) = List.length d.
Proof. apply length_map. Qed.

Lemma dot_key_other p key pids edges :
  List.length pids <> 2 -> dot_key p key pids edges = Ok edges.
Proof.
  intros Hlen. unfold dot_key.
  destruct (Nat.eqb_spec (List.length pids) 2); [contradiction | reflexivity].
Qed.

Lemma dot_key_two p key pids edges src dst :
  dkeys pids = [src; dst] ->
  dot_key p key pids edges =
  (fd_type <- subscript (dget_default [] pids src) "a" ;;
   Ok (edges ++
       [mk_edge src dst (desc p ++ ":\n" ++ str key)%string 1 10 (color p)
          (if value_eqb fd_type (VStr "w") then "forward"
           else if value_eqb fd_type (VStr "r") then "backward"
           else "both")])).
Proof.
  intros Hk. unfold dot_key.
  assert (Hlen : List.length pids = 2) by now rewrite <- dkeys_length, Hk.
  rewrite Hlen, Hk. reflexivity.
Qed.

Lemma dot_key_acc p key pids edges :
  dot_key p key pids edges =
  (new <- dot_key p key pids [] ;; Ok (edges ++ new)).
Proof.
  destruct (Nat.eq_dec (List.length pids) 2) as [Hlen|Hlen].
  - destruct pids as [|[src f1] [|[dst f2] [|]]]; try discriminate.
    rewrite !(dot_key_two _ _ _ _ src dst) by reflexivity.
    destruct (subscript _ "a"); reflexivity.
  - rewrite !dot_key_other by assumption. simpl. now rewrite app_nil_r.
Qed.

Lemma dot_key_length p key pids new :
  dot_key p key pids [] = Ok new ->
  List.length new = if Nat.eqb (List.length pids) 2 then 1 else 0.
Proof.
  destruct (Nat.eqb_spec (List.length pids) 2) as [Hlen|Hlen].
  - destruct pids as [|[src f1] [|[dst f2] [|]]]; try discriminate.
    rewrite (dot_key_two _ _ _ _ src dst) by reflexivity.
    destruct (subscript _ "a"); simpl; [|discriminate].
    now intros [= <-].
  - rewrite dot_key_other by assumption. now intros [= <-].
Qed.

(** The loop appends, key after key, what the body yields for the key. *)
Lemma dot_keys_Ok p fd_pids : forall edges edges',
  dot_keys p fd_pids edges = Ok edges' <->
  exists news,
    Forall2 (fun entry new => dot_key p (fst entry) (snd entry) [] = Ok new)
      fd_pids news /\
    edges' = edges ++ List.concat news.
Proof.
  induction fd_pids as [|[key pids] rest IH]; simpl; intros edges edges'.
  - split.
    + intros [= <-]. exists []. split; [constructor | now rewrite app_nil_r].
    + intros [news [HF ->]]. inversion HF; subst. simpl. now rewrite app_nil_r.
  - rewrite dot_key_acc. destruct (dot_key p key pids []) as [new|e] eqn:Hk; simpl.
    + rewrite IH. split.
      * intros [news [HF ->]]. exists (new :: news). split.
        -- constructor; [exact Hk | assumption].
        -- simpl. now rewrite app_assoc.
      * intros [news [HF ->]]. inversion HF as [|? new' ? news' Hnew HF']; subst.
        simpl in Hnew. rewrite Hk in Hnew. injection Hnew as <-.
        exists news'. split; [assumption|].
        simpl. now rewrite app_assoc.
    + split; [discriminate|]. intros [news [HF _]].
      inversion HF as [|? new' ? news' Hnew HF']; subst.
      simpl in Hnew. rewrite Hk in Hnew. discriminate.
Qed.

Lemma dot_keys_In p fd_pids edges edges' e :
  dot_keys p fd_pids edges = Ok edges' ->
  (In e edges' <->
   In e edges \/
   exists key pids new,
     In (key, pids) fd_pids /\ dot_key p key pids [] = Ok new /\ In e new).
Proof.
  intros Hd. apply dot_keys_Ok in Hd. destruct Hd as [news [HF ->]].
  rewrite in_app_iff. apply or_iff_compat_l.
  induction HF as [|[key pids] new rest news Hnew HF IH]; simpl.
  - split; [contradiction | intros [? [? [? [[] _]]]]].
  - simpl in Hnew. rewrite in_app_iff, IH. split.
    + intros [Hin|[k [ps [nw [Hin [Hk He]]]]]].
      * exists key, pids, new. split; [now left | now split].
      * exists k, ps, nw. split; [now right | now split].
    + intros [k [ps [nw [[[= <- <-]|Hin] [Hk He]]]]].
      * left. congruence.
      * right. now exists k, ps, nw.
Qed.

Lemma dot_keys_covers p fd_pids edges edges' key pids :
  dot_keys p fd_pids edges = Ok edges' ->
  In (key, pids) fd_pids ->
  exists new, dot_key p key pids [] = Ok new /\ incl new edges'.
Proof.
  intros Hd. apply dot_keys_Ok in Hd. destruct Hd as [news [HF ->]].
  induction HF as [|[k ps] new rest news Hnew HF IH]; simpl; [contradiction|].
  simpl in Hnew. intros [[= -> ->]|Hin].
  - exists new. split; [assumption|]. intros e He.
    rewrite in_app_iff. right. rewrite in_app_iff. now left.
  - destruct (IH Hin) as [nw [Hk Hincl]]. exists nw. split; [assumption|].
    intros e He. apply Hincl in He. rewrite in_app_iff in *.
    destruct He as [?|?]; [now left | right]. rewrite in_app_iff. now right.
Qed.

Lemma dot_conns_In conns : forall edges edges' e,
  dot_conns conns edges = Ok edges' ->
  (In e edges' <->
   In e edges \/
   exists fd_pids p key pids new,
     In (fd_pids, p) conns /\ In (key, pids) fd_pids /\
     dot_key p key pids [] = Ok new /\ In e new).
Proof.
  induction conns as [|[part p] rest IH]; simpl; intros edges edges' e Hd.
  - injection Hd as <-. split; [now left|].
    intros [?|[? [? [? [? [? [[] _]]]]]]]. assumption.
  - destruct (dot_keys p part edges) as [edges1|ex] eqn:H1; simpl in Hd; [|discriminate].
    rewrite (IH _ _ e Hd), (dot_keys_In _ _ _ _ e H1). split.
    + intros [[?|[key [pids [new [Hin [Hk He]]]]]]|[fp [p' [key [pids [new [Hc Hr]]]]]]].
      * now left.
      * right. exists part, p, key, pids, new. split; [now left | now repeat split].
      * right. exists fp, p', key, pids, new. split; [now right | assumption].
    + intros [?|[fp [p' [key [pids [new [[[= <- <-]|Hc] Hr]]]]]]].
      * left. now left.
      * left. right. now exists key, pids, new.
      * right. now exists fp, p', key, pids, new.
Qed.

Lemma dot_conns_covers conns : forall edges edges' fd_pids p key pids,
  dot_conns conns edges = Ok edges' ->
  In (fd_pids, p) conns -> In (key, pids) fd_pids ->
  exists new, dot_key p key pids [] = Ok new /\ incl new edges'.
Proof.
  induction conns as [|[part p0] rest IH]; simpl;
    intros edges edges' fd_pids p key pids Hd Hc Hin; [contradiction|].
  destruct (dot_keys p0 part edges) as [edges1|ex] eqn:H1; simpl in Hd; [|discriminate].
  destruct Hc as [[= -> ->]|Hc].
  - destruct (dot_keys_covers _ _ _ _ _ _ H1 Hin) as [new [Hk Hincl]].
    exists new. split; [assumption|]. intros e He. apply Hincl in He.
    apply (dot_conns_In _ _ _ e Hd). now left.
  - exact (IH _ _ _ _ _ _ Hd Hc Hin).
Qed.

(** What the body yields for a key: nothing, or one edge between the two
    participants, listed in the order of the dictionary. *)
Lemma dot_key_edge p key pids new e :
  dot_key p key pids [] = Ok new -> In e new ->
  new = [e] /\
  dkeys pids = [edge_a e; edge_b e] /\
  edge_label e = (desc p ++ ":\n" ++ str key)%string /\
  edge_pw e = 1%Z /\ edge_weight e = 10%Z /\ edge_color e = color p /\
  (edge_dir e = "forward" \/ edge_dir e = "backward" \/ edge_dir e = "both").
Proof.
  destruct (Nat.eq_dec (List.length pids) 2) as [Hlen|Hlen].
  - destruct pids as [|[src f1] [|[dst f2] [|]]]; try discriminate.
    rewrite (dot_key_two _ _ _ _ src dst) by reflexivity.
    destruct (subscript _ "a") as [a|]; simpl; [|discriminate].
    intros [= <-] [<-|[]]. simpl. repeat split.
    destruct (value_eqb a (VStr "w")); [now left|].
    destruct (value_eqb a (VStr "r")); right; [now left | now right].
  - rewrite dot_key_other by assumption. intros [= <-] [].
Qed.

Lemma dot_key_is_link p key pids new e :
  dot_key p key pids [] = Ok new -> In e new -> is_link e.
Proof.
  intros Hk He. destruct (dot_key_edge _ _ _ _ _ Hk He) as [_ [_ [_ [_ [_ [_ Hdir]]]]]].
  unfold is_link. destruct Hdir as [Hd | [Hd | Hd]]; rewrite Hd; discriminate.
Qed.

(** ** generate_dot: the loop over the pids *)

Lemma dot_pid_acc proc_info pid acc :
  dot_pid proc_info pid acc =
  (r <- dot_pid proc_info pid ([], []) ;;
   Ok (fst acc ++ fst r, snd acc ++ snd r)).
Proof.
  unfold dot_pid.
  destruct (subscript _ "R") as [r|]; simpl; [|reflexivity].
  destruct (subscript _ "L") as [login|]; simpl; [|reflexivity].
  destruct (truthy _ && _); simpl; [reflexivity|].
  now rewrite app_nil_r.
Qed.

Lemma dot_pid_yield proc_info pid r :
  dot_pid proc_info pid ([], []) = Ok r ->
  (exists n, fst r = [n] /\ node_pid n = pid) /\
  (forall e, In e (snd r) -> edge_dir e = "none" /\ edge_b e = pid).
Proof.
  unfold dot_pid.
  destruct (subscript _ "R") as [rv|]; simpl; [|discriminate].
  destruct (subscript _ "L") as [login|]; simpl; [|discriminate].
  destruct (truthy _ && _); intros [= <-]; simpl.
  - split; [eexists; split; reflexivity|]. intros e [<-|[]]. now split.
  - split; [eexists; split; reflexivity|]. intros e [].
Qed.

Lemma dot_pids_Ok proc_info pids : forall acc acc',
  dot_pids proc_info pids acc = Ok acc' <->
  exists rs,
    Forall2 (fun pid r => dot_pid proc_info pid ([], []) = Ok r) pids rs /\
    acc' = (fst acc ++ List.concat (map fst rs), snd acc ++ List.concat (map snd rs)).
Proof.
  induction pids as [|pid rest IH]; simpl; intros acc acc'.
  - split.
    + intros [= <-]. exists []. split; [constructor|].
      simpl. rewrite !app_nil_r. now destruct acc.
    + intros [rs [HF ->]]. inversion HF; subst. simpl.
      rewrite !app_nil_r. now destruct acc.
  - rewrite dot_pid_acc.
    destruct (dot_pid proc_info pid ([], [])) as [r|e] eqn:Hp; simpl.
    + rewrite IH. simpl. split.
      * intros [rs [HF ->]]. exists (r :: rs). split; [now constructor|].
        simpl. now rewrite !app_assoc.
      * intros [rs [HF ->]]. inversion HF as [|? r' ? rs' Hr HF']; subst.
        rewrite Hp in Hr. injection Hr as <-. exists rs'. split; [assumption|].
        simpl. now rewrite !app_assoc.
    + split; [discriminate|]. intros [rs [HF _]].
      inversion HF as [|? r' ? rs' Hr HF']; subst. rewrite Hp in Hr. discriminate.
Qed.

Lemma dot_pids_nodes proc_info pids nodes edges :
  dot_pids proc_info pids ([], []) = Ok (nodes, edges) ->
  map node_pid nodes = pids /\
  (forall e, In e edges -> edge_dir e = "none" /\ In (edge_b e) pids).
Proof.
  intros Hd. apply dot_pids_Ok in Hd. destruct Hd as [rs [HF Heq]].
  simpl in Heq. injection Heq as -> ->.
  induction HF as [|pid r rest rs Hr HF [IHn IHe]]; simpl.
  - split; [reflexivity | intros e []].
  - destruct (dot_pid_yield _ _ _ Hr) as [[n [Hn Hpid]] Hes].
    rewrite Hn. simpl. rewrite Hpid, IHn. split; [reflexivity|].
    intros e He. apply in_app_iff in He. destruct He as [He|He].
    + destruct (Hes e He) as [Hdir Hb]. split; [assumption | now left].
    + destruct (IHe e He) as [Hdir Hb]. split; [assumption | now right].
Qed.

Lemma dot_statements_Ok proc_info file_info l nodes edges :
  dot_statements proc_info file_info (unix l) (fifo l) (pipe l) (tcp l) (udp l)
  = Ok (nodes, edges) <->
  exists edges0,
    dot_pids proc_info (dkeys file_info) ([], []) = Ok (nodes, edges0) /\
    dot_conns (conn_props (unix l) (fifo l) (tcp l) (udp l)) edges0 = Ok edges.
Proof.
  unfold dot_statements.
  destruct (dot_pids proc_info (dkeys file_info) ([], [])) as [[ns es]|e];
    cbn [bind fst snd].
  - destruct (dot_conns (conn_props (unix l) (fifo l) (tcp l) (udp l)) es)
      as [edges1|e] eqn:Hconns; cbn [bind fst snd].
    + split.
      * intros Heq. injection Heq as <- <-. now exists es.
      * intros [edges0 [Heq Hc]]. injection Heq as <- <-.
        rewrite Hconns in Hc. injection Hc as <-. reflexivity.
    + split; [discriminate|]. intros [edges0 [Heq Hc]].
      injection Heq as <- <-. rewrite Hconns in Hc. discriminate.
  - split; [discriminate | intros [edges0 [[=] _]]].
Qed.

(* ================================================================= *)
(** * The participants of a key *)

Lemma participants_length file_info l c key pids :
  find_links file_info = Ok l ->
  In (key, pids) (chan_part c l) ->
  List.length pids = List.length (holders file_info c key).
Proof.
  intros Hl Hin. rewrite <- dkeys_length.
  apply Permutation_length. exact (participants_holders _ _ _ _ _ Hl Hin).
Qed.


(* ================================================================= *)
(** * The direction of a link *)

(** C5 (amended).  For a key with two participants, the edge goes from the
    first process id to the second, and its direction follows the access
    mode of the first: ['w'] gives "forward", ['r'] gives "backward", any
    other value that is present gives "both".  When the first participant
    has no access-mode field the emitter raises [KeyError]. *)
Theorem link_direction (p : props) (key : value) (pids : dict value fields)
    (src dst : value) (edges : list edge) :
  dkeys pids = [src; dst] ->
  (forall a, dget (dget_default [] pids src) "a"%char = Some a ->
     exists e,
       dot_key p key pids edges = Ok (edges ++ [e]) /\
       edge_a e = src /\ edge_b e = dst /\
       (a = VStr "w" -> edge_dir e = "forward") /\
       (a = VStr "r" -> edge_dir e = "backward") /\
       (a <> VStr "w" -> a <> VStr "r" -> edge_dir e = "both")) /\
  (dget (dget_default [] pids src) "a"%char = None ->
     dot_key p key pids edges = Raise (KeyError "a")).
Proof.
  intros Hk. rewrite (dot_key_two _ _ _ _ src dst Hk). unfold subscript. split.
  - intros a Ha. rewrite Ha. simpl. eexists. split; [reflexivity|]. simpl.
    repeat split.
    + intros ->. reflexivity.
    + intros ->. reflexivity.
    + intros Hw Hr. apply value_eqb_neq in Hw, Hr. now rewrite Hw, Hr.
  - intros Ha. now rewrite Ha.
Qed.


Lemma link_direction_witness :
  (exists e,
     dot_key (chan_props Unix) (VInt 5) writer_first_pids [] = Ok ([] ++ [e]) /\
     edge_a e = VInt 10 /\ edge_b e = VInt 20 /\ edge_dir e = "forward") /\
  dot_key (chan_props Unix) (VInt 12345) no_access_pids [] = Raise (KeyError "a").
Proof.
  split.
  - destruct (proj1 (link_direction (chan_props Unix) (VInt 5) writer_first_pids
                       (VInt 10) (VInt 20) [] eq_refl) (VStr "w") eq_refl)
      as [e [Hk [Ha [Hb [Hw _]]]]].
    exists e. repeat split; try assumption. now apply Hw.
  - apply (proj2 (link_direction (chan_props Unix) (VInt 12345) no_access_pids
                    (VInt 10) (VInt 20) [] eq_refl)).
    reflexivity.
Defined.

(** Against C5 as stated: two processes share unix socket 12345 and the
    first has no access-mode field; no bidirectional edge comes out, the
    emitter and with it the program stop on [KeyError]. *)
Lemma absent_access_mode_aborts :
  let pids := dget_default [] (unix (links_of (retained no_access_lines)))
                (VInt 12345) in
  dkeys pids = [VInt 10; VInt 20] /\
  dget (dget_default [] pids (VInt 10)) "a"%char = None /\
  dot_key (chan_props Unix) (VInt 12345) pids [] = Raise (KeyError "a") /\
  main_statements no_access_lines = Raise (KeyError "a").
Proof. vm_compute. repeat split. Qed.

(* ================================================================= *)
(** * One attribute set per participant *)

Lemma NoDup_single_length (l : list value) (p : value) :
  NoDup l -> (forall x, In x l -> x = p) -> List.length l <= 1.
Proof.
  intros Hnd Hall. destruct l as [|x [|y rest]]; simpl; try lia.
  exfalso. inversion Hnd as [|? ? Hnot _]; subst. apply Hnot.
  rewrite (Hall x) by now left. rewrite (Hall y) by (right; now left).
  now left.
Qed.

(** C10.  In every partition [find_links] builds, a resource key maps each
    participating process id to one attribute set, that of the last
    descriptor of the process filed under the key; hence a key held only
    by descriptors of a single process yields no edge, and no edge drawn
    for a channel connects a process to itself. *)
Theorem one_record_per_participant (file_info : file_table) (l : links)
    (c : chan) (key : value) (pids : dict value fields) :
  find_links file_info = Ok l ->
  NoDup (dkeys file_info) ->
  In (key, pids) (chan_part c l) ->
  NoDup (dkeys pids) /\
  (forall pid fd_fields,
     In (pid, fd_fields) file_info ->
     dget pids pid = last_routed c key fd_fields) /\
  (forall p edges,
     (forall pid, holds file_info pid c key -> pid = p) ->
     dot_key (chan_props c) key pids edges = Ok edges) /\
  (forall edges0 edges e,
     dot_conns (conn_props (unix l) (fifo l) (tcp l) (udp l)) edges0 = Ok edges ->
     In e edges -> In e edges0 \/ (is_link e /\ edge_a e <> edge_b e)).
Proof.
  intros Hl Hnd Hin.
  destruct (find_links_wf _ _ Hl) as [Hwf _].
  destruct (wf_part_entry _ _ _ (Hwf c) Hin) as [Hget [Hndp _]].
  split; [assumption|]. split; [|split].
  - intros pid fdf Hpid. unfold find_links in Hl.
    pose proof (link_pids_stored _ _ _ _ _ Hl Hnd Hpid c key) as Hs.
    unfold stored in Hs. rewrite Hget in Hs. rewrite Hs.
    destruct (last_routed c key fdf); [reflexivity|].
    now destruct c.
  - intros p edges Hsingle. apply dot_key_other.
    assert (Hle : List.length (dkeys pids) <= 1).
    { apply (NoDup_single_length _ p Hndp). intros x Hx. apply Hsingle.
      apply (find_links_member _ _ _ _ _ Hl). unfold member. now rewrite Hget. }
    rewrite dkeys_length in Hle. lia.
  - intros edges0 edges e Hd He.
    apply (dot_conns_In _ _ _ e Hd) in He.
    destruct He as [He|[part [p [k [ps [new [Hc [Hk [Hnew He]]]]]]]]]; [now left|].
    right. split; [exact (dot_key_is_link _ _ _ _ _ Hnew He)|].
    rewrite conn_props_chan in Hc. apply in_map_iff in Hc.
    destruct Hc as [c' [Heq _]]. injection Heq as <- <-.
    destruct (wf_part_entry _ _ _ (Hwf c') Hk) as [_ [Hndk _]].
    destruct (dot_key_edge _ _ _ _ _ Hnew He) as [_ [Hkeys _]].
    rewrite Hkeys in Hndk. inversion Hndk as [|? ? Hnot _]; subst.
    intros Heq. apply Hnot. left. now symmetry.
Qed.

Lemma one_record_per_participant_witness :
  (exists pids,
     dget (unix shared_links) (VInt 12345) = Some pids /\
     NoDup (dkeys pids) /\
     dget pids (VInt 10)
     = Some [("a"%char, VStr "w"); ("t"%char, VStr "unix"); ("i"%char, VInt 12345)]) /\
  (exists pids,
     dget (unix shared_links) (VInt 777) = Some pids /\
     dot_key (chan_props Unix) (VInt 777) pids [] = Ok []) /\
  (forall e,
     In e [mk_edge (VInt 10) (VInt 20) "unix:\n12345" 1 10 "purple" "forward"] ->
     In e [] \/ (is_link e /\ edge_a e <> edge_b e)).
Proof.
  assert (Hl : find_links shared_table = Ok shared_links) by reflexivity.
  assert (Hnd : NoDup (dkeys shared_table)).
  { constructor; [intros [H|[]]; discriminate|].
    constructor; [intros [] | constructor]. }
  split; [|split].
  - eexists. split; [reflexivity|].
    destruct (one_record_per_participant shared_table shared_links Unix
                (VInt 12345) _ Hl Hnd (or_introl eq_refl)) as [Hk [Hlast _]].
    split; [exact Hk|].
    exact (Hlast (VInt 10) _ (or_introl eq_refl)).
  - eexists. split; [reflexivity|].
    destruct (one_record_per_participant shared_table shared_links Unix
                (VInt 777) _ Hl Hnd (or_intror (or_introl eq_refl)))
      as [_ [_ [Hone _]]].
    apply (Hone (VInt 10) []). intros pid Hh. apply holders_In in Hh.
    destruct Hh as [<-|[]]. reflexivity.
  - destruct (one_record_per_participant shared_table shared_links Unix
                (VInt 12345) _ Hl Hnd (or_introl eq_refl)) as [_ [_ [_ Hloop]]].
    intros e. apply (Hloop [] _ e). reflexivity.
Defined.

(* ================================================================= *)
(** * Failures of the correlator *)

Lemma link_fds_Raise pid fd_fields : forall acc e,
  link_fds pid acc fd_fields = Raise e ->
  exists fd fds, In (fd, fds) fd_fields /\ route fds = Raise e.
Proof.
  induction fd_fields as [|[fd0 fds0] rest IH]; simpl; intros acc e Hl; [discriminate|].
  destruct (link_fd pid acc fds0) as [acc1|e1] eqn:H1; simpl in Hl.
  - destruct (IH _ _ Hl) as [fd [fds [Hin Hr]]]. exists fd, fds. split; [now right | assumption].
  - injection Hl as ->. apply link_fd_Raise in H1. exists fd0, fds0. split; [now left | assumption].
Qed.

Lemma link_pids_Raise file_info : forall acc e,
  link_pids acc file_info = Raise e ->
  exists pid fd_fields fd fds,
    In (pid, fd_fields) file_info /\ In (fd, fds) fd_fields /\ route fds = Raise e.
Proof.
  induction file_info as [|[pid0 fdf0] rest IH]; simpl; intros acc e Hl; [discriminate|].
  destruct (link_fds pid0 acc fdf0) as [acc1|e1] eqn:H1; simpl in Hl.
  - destruct (IH _ _ Hl) as [pid [fdf [fd [fds [Hin Hr]]]]].
    exists pid, fdf, fd, fds. split; [now right | assumption].
  - injection Hl as ->. destruct (link_fds_Raise _ _ _ _ H1) as [fd [fds [Hin Hr]]].
    exists pid0, fdf0, fd, fds. split; [now left | now split].
Qed.

Lemma find_links_raises file_info pid fd_fields fd fds e :
  In (pid, fd_fields) file_info -> In (fd, fds) fd_fields ->
  route fds = Raise e ->
  exists e', find_links file_info = Raise e'.
Proof.
  intros Hin Hfd Hr. destruct (find_links file_info) as [l|e'] eqn:Hl.
  - destruct (find_links_routes _ _ Hl _ _ _ _ Hin Hfd) as [r Hr']. congruence.
  - now exists e'.
Qed.

Lemma route_no_type fds : dget fds "t"%char = None -> route fds = Raise (KeyError "t").
Proof. intros Ht. unfold route, subscript. now rewrite Ht. Qed.

Lemma route_KeyError_t fds :
  route fds = Raise (KeyError "t") -> dget fds "t"%char = None.
Proof.
  unfold route, subscript. destruct (dget fds "t"%char) as [ty|]; [|reflexivity].
  simpl. destruct (value_eqb ty (VStr "unix")); [discriminate|].
  destruct (value_eqb ty (VStr "FIFO")).
  { destruct (dget fds "i"%char); discriminate. }
  destruct (value_eqb ty (VStr "IPv4") || value_eqb ty (VStr "IPv6")); [|discriminate].
  destruct (dget fds "n"%char) as [n|]; simpl; [|discriminate].
  destruct n as [|z|n]; simpl; try discriminate.
  destruct (contains "->" n); simpl; [|discriminate].
  destruct (dget fds "P"%char); discriminate.
Qed.

(** C8.  A retained descriptor without a type field makes [find_links]
    raise instead of skipping it, and when every retained descriptor has a
    type field, [find_links] never raises the [KeyError] of field [t]. *)
Theorem missing_type_is_fatal (file_info : file_table) :
  (forall pid fd_fields fd fds,
     In (pid, fd_fields) file_info -> In (fd, fds) fd_fields ->
     dget fds "t"%char = None ->
     exists e, find_links file_info = Raise e) /\
  ((forall pid fd_fields fd fds,
      In (pid, fd_fields) file_info -> In (fd, fds) fd_fields ->
      dget fds "t"%char <> None) ->
   find_links file_info <> Raise (KeyError "t")).
Proof.
  split.
  - intros pid fdf fd fds Hin Hfd Ht.
    exact (find_links_raises _ _ _ _ _ _ Hin Hfd (route_no_type _ Ht)).
  - intros Hall Hl. unfold find_links in Hl.
    destruct (link_pids_Raise _ _ _ Hl) as [pid [fdf [fd [fds [Hin [Hfd Hr]]]]]].
    apply route_KeyError_t in Hr. exact (Hall _ _ _ _ Hin Hfd Hr).
Qed.

Lemma missing_type_is_fatal_witness :
  (exists e, find_links (retained no_type_lines) = Raise e) /\
  find_links (retained two_unix_lines) <> Raise (KeyError "t").
Proof.
  split.
  - apply (proj1 (missing_type_is_fatal (retained no_type_lines))
             (VInt 10) [(VInt 3, [("a"%char, VStr "r"); ("t"%char, VStr "REG")]);
                        (VInt 4, [("a"%char, VStr "w")])]
             (VInt 4) [("a"%char, VStr "w")]).
    + left. reflexivity.
    + right. left. reflexivity.
    + reflexivity.
  - apply (proj2 (missing_type_is_fatal (retained two_unix_lines))).
    intros pid fdf fd fds Hin Hfd.
    vm_compute in Hin.
    destruct Hin as [Hin|[Hin|[]]]; injection Hin as <- <-;
      (destruct Hfd as [Hfd|[]]; injection Hfd as <- <-; discriminate).
Defined.


(* ================================================================= *)
(** * The parser *)

Lemma read_line_text (field : ascii) (v : string) :
  isdigit v = false -> read_line (String field v) = Ok (field, VStr v).
Proof. intros Hd. simpl. now rewrite Hd. Qed.

Lemma parse_field_p (st : parse_state) (v : value) :
  parse_field st "p" v = Ok (process_opened st v).
Proof. reflexivity. Qed.

(** C7 (amended).  A process-start line whose value is not composed solely
    of digits does not fail: the text is kept as the process id, its
    record is opened, and parsing goes on with the next line.  The line is
    fatal only for a value that [isdigit] accepts and [int] rejects. *)
Theorem text_pid_is_kept (st : parse_state) (v : string) (rest : list string) :
  (isdigit v = false ->
   parse_line st (String "p" v) = Ok (process_opened st (VStr v)) /\
   parse_lines st (String "p" v :: rest) =
   parse_lines (process_opened st (VStr v)) rest) /\
  (isdigit v = true -> all_chars is_ascii_digit v = false ->
   parse_lines st (String "p" v :: rest) = Raise ValueError).
Proof.
  split.
  - intros Hd.
    assert (Hline : parse_line st (String "p" v) = Ok (process_opened st (VStr v))).
    { unfold parse_line. now rewrite (read_line_text _ _ Hd). }
    split; [assumption|]. simpl parse_lines. now rewrite Hline.
  - intros Hd Hint. simpl parse_lines. unfold parse_line. simpl read_line.
    rewrite Hd. unfold int_of_str. now rewrite Hint.
Qed.

Lemma text_pid_is_kept_witness :
  (parse_line parse_init "pabc" = Ok (process_opened parse_init (VStr "abc")) /\
   parse_lines parse_init ["pabc"; "R1"] =
   parse_lines (process_opened parse_init (VStr "abc")) ["R1"]) /\
  parse_lines parse_init [superscript_pid_line; "R1"] = Raise ValueError.
Proof.
  split.
  - apply (proj1 (text_pid_is_kept parse_init "abc" ["R1"])). reflexivity.
  - apply (proj2 (text_pid_is_kept parse_init (String "178" EmptyString) ["R1"]));
      reflexivity.
Defined.

(** Against C7 as stated: the value of the process-start line is not a
    number, and the program runs to its end with a node for it. *)
Lemma text_pid_does_not_fail :
  isdigit "abc" = false /\
  main_statements text_pid_lines =
  Ok ([mk_node (VStr "abc") "None\nabc root" "grey70"], []).
Proof. vm_compute. split; reflexivity. Qed.

Lemma parse_attr_lines (attrs : list string) : forall st pid,
  st_file_info st = [] ->
  st_fields st = Some (TProc pid) ->
  forallb is_attr_line attrs = true ->
  exists st', parse_lines st attrs = Ok st' /\ st_file_info st' = [].
Proof.
  induction attrs as [|line rest IH]; simpl; intros st pid Hfi Hf Hall.
  - now exists st.
  - apply andb_true_iff in Hall. destruct Hall as [Hline Hrest].
    unfold is_attr_line in Hline. unfold parse_line.
    destruct (read_line line) as [[field v]|e]; [|discriminate].
    unfold is_attr in Hline.
    apply andb_true_iff in Hline. destruct Hline as [Hp Hf'].
    apply negb_true_iff in Hp, Hf'. simpl. unfold parse_field.
    rewrite Hp, Hf', Hf. simpl.
    apply (IH _ pid); [assumption | assumption | assumption].
Qed.

Lemma dot_statements_empty proc_info :
  dot_statements proc_info [] [] [] [] [] [] = Ok ([], []).
Proof. reflexivity. Qed.

(** C9 (amended).  For an input that describes exactly one process, pid
    10, through any attribute lines, and no descriptor at all, the program
    emits no node statement and no edge statement: nodes are made for the
    process ids of the descriptor table. *)
Theorem lone_process_no_node (attrs : list string) :
  forallb is_attr_line attrs = true ->
  main_statements ("p10" :: attrs) = Ok ([], []).
Proof.
  intros Hall. unfold main_statements, parse_lsof.
  replace (parse_lines parse_init ("p10" :: attrs))
    with (parse_lines (process_opened parse_init (VInt 10)) attrs)
    by reflexivity.
  destruct (parse_attr_lines attrs (process_opened parse_init (VInt 10))
              (VInt 10) eq_refl eq_refl Hall) as [st' [Hp Hfi]].
  rewrite Hp. simpl. rewrite Hfi. reflexivity.
Qed.

Lemma lone_process_no_node_witness :
  main_statements ("p10" :: ["R1"; "Lroot"; "cinit"]) = Ok ([], []).
Proof. apply (lone_process_no_node ["R1"; "Lroot"; "cinit"]). reflexivity. Defined.

(** With one descriptor record the node of process 10 is there. *)
Example lone_process_with_descriptor :
  main_statements (lone_process_lines ++ ["fcwd"; "tDIR"]) =
  Ok ([mk_node (VInt 10) "init\n10 root" "grey70"], []).
Proof. vm_compute. reflexivity. Qed.

(** Against C9 as stated: one process, pid 10, parent 1, no descriptor; the
    output has no node statement at all. *)
Lemma lone_process_has_no_node :
  main_statements lone_process_lines = Ok ([], []) /\
  main lone_process_lines = Ok (render [] []).
Proof. vm_compute. split; reflexivity. Qed.

(* ================================================================= *)
(** * Kernel threads *)

Lemma find_kernel_threads_In file_info pid :
  In pid (find_kernel_threads file_info) <->
  exists fd_fields fd fds,
    In (pid, fd_fields) file_info /\ In (fd, fds) fd_fields /\
    is_kernel_txt fd fds = true.
Proof.
  unfold find_kernel_threads. rewrite in_flat_map. split.
  - intros [[pid0 fdf] [Hin Hfm]]. apply in_flat_map in Hfm.
    destruct Hfm as [[fd fds] [Hfd Hk]]. simpl in Hk.
    destruct (is_kernel_txt fd fds) eqn:Hkt; [|contradiction].
    destruct Hk as [<-|[]]. now exists fdf, fd, fds.
  - intros [fdf [fd [fds [Hin [Hfd Hk]]]]]. exists (pid, fdf). split; [assumption|].
    apply in_flat_map. exists (fd, fds). split; [assumption|].
    simpl. rewrite Hk. now left.
Qed.

Lemma drop_kernel_threads_In file_info pid fd_fields :
  In (pid, fd_fields) (drop_kernel_threads file_info) <->
  In (pid, fd_fields) file_info /\ ~ In pid (find_kernel_threads file_info).
Proof.
  unfold drop_kernel_threads. rewrite filter_In. simpl.
  now rewrite negb_true_iff, mem_false.
Qed.

Lemma drop_kernel_threads_keys file_info pid :
  In pid (dkeys (drop_kernel_threads file_info)) ->
  ~ In pid (find_kernel_threads file_info).
Proof.
  intros Hin. apply (dkeys_In (drop_kernel_threads file_info)) in Hin.
  destruct Hin as [fdf Hin]. now apply drop_kernel_threads_In in Hin.
Qed.

Lemma holds_In_dkeys file_info pid c key :
  holds file_info pid c key -> In pid (dkeys file_info).
Proof. intros [fdf [fd [fds [Hin _]]]]. exact (In_dkeys _ _ _ Hin). Qed.

(** C4.  A process id that has a 'txt' descriptor of type "unknown" gets no
    node statement, is a participant of no key in any partition, and is an
    end of no edge drawn for a channel, whatever the other processes
    hold. *)
Theorem kernel_thread_excluded (lines : list string) (proc_info : proc_table)
    (file_info : file_table) (pid : value) (fd_fields : fd_table) (fds : fields) :
  parse_lsof lines = Ok (proc_info, file_info) ->
  In (pid, fd_fields) file_info ->
  In (VStr "txt", fds) fd_fields ->
  dget fds "t"%char = Some (VStr "unknown") ->
  ~ In pid (dkeys (drop_kernel_threads file_info)) /\
  (forall l, find_links (drop_kernel_threads file_info) = Ok l ->
     pipe l = [] /\
     forall c key pids, In (key, pids) (chan_part c l) -> ~ In pid (dkeys pids)) /\
  (forall nodes edges, main_statements lines = Ok (nodes, edges) ->
     (forall n, In n nodes -> node_pid n <> pid) /\
     (forall e, In e edges -> is_link e -> edge_a e <> pid /\ edge_b e <> pid)).
Proof.
  intros Hparse Hin Htxt Ht.
  assert (Hk : In pid (find_kernel_threads file_info)).
  { apply find_kernel_threads_In. exists fd_fields, (VStr "txt"), fds.
    repeat split; try assumption. unfold is_kernel_txt, get. now rewrite Ht. }
  assert (Hdrop : ~ In pid (dkeys (drop_kernel_threads file_info))).
  { intros Hd. now apply drop_kernel_threads_keys in Hd. }
  assert (Hparts : forall l, find_links (drop_kernel_threads file_info) = Ok l ->
            pipe l = [] /\
            forall c key pids, In (key, pids) (chan_part c l) -> ~ In pid (dkeys pids)).
  { intros l Hl. destruct (find_links_wf _ _ Hl) as [Hwf Hpipe].
    split; [assumption|]. intros c key pids Hkey Hp.
    destruct (wf_part_entry _ _ _ (Hwf c) Hkey) as [Hget _].
    apply Hdrop. apply (holds_In_dkeys _ _ c key).
    apply (find_links_member _ _ _ _ _ Hl). unfold member. now rewrite Hget. }
  split; [assumption|]. split; [assumption|].
  intros nodes edges Hmain. unfold main_statements in Hmain.
  rewrite Hparse in Hmain. cbn [bind fst snd] in Hmain.
  destruct (find_links (drop_kernel_threads file_info)) as [l|e] eqn:Hl;
    cbn [bind] in Hmain; [|discriminate].
  apply dot_statements_Ok in Hmain. destruct Hmain as [edges0 [Hpids Hconns]].
  destruct (dot_pids_nodes _ _ _ _ Hpids) as [Hnodes Hanc].
  destruct (Hparts l eq_refl) as [_ Hno]. split.
  - intros n Hn Heq. apply Hdrop. rewrite <- Hnodes, <- Heq. now apply in_map.
  - intros e He Hlink. apply (dot_conns_In _ _ _ e Hconns) in He.
    destruct He as [He|[part [p [key [pids [new [Hc [Hkey [Hnew He]]]]]]]]].
    + exfalso. apply Hlink. now apply Hanc.
    + rewrite conn_props_chan in Hc. apply in_map_iff in Hc.
      destruct Hc as [c [Heq _]]. injection Heq as <- <-.
      destruct (dot_key_edge _ _ _ _ _ Hnew He) as [_ [Hkeys _]].
      specialize (Hno c key pids Hkey). rewrite Hkeys in Hno.
      split; intros Heq; apply Hno; rewrite <- Heq; [now left | right; now left].
Qed.

Lemma kernel_thread_excluded_witness :
  ~ In (VInt 2) (dkeys (drop_kernel_threads (snd kernel_thread_tables))) /\
  (pipe kernel_thread_links = [] /\
   forall c key pids, In (key, pids) (chan_part c kernel_thread_links) ->
                      ~ In (VInt 2) (dkeys pids)) /\
  (forall n, In n [mk_node (VInt 10) "init\n10 root" "grey70";
                   mk_node (VInt 20) "sh\n20 bob" "white"] ->
             node_pid n <> VInt 2) /\
  (forall e, In e [mk_edge (VInt 10) (VInt 20) "" 2 100 "gray60" "none";
                   mk_edge (VInt 10) (VInt 20) "unix:\n7" 1 10 "purple" "both"] ->
             is_link e -> edge_a e <> VInt 2 /\ edge_b e <> VInt 2).
Proof.
  destruct (kernel_thread_excluded kernel_thread_lines
              (fst kernel_thread_tables) (snd kernel_thread_tables) (VInt 2)
              [(VStr "txt", [("t"%char, VStr "unknown")]);
               (VInt 3, [("a"%char, VStr "u"); ("t"%char, VStr "unix");
                         ("i"%char, VInt 7)])]
              [("t"%char, VStr "unknown")])
    as [Hnode [Hparts Hmain]].
  - vm_compute. reflexivity.
  - left. reflexivity.
  - left. reflexivity.
  - reflexivity.
  - split; [exact Hnode|]. split.
    + apply Hparts. vm_compute. reflexivity.
    + apply Hmain. vm_compute. reflexivity.
Defined.

(** The program on that input: the kernel thread is a third holder of
    unix inode 7, and the link between processes 10 and 20 is drawn. *)
Example kernel_thread_run :
  main_statements kernel_thread_lines =
  Ok ([mk_node (VInt 10) "init\n10 root" "grey70";
       mk_node (VInt 20) "sh\n20 bob" "white"],
      [mk_edge (VInt 10) (VInt 20) "" 2 100 "gray60" "none";
       mk_edge (VInt 10) (VInt 20) "unix:\n7" 1 10 "purple" "both"]).
Proof. vm_compute. reflexivity. Qed.

(* ================================================================= *)
(** * The key of a network connection *)






Lemma is_ip_type fds :
  is_ip fds ->
  exists ty, dget fds "t"%char = Some ty /\
             value_eqb ty (VStr "unix") = false /\
             value_eqb ty (VStr "FIFO") = false /\
             value_eqb ty (VStr "IPv4") || value_eqb ty (VStr "IPv6") = true.
Proof.
  intros [Ht|Ht]; [exists (VStr "IPv4") | exists (VStr "IPv6")];
    (split; [assumption | repeat split]).
Qed.





(** The program on the two ends of the connection: one red edge. *)
Example two_tcp_run :
  main_statements two_tcp_lines =
  Ok ([mk_node (VInt 10) "srv\n10 root" "grey70";
       mk_node (VInt 20) "cli\n20 bob" "grey70"],
      [mk_edge (VInt 10) (VInt 20) "tcp:\nA:80\nB:1234" 1 10 "red" "both"]).
Proof. vm_compute. reflexivity. Qed.

(* ================================================================= *)
(** * The order of the lines *)

(** ** One line *)

Lemma target_eqb_eq (a b : target) : target_eqb a b = true <-> a = b.
Proof.
  destruct a as [p|p f], b as [q|q g]; simpl; try (split; discriminate).
  - rewrite value_eqb_eq. split; congruence.
  - rewrite andb_true_iff, !value_eqb_eq. split; [intros [-> ->] | intros [= -> ->]]; auto.
Qed.

Lemma pattr_dtouch proc_info pid q x :
  pattr (dtouch [] proc_info pid) q x = pattr proc_info q x.
Proof. unfold pattr. now rewrite dget_default_dtouch. Qed.

Lemma pattr_store proc_info pid field v q x :
  pattr (dset proc_info pid (dset (dget_default [] proc_info pid) field v)) q x =
  if value_eqb pid q && Ascii.eqb field x then Some v else pattr proc_info q x.
Proof.
  unfold pattr. destruct (value_eqb_spec pid q) as [->|Hq]; simpl.
  - rewrite dget_default_dset_same.
    destruct (Ascii.eqb_spec field x) as [->|Hx].
    + apply dget_dset_same.
    + now apply dget_dset_other.
  - now rewrite dget_default_dset_other.
Qed.

Lemma fattr_open_file file_info pid v q fd x :
  fattr (open_file file_info pid v) q fd x = fattr file_info q fd x.
Proof.
  unfold fattr, open_file. destruct (value_eqb_spec pid q) as [->|Hq].
  - now rewrite dget_default_dset_same, dget_default_dtouch.
  - now rewrite dget_default_dset_other.
Qed.

Lemma fattr_store file_info pid fd field v q fd' x :
  fattr (dset file_info pid
           (dset (dget_default [] file_info pid) fd
              (dset (dget_default [] (dget_default [] file_info pid) fd) field v)))
    q fd' x =
  if value_eqb pid q && value_eqb fd fd' && Ascii.eqb field x then Some v
  else fattr file_info q fd' x.
Proof.
  unfold fattr. destruct (value_eqb_spec pid q) as [->|Hq]; simpl.
  - rewrite dget_default_dset_same.
    destruct (value_eqb_spec fd fd') as [->|Hfd]; simpl.
    + rewrite dget_default_dset_same.
      destruct (Ascii.eqb_spec field x) as [->|Hx].
      * apply dget_dset_same.
      * now apply dget_dset_other.
    + now rewrite dget_default_dset_other.
  - now rewrite dget_default_dset_other.
Qed.

Lemma fhas_dset file_info pid fdf q fd :
  fhas (dset file_info pid fdf) q fd <->
  (q = pid /\ In fd (dkeys fdf)) \/ (q <> pid /\ fhas file_info q fd).
Proof.
  unfold fhas. destruct (value_eqb_spec pid q) as [->|Hq].
  - rewrite dget_default_dset_same. intuition.
  - rewrite dget_default_dset_other by assumption. intuition congruence.
Qed.

Lemma wf_files_dset file_info pid fdf :
  wf_files file_info -> NoDup (dkeys fdf) -> wf_files (dset file_info pid fdf).
Proof.
  intros [Hnd Hall] Hfdf. split; [now apply NoDup_dset|].
  intros q. destruct (value_eqb_spec pid q) as [->|Hq].
  - now rewrite dget_default_dset_same.
  - rewrite dget_default_dset_other by assumption. apply Hall.
Qed.

(** What processing one decoded line does to the lookups. *)
Lemma parse_field_step st field v st' :
  parse_field st field v = Ok st' ->
  exists t,
    st_fields st' = Some t /\
    (forall q x,
       pattr (st_proc_info st') q x =
       if sets (t, field, v) (TProc q) x then Some v
       else pattr (st_proc_info st) q x) /\
    (forall q fd x,
       fattr (st_file_info st') q fd x =
       if sets (t, field, v) (TFile q fd) x then Some v
       else fattr (st_file_info st) q fd x) /\
    (forall q, In q (dkeys (st_file_info st')) <->
               In q (dkeys (st_file_info st)) \/ exists fd, t = TFile q fd) /\
    (forall q fd, fhas (st_file_info st') q fd <->
                  fhas (st_file_info st) q fd \/ t = TFile q fd) /\
    (wf_files (st_file_info st) -> wf_files (st_file_info st')).
Proof.
  unfold parse_field, sets. cbn [fst snd].
  destruct (Ascii.eqb_spec field "p") as [->|Hp].
  { intros [= <-]. exists (TProc v). cbn [st_fields st_proc_info st_file_info].
    split; [reflexivity|]. split; [|split; [|split; [|split]]].
    - intros q x. apply pattr_dtouch.
    - reflexivity.
    - intros q. split; [now left | intros [?|[fd [=]]]; assumption].
    - intros q fd. split; [now left | intros [?|[=]]; assumption].
    - trivial. }
  destruct (Ascii.eqb_spec field "f") as [->|Hf].
  { destruct (st_current_pid st) as [pid|]; [|discriminate].
    intros [= <-]. exists (TFile pid v). cbn [st_fields st_proc_info st_file_info].
    split; [reflexivity|]. split; [|split; [|split; [|split]]].
    - reflexivity.
    - intros q fd x. apply fattr_open_file.
    - intros q. unfold open_file. rewrite dkeys_dset. split.
      + intros [->|?]; [right; now exists v | now left].
      + intros [?|[fd [= -> _]]]; [now right | now left].
    - intros q fd. unfold open_file. rewrite fhas_dset, dkeys_dtouch. split.
      + intros [[-> [->|Hin]]|[Hne Hin]]; [now right | now left | now left].
      + intros [Hin|[= -> ->]].
        * destruct (value_eq_dec q pid) as [->|Hne]; [left | right]; auto.
        * left. auto.
    - intros Hwf. apply wf_files_dset; [assumption|].
      apply NoDup_dtouch. apply Hwf. }
  assert (Hattr : is_attr field = true).
  { unfold is_attr. apply Ascii.eqb_neq in Hp, Hf. now rewrite Hp, Hf. }
  rewrite Hattr.
  destruct (st_fields st) as [[pid|pid fd]|] eqn:Hfields; [| |discriminate].
  - intros [= <-]. exists (TProc pid). cbn [store st_fields st_proc_info st_file_info].
    split; [assumption|]. split; [|split; [|split; [|split]]].
    + intros q x. cbn [target_eqb andb]. apply pattr_store.
    + reflexivity.
    + intros q. split; [now left | intros [?|[fd [=]]]; assumption].
    + intros q fd. split; [now left | intros [?|[=]]; assumption].
    + trivial.
  - intros [= <-]. exists (TFile pid fd). cbn [store st_fields st_proc_info st_file_info].
    split; [assumption|]. split; [|split; [|split; [|split]]].
    + reflexivity.
    + intros q fd' x. cbn [target_eqb andb]. apply fattr_store.
    + intros q. rewrite dkeys_dset. split.
      * intros [->|?]; [right; now exists fd | now left].
      * intros [?|[fd' [= -> _]]]; [now right | now left].
    + intros q fd'. rewrite fhas_dset, dkeys_dset. split.
      * intros [[-> [->|Hin]]|[Hne Hin]]; [now right | now left | now left].
      * intros [Hin|[= -> ->]].
        -- destruct (value_eq_dec q pid) as [->|Hne]; [left | right]; auto.
        -- left. auto.
    + intros Hwf. apply wf_files_dset; [assumption|].
      apply NoDup_dset. apply Hwf.
Qed.

(** ** All the lines *)






Lemma wf_files_nil : wf_files [].
Proof. split; [constructor | intros pid; constructor]. Qed.


(** ** The tables of two orders *)










(** ** The statements of two orders *)

Lemma dot_pids_In proc_info pids nodes edges :
  dot_pids proc_info pids ([], []) = Ok (nodes, edges) ->
  (forall n, In n nodes <->
             exists pid r, In pid pids /\
                           dot_pid proc_info pid ([], []) = Ok r /\ In n (fst r)) /\
  (forall e, In e edges <->
             exists pid r, In pid pids /\
                           dot_pid proc_info pid ([], []) = Ok r /\ In e (snd r)).
Proof.
  intros Hd. apply dot_pids_Ok in Hd. destruct Hd as [rs [HF Heq]].
  simpl in Heq. injection Heq as -> ->.
  induction HF as [|pid r rest rs Hr HF [IHn IHe]]; simpl.
  - split; intros x; (split; [contradiction | intros [? [? [[] _]]]]).
  - split; intros x; rewrite in_app_iff; [rewrite IHn | rewrite IHe]; split.
    + intros [Hin|[q [r' [Hq Hr']]]].
      * exists pid, r. split; [now left | now split].
      * exists q, r'. split; [now right | assumption].
    + intros [q [r' [[<-|Hq] [Hr' Hin]]]].
      * left. congruence.
      * right. now exists q, r'.
    + intros [Hin|[q [r' [Hq Hr']]]].
      * exists pid, r. split; [now left | now split].
      * exists q, r'. split; [now right | assumption].
    + intros [q [r' [[<-|Hq] [Hr' Hin]]]].
      * left. congruence.
      * right. now exists q, r'.
Qed.





(** ** Completion in two orders *)



Lemma dot_pids_each proc_info pids acc' :
  dot_pids proc_info pids ([], []) = Ok acc' ->
  forall pid, In pid pids -> exists r, dot_pid proc_info pid ([], []) = Ok r.
Proof.
  intros Hd. apply dot_pids_Ok in Hd. destruct Hd as [rs [HF _]].
  induction HF as [|pid r rest rs Hr HF IH]; intros q Hq; [contradiction|].
  destruct Hq as [<-|Hq]; [now exists r | now apply IH].
Qed.

Lemma dot_pids_total proc_info pids : forall acc,
  (forall pid, In pid pids -> exists r, dot_pid proc_info pid ([], []) = Ok r) ->
  exists acc', dot_pids proc_info pids acc = Ok acc'.
Proof.
  induction pids as [|pid rest IH]; simpl; intros acc Hall.
  - now exists acc.
  - rewrite dot_pid_acc. destruct (Hall pid (or_introl eq_refl)) as [r Hr].
    rewrite Hr. cbn [bind]. apply IH. intros q Hq. apply Hall. now right.
Qed.

(** The loops over the keys stop only on the access mode of a first
    participant. *)
Lemma dot_key_stops p key pids edges :
  (exists edges', dot_key p key pids edges = Ok edges') \/
  dot_key p key pids edges = Raise (KeyError "a").
Proof.
  destruct (Nat.eq_dec (List.length pids) 2) as [Hlen|Hlen].
  - destruct pids as [|[src f1] [|[dst f2] [|]]]; try discriminate.
    rewrite (dot_key_two _ _ _ _ src dst) by reflexivity. unfold subscript.
    destruct (dget _ "a"%char); cbn [bind]; [left; eexists; reflexivity | now right].
  - rewrite dot_key_other by assumption. left. now exists edges.
Qed.

Lemma dot_keys_stops p fd_pids : forall edges,
  (exists edges', dot_keys p fd_pids edges = Ok edges') \/
  dot_keys p fd_pids edges = Raise (KeyError "a").
Proof.
  induction fd_pids as [|[key pids] rest IH]; simpl; intros edges.
  - left. now exists edges.
  - destruct (dot_key_stops p key pids edges) as [[edges1 ->]| ->]; cbn [bind].
    + apply IH.
    + now right.
Qed.

Lemma dot_conns_stops conns : forall edges,
  (exists edges', dot_conns conns edges = Ok edges') \/
  dot_conns conns edges = Raise (KeyError "a").
Proof.
  induction conns as [|[part p] rest IH]; simpl; intros edges.
  - left. now exists edges.
  - destruct (dot_keys_stops p part edges) as [[edges1 ->]| ->]; cbn [bind].
    + apply IH.
    + now right.
Qed.








(** Whether the program completes depends on the order too: the emitter
    asks the first participant for its access mode. *)
Example completion_depends_on_order :
  main_statements no_access_lines = Raise (KeyError "a") /\
  main_statements no_access_swapped_lines =
  Ok ([mk_node (VInt 20) "sh\n20 bob" "white";
       mk_node (VInt 10) "init\n10 root" "grey70"],
      [mk_edge (VInt 10) (VInt 20) "" 2 100 "gray60" "none";
       mk_edge (VInt 20) (VInt 10) "unix:\n12345" 1 10 "purple" "forward"]).
Proof. vm_compute. split; reflexivity. Qed.

(** A field given twice to one record keeps its last value: exchanging the
    two lines changes the node. *)
Example last_value_wins :
  main_statements ["p10"; "R1"; "Lroot"; "cfoo"; "cbar"; "f3"; "tREG"] =
  Ok ([mk_node (VInt 10) "bar\n10 root" "grey70"], []) /\
  main_statements ["p10"; "R1"; "Lroot"; "cbar"; "cfoo"; "f3"; "tREG"] =
  Ok ([mk_node (VInt 10) "foo\n10 root" "grey70"], []).
Proof. vm_compute. split; reflexivity. Qed.


(* ================================================================= *)
(** * Further properties of the code *)

(** ** Numbers read and printed *)

Lemma all_chars_weaken (p q : ascii -> bool) (s : string) :
  (forall c, p c = true -> q c = true) ->
  all_chars p s = true -> all_chars q s = true.
Proof.
  intros Hpq. induction s as [|c s IH]; simpl; [reflexivity|].
  rewrite !andb_true_iff. intros [Hc Hs]. split; [now apply Hpq | now apply IH].
Qed.

Lemma ascii_digit_is_digit (c : ascii) :
  is_ascii_digit c = true -> is_digit_char c = true.
Proof. unfold is_digit_char. now intros ->. Qed.

Lemma isdigit_ascii (s : string) :
  s <> EmptyString -> all_chars is_ascii_digit s = true -> isdigit s = true.
Proof.
  intros Hne Hall. destruct s as [|c s]; [contradiction|].
  unfold isdigit. exact (all_chars_weaken _ _ _ ascii_digit_is_digit Hall).
Qed.

Lemma uint_all_digits (d : Decimal.uint) :
  all_chars is_ascii_digit (NilEmpty.string_of_uint d) = true.
Proof. induction d; simpl; auto. Qed.

Lemma digits_of_uint_acc (d : Decimal.uint) : forall acc,
  digits_value (Z.pos acc) (NilEmpty.string_of_uint d)
  = Z.pos (Pos.of_uint_acc d acc).
Proof.
  induction d; intros acc; cbn [NilEmpty.string_of_uint digits_value Pos.of_uint_acc];
    try reflexivity;
    rewrite <- IHd; f_equal;
    match goal with
    | |- context [Z.of_nat (nat_of_ascii ?c)] =>
        let v := eval vm_compute in (Z.of_nat (nat_of_ascii c)) in
        change (Z.of_nat (nat_of_ascii c)) with v
    end; lia.
Qed.

Lemma digits_of_uint (d : Decimal.uint) :
  digits_value 0 (NilEmpty.string_of_uint d) = Z.of_N (Pos.of_uint d).
Proof.
  induction d; cbn [NilEmpty.string_of_uint digits_value Pos.of_uint];
    try reflexivity;
    try (rewrite <- IHd; f_equal; reflexivity);
    cbn [Z.of_N]; rewrite <- digits_of_uint_acc; f_equal.
Qed.

Lemma uint_string_nonempty (d : Decimal.uint) :
  d <> Decimal.Nil -> NilEmpty.string_of_uint d <> EmptyString.
Proof. destruct d; simpl; congruence. Qed.

(** The decimal text of a natural number: digits only, and its value. *)
Lemma str_int_digits (z : Z) :
  (0 <= z)%Z ->
  str (VInt z) <> EmptyString /\
  all_chars is_ascii_digit (str (VInt z)) = true /\
  digits_value 0 (str (VInt z)) = z.
Proof.
  intros Hz. destruct z as [|p|p]; [| |lia].
  - repeat split. discriminate.
  - cbn [str Z.to_int NilZero.string_of_int]. unfold NilZero.string_of_uint.
    pose proof (Unsigned.to_uint_nonnil p) as Hnil.
    destruct (Pos.to_uint p) eqn:Hd; [contradiction| | | | | | | | | | ];
      rewrite <- Hd; (split; [apply uint_string_nonempty; congruence|]);
      (split; [apply uint_all_digits|]);
      rewrite digits_of_uint, Unsigned.of_to; reflexivity.
Qed.

Lemma digits_value_nonneg (s : string) : forall acc,
  (0 <= acc)%Z -> all_chars is_ascii_digit s = true ->
  (0 <= digits_value acc s)%Z.
Proof.
  induction s as [|c s IH]; cbn [digits_value all_chars]; intros acc Hacc Hall;
    [assumption|].
  apply andb_true_iff in Hall. destruct Hall as [Hc Hs].
  apply IH; [|assumption]. unfold is_ascii_digit in Hc. cbv zeta in Hc.
  apply andb_true_iff in Hc. destruct Hc as [Hlo _].
  apply Nat.leb_le in Hlo. lia.
Qed.

Lemma digits_value_lower (s : string) : forall acc,
  (0 <= acc)%Z -> all_chars is_ascii_digit s = true ->
  (acc * 10 ^ Z.of_nat (String.length s) <= digits_value acc s)%Z.
Proof.
  induction s as [|c s IH]; cbn [digits_value all_chars String.length];
    intros acc Hacc Hall.
  - change (Z.of_nat 0) with 0%Z. lia.
  - apply andb_true_iff in Hall. destruct Hall as [Hc Hs].
    unfold is_ascii_digit in Hc. cbv zeta in Hc.
    apply andb_true_iff in Hc. destruct Hc as [Hlo _]. apply Nat.leb_le in Hlo.
    rewrite Nat2Z.inj_succ, Z.pow_succ_r by lia.
    assert (Hp : (0 <= 10 ^ Z.of_nat (String.length s))%Z)
      by (apply Z.pow_nonneg; lia).
    specialize (IH (10 * acc + (Z.of_nat (nat_of_ascii c) - 48))%Z
                  ltac:(lia) Hs).
    nia.
Qed.

Lemma to_uint_no_leading_zero (p : positive) (d : Decimal.uint) :
  Pos.to_uint p <> Decimal.D0 d.
Proof.
  intros Hd.
  pose proof (DecimalPos.Unsigned.of_to p) as Hof. rewrite Hd in Hof.
  change (Pos.of_uint (Decimal.D0 d)) with (Pos.of_uint d) in Hof.
  pose proof (DecimalPos.Unsigned.to_of d) as Hto. rewrite Hof in Hto.
  change (N.to_uint (N.pos p)) with (Pos.to_uint p) in Hto. rewrite Hd in Hto.
  destruct d as [|d|d|d|d|d|d|d|d|d|d]; [discriminate| | | | | | | | | | ];
    match type of Hto with
    | _ = Decimal.unorm ?u =>
        pose proof (DecimalFacts.nb_digits_unorm u ltac:(discriminate)) as Hn
    end;
    rewrite <- Hto in Hn; simpl in Hn; lia.
Qed.

(** The decimal text of a natural number below [10 ^ n] has at most [n]
    digits. *)
Lemma str_int_length (z n : Z) :
  (0 <= z < 10 ^ n)%Z -> (0 < n)%Z ->
  (Z.of_nat (String.length (str (VInt z))) <= n)%Z.
Proof.
  intros [Hz Hlt] Hn. destruct z as [|p|p]; [cbn; lia| |lia].
  destruct (str_int_digits (Z.pos p) Hz) as [_ [Hall Hval]].
  revert Hall Hval.
  cbn [str Z.to_int NilZero.string_of_int]. unfold NilZero.string_of_uint.
  pose proof (Unsigned.to_uint_nonnil p) as Hnil.
  pose proof (to_uint_no_leading_zero p) as Hnz.
  destruct (Pos.to_uint p) as [|d|d|d|d|d|d|d|d|d|d];
    [contradiction | now exfalso; apply (Hnz d) | | | | | | | | | ];
    cbn [NilEmpty.string_of_uint all_chars digits_value String.length];
    intros Hall Hval; apply andb_true_iff in Hall; destruct Hall as [_ Hall];
    match type of Hval with
    | digits_value ?a _ = _ =>
        let v := eval vm_compute in a in change a with v in Hval;
        pose proof (digits_value_lower _ v ltac:(lia) Hall) as Hlow
    end;
    rewrite Hval in Hlow; rewrite Nat2Z.inj_succ;
    assert (Hpow : (10 ^ Z.of_nat (String.length (NilEmpty.string_of_uint d))
                    < 10 ^ n)%Z)
      by (assert (0 < 10 ^ Z.of_nat (String.length (NilEmpty.string_of_uint d)))%Z
            by (apply Z.pow_pos_nonneg; lia); nia);
    apply Z.pow_lt_mono_r_iff in Hpow; lia.
Qed.

(** X1.  A natural number of at most 4300 decimal digits, printed in
    decimal as the node and edge templates print a pid, is read back by
    the parser as that number; and a zero in front of a digit string of
    fewer than 4300 characters does not change what is read. *)
Theorem decimal_round_trip (field : ascii) (z : Z) :
  (0 <= z < 10 ^ max_str_digits)%Z ->
  read_line (String field (str (VInt z))) = Ok (field, VInt z) /\
  (forall s, isdigit s = true ->
             (Z.of_nat (String.length s) < max_str_digits)%Z ->
             read_line (String field (String "0" s)) = read_line (String field s)).
Proof.
  intros Hz. destruct (str_int_digits z (proj1 Hz)) as [Hne [Hall Hval]].
  pose proof (str_int_length z max_str_digits Hz eq_refl) as Hlen. split.
  - cbn [read_line]. rewrite (isdigit_ascii _ Hne Hall).
    unfold int_of_str. rewrite Hall.
    apply Z.leb_le in Hlen. rewrite Hlen. cbn [andb bind]. now rewrite Hval.
  - intros s Hs Hls. cbn [read_line].
    assert (H0 : isdigit (String "0" s) = true).
    { destruct s as [|c s]; [discriminate|]. exact Hs. }
    rewrite H0, Hs. unfold int_of_str. cbn [all_chars String.length].
    change (is_ascii_digit "0") with true. cbn [andb].
    assert (H1 : (Z.of_nat (S (String.length s)) <=? max_str_digits)%Z = true)
      by (apply Z.leb_le; lia).
    assert (H2 : (Z.of_nat (String.length s) <=? max_str_digits)%Z = true)
      by (apply Z.leb_le; lia).
    rewrite H1, H2.
    destruct (all_chars is_ascii_digit s); reflexivity.
Qed.

Lemma decimal_round_trip_witness :
  read_line (String "p" (str (VInt 1234))) = Ok ("p"%char, VInt 1234) /\
  (forall s, isdigit s = true ->
             (Z.of_nat (String.length s) < max_str_digits)%Z ->
             read_line (String "p" (String "0" s)) = read_line (String "p" s)).
Proof.
  apply (decimal_round_trip "p" 1234).
  split; [discriminate | vm_compute; reflexivity].
Defined.

Lemma read_line_value (line : string) (field : ascii) (v : value) :
  read_line line = Ok (field, v) ->
  (exists z, v = VInt z /\ (0 <= z)%Z) \/
  (exists s, v = VStr s /\ isdigit s = false).
Proof.
  destruct line as [|c s]; cbn [read_line]; [discriminate|].
  destruct (isdigit s) eqn:Hd.
  - unfold int_of_str. destruct (all_chars is_ascii_digit s) eqn:Hall;
      cbn [andb bind]; [|discriminate].
    destruct (Z.of_nat (String.length s) <=? max_str_digits)%Z;
      cbn [bind]; [|discriminate].
    intros [= _ <-]. left. eexists. split; [reflexivity|].
    now apply digits_value_nonneg.
  - intros [= _ <-]. right. now exists s.
Qed.

(** X2.  Two different values read by the parser are printed differently:
    process ids that differ get node identifiers that differ. *)
Theorem node_ids_distinct (l1 l2 : string) (f1 f2 : ascii) (v w : value) :
  read_line l1 = Ok (f1, v) ->
  read_line l2 = Ok (f2, w) ->
  str v = str w ->
  v = w.
Proof.
  intros H1 H2 Heq.
  destruct (read_line_value _ _ _ H1) as [[z [-> Hz]]|[s [-> Hs]]];
    destruct (read_line_value _ _ _ H2) as [[z' [-> Hz']]|[s' [-> Hs']]].
  - destruct (str_int_digits z Hz) as [_ [_ Hv]].
    destruct (str_int_digits z' Hz') as [_ [_ Hv']].
    rewrite <- Hv, <- Hv', Heq. reflexivity.
  - exfalso. destruct (str_int_digits z Hz) as [Hne [Hall _]].
    rewrite Heq in Hne, Hall. cbn [str] in Hne, Hall.
    rewrite (isdigit_ascii _ Hne Hall) in Hs'. discriminate.
  - exfalso. destruct (str_int_digits z' Hz') as [Hne [Hall _]].
    rewrite <- Heq in Hne, Hall. cbn [str] in Hne, Hall.
    rewrite (isdigit_ascii _ Hne Hall) in Hs. discriminate.
  - cbn [str] in Heq. now subst.
Qed.

Lemma node_ids_distinct_witness : VInt 7 = VInt 7.
Proof.
  apply (node_ids_distinct "p7" "p007" "p" "p"); reflexivity.
Defined.


(** ** When the parser completes *)

Lemma read_line_field (line : string) (field : ascii) (v : value) :
  read_line line = Ok (field, v) -> exists s, line = String field s.
Proof.
  destruct line as [|c s]; cbn [read_line]; [discriminate|].
  destruct (isdigit s).
  - destruct (int_of_str s); cbn [bind]; [|discriminate].
    intros [= -> _]. now exists s.
  - intros [= -> _]. now exists s.
Qed.

Lemma read_line_Raise (line : string) (e : exn) :
  read_line line = Raise e ->
  (line = EmptyString /\ e = IndexError) \/
  (exists c s, line = String c s /\ isdigit s = true /\
               (all_chars is_ascii_digit s = false \/
                (max_str_digits < Z.of_nat (String.length s))%Z) /\
               e = ValueError).
Proof.
  destruct line as [|c s]; cbn [read_line].
  - intros [= <-]. now left.
  - destruct (isdigit s) eqn:Hd; [|discriminate]. unfold int_of_str.
    destruct (all_chars is_ascii_digit s) eqn:Hall; cbn [andb bind].
    + destruct (Z.leb_spec (Z.of_nat (String.length s)) max_str_digits);
        cbn [bind]; [discriminate|].
      intros [= <-]. right. exists c, s. now repeat split; try right.
    + intros [= <-]. right. exists c, s. now repeat split; try left.
Qed.

Lemma readable_read_line (line : string) :
  readable line = true <-> exists fv, read_line line = Ok fv.
Proof.
  destruct line as [|c s]; cbn [readable read_line].
  - split; [discriminate | intros [fv Hfv]; discriminate].
  - unfold int_of_str. destruct (isdigit s); cbn [negb orb].
    + destruct (all_chars is_ascii_digit s
                && (Z.of_nat (String.length s) <=? max_str_digits)%Z);
        cbn [bind]; split; try discriminate.
      * intros _. eexists. reflexivity.
      * reflexivity.
      * intros [fv Hfv]. discriminate.
    + split; [intros _; eexists; reflexivity | reflexivity].
Qed.

Lemma parse_field_bound st field v :
  bound st -> exists st', parse_field st field v = Ok st' /\ bound st'.
Proof.
  intros [Hpid Hf]. unfold parse_field.
  destruct (Ascii.eqb field "p").
  { eexists. split; [reflexivity|]. split; discriminate. }
  destruct (Ascii.eqb field "f").
  { destruct (st_current_pid st) as [pid|] eqn:Hc; [|contradiction].
    eexists. split; [reflexivity|]. split; cbn; congruence. }
  destruct (st_fields st) as [t|] eqn:Ht; [|contradiction].
  eexists. split; [reflexivity|]. destruct t; split; cbn; congruence.
Qed.

Lemma parse_lines_bound lines : forall st,
  bound st -> forallb readable lines = true ->
  exists st', parse_lines st lines = Ok st' /\ bound st'.
Proof.
  induction lines as [|line rest IH]; cbn [parse_lines forallb]; intros st Hb Hall.
  - now exists st.
  - apply andb_true_iff in Hall. destruct Hall as [Hr Hrest].
    apply readable_read_line in Hr. destruct Hr as [[field v] Hr].
    unfold parse_line. rewrite Hr. cbn [bind fst snd].
    destruct (parse_field_bound st field v Hb) as [st1 [H1 Hb1]].
    rewrite H1. cbn [bind]. now apply IH.
Qed.

Lemma parse_lines_readable lines : forall st st',
  parse_lines st lines = Ok st' -> forallb readable lines = true.
Proof.
  induction lines as [|line rest IH]; cbn [parse_lines forallb]; intros st st' Hp;
    [reflexivity|].
  unfold parse_line in Hp.
  destruct (read_line line) as [fv|e] eqn:Hr; cbn [bind] in Hp; [|discriminate].
  destruct (parse_field st (fst fv) (snd fv)) as [st1|e]; cbn [bind] in Hp;
    [|discriminate].
  rewrite (proj2 (readable_read_line line)) by now exists fv.
  cbn [andb]. exact (IH _ _ Hp).
Qed.

Lemma parse_field_init field v :
  parse_field parse_init field v =
  if Ascii.eqb field "p" then Ok (process_opened parse_init v)
  else if Ascii.eqb field "f" then Raise (UnboundLocalError "current_pid")
  else Raise (UnboundLocalError "fields").
Proof. reflexivity. Qed.

(** X3.  The parser completes exactly on the inputs whose lines all have a
    first character and a value that is not made of digits or is made of
    at most 4300 decimal digits, and whose first line, if there is one,
    starts a process. *)
Theorem parse_completes_iff (lines : list string) :
  (exists tables, parse_lsof lines = Ok tables) <->
  forallb readable lines = true /\
  match lines with
  | [] => True
  | line :: _ => starts_process line = true
  end.
Proof.
  unfold parse_lsof. split.
  - intros [tables Hp].
    destruct (parse_lines parse_init lines) as [st|e] eqn:Hl; [|discriminate].
    split; [exact (parse_lines_readable _ _ _ Hl)|].
    destruct lines as [|line rest]; [trivial|].
    cbn [parse_lines] in Hl. unfold parse_line in Hl.
    destruct (read_line line) as [[field v]|e] eqn:Hr; cbn [bind fst snd] in Hl;
      [|discriminate].
    destruct (read_line_field _ _ _ Hr) as [s ->]. cbn [starts_process].
    rewrite parse_field_init in Hl.
    destruct (Ascii.eqb field "p"); [reflexivity|].
    destruct (Ascii.eqb field "f"); discriminate.
  - intros [Hall Hfirst]. destruct lines as [|line rest].
    + eexists. reflexivity.
    + cbn [forallb] in Hall. apply andb_true_iff in Hall. destruct Hall as [Hr Hrest].
      cbn [parse_lines]. unfold parse_line.
      apply readable_read_line in Hr. destruct Hr as [[field v] Hrl].
      rewrite Hrl.
      destruct (read_line_field _ _ _ Hrl) as [s ->]. cbn [starts_process] in Hfirst.
      cbn [bind fst snd]. rewrite parse_field_init, Hfirst. cbn [bind].
      destruct (parse_lines_bound rest (process_opened parse_init v)) as [st [Hp _]];
        [split; discriminate | assumption|].
      rewrite Hp. cbn [bind]. eexists. reflexivity.
Qed.

Lemma parse_completes_iff_witness :
  (exists tables, parse_lsof two_unix_lines = Ok tables) /\
  forallb readable two_unix_lines = true.
Proof.
  split.
  - apply (proj2 (parse_completes_iff two_unix_lines)).
    split; vm_compute; reflexivity.
  - apply (proj1 (parse_completes_iff two_unix_lines)).
    eexists. vm_compute. reflexivity.
Defined.

Lemma parse_lines_bound_Raise lines : forall st e,
  bound st -> parse_lines st lines = Raise e ->
  (e = IndexError /\ In EmptyString lines) \/
  (e = ValueError /\
   exists c s, In (String c s) lines /\ isdigit s = true /\
               (all_chars is_ascii_digit s = false \/
                (max_str_digits < Z.of_nat (String.length s))%Z)).
Proof.
  induction lines as [|line rest IH]; cbn [parse_lines]; intros st e Hb Hp;
    [discriminate|].
  unfold parse_line in Hp.
  destruct (read_line line) as [[field v]|e1] eqn:Hr; cbn [bind fst snd] in Hp.
  - destruct (parse_field_bound st field v Hb) as [st1 [H1 Hb1]].
    rewrite H1 in Hp. cbn [bind] in Hp.
    destruct (IH _ _ Hb1 Hp) as [[-> Hin]|[-> [c [s [Hin Hs]]]]].
    + left. split; [reflexivity | now right].
    + right. split; [reflexivity|]. exists c, s. split; [now right | assumption].
  - injection Hp as ->.
    destruct (read_line_Raise _ _ Hr) as [[-> ->]|[c [s [-> [Hd [Ha ->]]]]]].
    + left. split; [reflexivity | now left].
    + right. split; [reflexivity|]. exists c, s. split; [now left | now split].
Qed.

(** X4.  The parser raises nothing but these: [IndexError] on an empty
    line, [ValueError] on a value that [isdigit] accepts and [int] rejects
    (a digit that is not a decimal digit, or more than 4300 digits), and
    [UnboundLocalError] when the first line is a descriptor-start line
    (name [current_pid]) or an attribute line (name [fields]). *)
Theorem parser_errors (lines : list string) (e : exn) :
  parse_lsof lines = Raise e ->
  (e = IndexError /\ In EmptyString lines) \/
  (e = ValueError /\
   exists c s, In (String c s) lines /\ isdigit s = true /\
               (all_chars is_ascii_digit s = false \/
                (max_str_digits < Z.of_nat (String.length s))%Z)) \/
  (e = UnboundLocalError "current_pid" /\
   exists s rest, lines = String "f" s :: rest) \/
  (e = UnboundLocalError "fields" /\
   exists c s rest, lines = String c s :: rest /\ c <> "p"%char /\ c <> "f"%char).
Proof.
  unfold parse_lsof. intros Hp.
  destruct (parse_lines parse_init lines) as [st|e1] eqn:Hl; cbn [bind] in Hp;
    [discriminate|].
  injection Hp as ->.
  destruct lines as [|line rest]; [discriminate|].
  cbn [parse_lines] in Hl. unfold parse_line in Hl.
  destruct (read_line line) as [[field v]|e1] eqn:Hr; cbn [bind fst snd] in Hl.
  - destruct (read_line_field _ _ _ Hr) as [s ->].
    rewrite parse_field_init in Hl.
    destruct (Ascii.eqb_spec field "p") as [->|Hnp].
    + cbn [bind] in Hl.
      assert (Hb : bound (process_opened parse_init v)) by (split; discriminate).
      destruct (parse_lines_bound_Raise rest _ e Hb Hl)
        as [[-> Hin]|[-> [c [s' [Hin Hs]]]]].
      * left. split; [reflexivity | now right].
      * right. left. split; [reflexivity|]. exists c, s'.
        split; [now right | assumption].
    + destruct (Ascii.eqb_spec field "f") as [->|Hnf]; cbn [bind] in Hl;
        injection Hl as <-.
      * right. right. left. split; [reflexivity|]. now exists s, rest.
      * right. right. right. split; [reflexivity|]. now exists field, s, rest.
  - injection Hl as ->.
    destruct (read_line_Raise _ _ Hr) as [[-> ->]|[c [s [-> [Hd [Ha ->]]]]]].
    + left. split; [reflexivity | now left].
    + right. left. split; [reflexivity|]. exists c, s. split; [now left | now split].
Qed.

Lemma parser_errors_witness :
  exists c s rest, ["cinit"; "p10"] = String c s :: rest /\
                   c <> "p"%char /\ c <> "f"%char.
Proof.
  destruct (parser_errors ["cinit"; "p10"] (UnboundLocalError "fields"))
    as [[H _]|[[H _]|[[H _]|[_ H]]]]; try discriminate H.
  - vm_compute. reflexivity.
  - exact H.
Defined.


(** ** What the tables keep *)

Lemma frec_dset (file_info : file_table) (pid : value) (fdf : fd_table)
    (q fd : value) :
  dget_default [] (dget_default [] (dset file_info pid fdf) q) fd =
  if value_eqb pid q then dget_default [] fdf fd
  else dget_default [] (dget_default [] file_info q) fd.
Proof.
  destruct (value_eqb_spec pid q) as [->|Hq].
  - now rewrite dget_default_dset_same.
  - now rewrite dget_default_dset_other.
Qed.

Lemma dtouch_nonempty {V : Type} (dflt : V) (d : dict value V) (k : value) :
  dtouch dflt d k <> @nil (value * V).
Proof.
  unfold dtouch. destruct (dget d k) as [v|] eqn:Hg.
  - apply dget_Some_In in Hg. intros ->. destruct Hg.
  - apply dset_nonempty.
Qed.

Lemma state_ok_init : state_ok parse_init.
Proof.
  split; [|split; discriminate].
  split; [constructor|]. split; [intros pid; constructor|].
  split; [apply wf_files_nil|]. split; [intros pid fd; constructor|].
  split; intros pid [].
Qed.

Lemma parse_field_ok st field v st' :
  parse_field st field v = Ok st' -> state_ok st -> state_ok st'.
Proof.
  intros Hstep [[Hp1 [Hp2 [Hw [Hrec [Hsub Hne]]]]] [Hcur Hfld]].
  destruct (parse_field_step _ _ _ _ Hstep) as [t [Ht [_ [_ [Hk [_ Hwf]]]]]].
  specialize (Hwf Hw). revert Hstep Ht Hk Hwf. unfold parse_field.
  destruct (Ascii.eqb field "p").
  { intros [= <-] _ _ _. unfold state_ok, tables_ok.
    cbn [st_proc_info st_file_info st_current_pid st_fields].
    split; [|split].
    - split; [now apply NoDup_dtouch|]. split.
      { intros pid. rewrite dget_default_dtouch. apply Hp2. }
      split; [assumption|]. split; [assumption|]. split; [|assumption].
      intros pid Hin. apply dkeys_dtouch. right. now apply Hsub.
    - intros pid [= <-]. apply dkeys_dtouch. now left.
    - discriminate. }
  destruct (Ascii.eqb field "f").
  { destruct (st_current_pid st) as [pid|] eqn:Hc; [|discriminate].
    intros [= <-] Ht Hk Hwf. unfold state_ok, tables_ok.
    cbn [st_proc_info st_file_info st_current_pid st_fields] in *.
    injection Ht as <-.
    split; [|split].
    - split; [assumption|]. split; [assumption|]. split; [assumption|].
      split; [|split].
      + intros q fd. unfold open_file. rewrite frec_dset.
        destruct (value_eqb pid q); [|apply Hrec].
        rewrite dget_default_dtouch. apply Hrec.
      + intros q Hq. apply Hk in Hq. destruct Hq as [Hq|[fd [= -> _]]].
        * now apply Hsub.
        * now apply Hcur.
      + intros q Hq. unfold open_file.
        destruct (value_eqb_spec pid q) as [->|Hneq].
        * rewrite dget_default_dset_same. apply dtouch_nonempty.
        * rewrite dget_default_dset_other by assumption. apply Hne.
          apply Hk in Hq. destruct Hq as [Hq|[fd [= -> _]]]; [assumption|].
          now contradiction Hneq.
    - intros q [= <-]. now apply Hcur.
    - intros q fd [= <- <-]. apply Hk. right. now exists v. }
  destruct (st_fields st) as [[pid|pid fd]|] eqn:Hf; [| |discriminate].
  - intros [= <-] _ _ _. unfold state_ok, tables_ok.
    cbn [store st_proc_info st_file_info st_current_pid st_fields].
    split; [|split].
    + split; [now apply NoDup_dset|]. split.
      { intros q. destruct (value_eqb_spec pid q) as [->|Hneq].
        - rewrite dget_default_dset_same. apply NoDup_dset, Hp2.
        - rewrite dget_default_dset_other by assumption. apply Hp2. }
      split; [assumption|]. split; [assumption|]. split; [|assumption].
      intros q Hq. apply dkeys_dset. right. now apply Hsub.
    + intros q Hq. apply dkeys_dset. right. now apply Hcur.
    + rewrite Hf. discriminate.
  - intros [= <-] Ht Hk Hwf. unfold state_ok, tables_ok.
    cbn [store st_proc_info st_file_info st_current_pid st_fields] in *.
    rewrite Hf in Ht. injection Ht as <-.
    assert (Hpid : In pid (dkeys (st_file_info st))) by now apply (Hfld pid fd).
    split; [|split].
    + split; [assumption|]. split; [assumption|]. split; [assumption|].
      split; [|split].
      * intros q fd'. rewrite frec_dset.
        destruct (value_eqb pid q); [|apply Hrec].
        destruct (value_eqb_spec fd fd') as [->|Hneq].
        -- rewrite dget_default_dset_same. apply NoDup_dset, Hrec.
        -- rewrite dget_default_dset_other by assumption. apply Hrec.
      * intros q Hq. apply Hk in Hq. destruct Hq as [Hq|[fd' [= -> _]]];
          now apply Hsub.
      * intros q Hq. destruct (value_eqb_spec pid q) as [->|Hneq].
        -- rewrite dget_default_dset_same. apply dset_nonempty.
        -- rewrite dget_default_dset_other by assumption. apply Hne.
           apply Hk in Hq. destruct Hq as [Hq|[fd' [= -> _]]]; [assumption|].
           now contradiction Hneq.
    + intros q Hq. now apply Hcur.
    + intros q fd' Hq. apply Hk. left. rewrite Hf in Hq. injection Hq as <- _.
      assumption.
Qed.

Lemma parse_lines_ok lines : forall st st',
  parse_lines st lines = Ok st' -> state_ok st -> state_ok st'.
Proof.
  induction lines as [|line rest IH]; cbn [parse_lines]; intros st st' Hp Hok.
  - now injection Hp as <-.
  - unfold parse_line in Hp.
    destruct (read_line line) as [fv|e]; cbn [bind] in Hp; [|discriminate].
    destruct (parse_field st (fst fv) (snd fv)) as [st1|e] eqn:Hstep;
      cbn [bind] in Hp; [|discriminate].
    apply (IH _ _ Hp). exact (parse_field_ok _ _ _ _ Hstep Hok).
Qed.

(** X5.  In the tables the parser returns, keys are unique at every level
    (pids, descriptors of a pid, fields of a record), every pid that has
    descriptors has a process record, and no pid has an empty descriptor
    table. *)
Theorem parsed_tables_ok (lines : list string) (proc_info : proc_table)
    (file_info : file_table) :
  parse_lsof lines = Ok (proc_info, file_info) ->
  NoDup (dkeys proc_info) /\
  NoDup (dkeys file_info) /\
  (forall pid tags, In (pid, tags) proc_info -> NoDup (dkeys tags)) /\
  (forall pid fd_fields,
     In (pid, fd_fields) file_info ->
     In pid (dkeys proc_info) /\ fd_fields <> [] /\ NoDup (dkeys fd_fields) /\
     forall fd fds, In (fd, fds) fd_fields -> NoDup (dkeys fds)).
Proof.
  unfold parse_lsof. intros Hp.
  destruct (parse_lines parse_init lines) as [st|e] eqn:Hl; cbn [bind] in Hp;
    [|discriminate].
  injection Hp as <- <-.
  destruct (parse_lines_ok _ _ _ Hl state_ok_init)
    as [[Hp1 [Hp2 [Hw [Hrec [Hsub Hne]]]]] _].
  split; [assumption|]. split; [apply Hw|]. split.
  - intros pid tags Hin. rewrite <- (dget_default_Some [] _ _ _ (In_dget _ _ _ Hp1 Hin)).
    apply Hp2.
  - intros pid fdf Hin.
    pose proof (dget_default_Some [] _ _ _ (In_dget _ _ _ (proj1 Hw) Hin)) as Hg.
    split; [apply Hsub; exact (In_dkeys _ _ _ Hin)|].
    split; [rewrite <- Hg; apply Hne; exact (In_dkeys _ _ _ Hin)|].
    assert (Hnd : NoDup (dkeys fdf)) by (rewrite <- Hg; apply Hw).
    split; [assumption|].
    intros fd fds Hfd.
    rewrite <- (dget_default_Some [] _ _ _ (In_dget _ _ _ Hnd Hfd)), <- Hg.
    apply Hrec.
Qed.

Lemma parsed_tables_ok_witness :
  NoDup (dkeys (fst kernel_thread_tables)) /\
  NoDup (dkeys (snd kernel_thread_tables)) /\
  (forall pid tags, In (pid, tags) (fst kernel_thread_tables) -> NoDup (dkeys tags)) /\
  (forall pid fd_fields,
     In (pid, fd_fields) (snd kernel_thread_tables) ->
     In pid (dkeys (fst kernel_thread_tables)) /\ fd_fields <> [] /\
     NoDup (dkeys fd_fields) /\
     forall fd fds, In (fd, fds) fd_fields -> NoDup (dkeys fds)).
Proof.
  apply (parsed_tables_ok kernel_thread_lines). vm_compute. reflexivity.
Defined.

(** ** A line more *)

Lemma parse_lines_app l1 l2 : forall st,
  parse_lines st (l1 ++ l2) = (st1 <- parse_lines st l1 ;; parse_lines st1 l2).
Proof.
  induction l1 as [|line rest IH]; intros st; cbn [app parse_lines bind];
    [reflexivity|].
  destruct (parse_line st line) as [st1|e]; cbn [bind]; [apply IH | reflexivity].
Qed.

Lemma sets_attr t x v t' y :
  is_attr x = true ->
  sets (t, x, v) t' y = true <-> t = t' /\ x = y.
Proof.
  intros Ha. unfold sets. cbn [fst snd]. rewrite Ha. cbn [andb].
  rewrite andb_true_iff, target_eqb_eq, Ascii.eqb_eq. reflexivity.
Qed.

(** X6.  An attribute line read after lines that parse sets its field in
    the record that is open, whatever the field held before, and changes
    no other field of any record. *)
Theorem attribute_line_wins (lines : list string) (st : parse_state)
    (t : target) (x : ascii) (s : string) (v : value) :
  parse_lines parse_init lines = Ok st ->
  st_fields st = Some t ->
  is_attr x = true ->
  read_line (String x s) = Ok (x, v) ->
  exists st',
    parse_lines parse_init (lines ++ [String x s]) = Ok st' /\
    match t with
    | TProc q => pattr (st_proc_info st') q x = Some v
    | TFile q fd => fattr (st_file_info st') q fd x = Some v
    end /\
    (forall q y, TProc q <> t \/ y <> x ->
                 pattr (st_proc_info st') q y = pattr (st_proc_info st) q y) /\
    (forall q fd y, TFile q fd <> t \/ y <> x ->
                    fattr (st_file_info st') q fd y = fattr (st_file_info st) q fd y).
Proof.
  intros Hp Hf Ha Hr.
  assert (Hstep : parse_field st x v = Ok (store st t x v)).
  { unfold parse_field. unfold is_attr in Ha. apply andb_true_iff in Ha.
    destruct Ha as [Hnp Hnf]. apply negb_true_iff in Hnp, Hnf.
    now rewrite Hnp, Hnf, Hf. }
  exists (store st t x v). split.
  { rewrite parse_lines_app, Hp. cbn [bind parse_lines]. unfold parse_line.
    rewrite Hr. cbn [bind fst snd]. now rewrite Hstep. }
  destruct (parse_field_step _ _ _ _ Hstep) as [t' [Ht' [Hpa [Hfa _]]]].
  assert (t' = t) as ->.
  { destruct t; cbn [store st_fields] in Ht'; rewrite Hf in Ht'; congruence. }
  split; [|split].
  - destruct t as [q|q fd].
    + rewrite Hpa. now rewrite (proj2 (sets_attr _ _ v _ _ Ha) (conj eq_refl eq_refl)).
    + rewrite Hfa. now rewrite (proj2 (sets_attr _ _ v _ _ Ha) (conj eq_refl eq_refl)).
  - intros q y Hne. rewrite Hpa.
    destruct (sets (t, x, v) (TProc q) y) eqn:Hs; [|reflexivity].
    apply (sets_attr _ _ _ _ _ Ha) in Hs. destruct Hs as [-> ->].
    destruct Hne as [Hne|Hne]; now contradiction Hne.
  - intros q fd y Hne. rewrite Hfa.
    destruct (sets (t, x, v) (TFile q fd) y) eqn:Hs; [|reflexivity].
    apply (sets_attr _ _ _ _ _ Ha) in Hs. destruct Hs as [-> ->].
    destruct Hne as [Hne|Hne]; now contradiction Hne.
Qed.

Lemma attribute_line_wins_witness :
  exists st',
    parse_lines parse_init (["p10"; "cfoo"] ++ ["cbar"]) = Ok st' /\
    pattr (st_proc_info st') (VInt 10) "c" = Some (VStr "bar").
Proof.
  destruct (attribute_line_wins ["p10"; "cfoo"]
              (mk_parse_state [(VInt 10, [("c"%char, VStr "foo")])] []
                 (Some (VInt 10)) (Some (TProc (VInt 10))))
              (TProc (VInt 10)) "c" "bar" (VStr "bar"))
    as [st' [Hp [Hv _]]]; try reflexivity.
  exists st'. split; assumption.
Defined.

(** ** The filter of main *)

Lemma is_kernel_txt_iff fd fds :
  is_kernel_txt fd fds = true <->
  fd = VStr "txt" /\ dget fds "t"%char = Some (VStr "unknown").
Proof.
  unfold is_kernel_txt, get. rewrite andb_true_iff, !value_eqb_eq.
  destruct (dget fds "t"%char) as [ty|]; split; intros [H1 H2];
    (split; [assumption|]); congruence.
Qed.

Lemma filter_all {A : Type} (f : A -> bool) (l : list A) :
  (forall x, In x l -> f x = true) -> filter f l = l.
Proof.
  induction l as [|x l IH]; cbn [filter]; intros Hall; [reflexivity|].
  rewrite (Hall x (or_introl eq_refl)). f_equal. apply IH.
  intros y Hy. apply Hall. now right.
Qed.

(** X7.  The filter keeps an entry of the descriptor table exactly when
    the pid has no 'txt' descriptor of type "unknown"; nothing the filter
    keeps is a kernel thread, and filtering twice changes nothing. *)
Theorem kernel_filter (file_info : file_table) :
  (forall pid fd_fields,
     In (pid, fd_fields) (drop_kernel_threads file_info) <->
     In (pid, fd_fields) file_info /\
     ~ exists fdf fds,
         In (pid, fdf) file_info /\ In (VStr "txt", fds) fdf /\
         dget fds "t"%char = Some (VStr "unknown")) /\
  find_kernel_threads (drop_kernel_threads file_info) = [] /\
  drop_kernel_threads (drop_kernel_threads file_info)
  = drop_kernel_threads file_info.
Proof.
  assert (Hk : forall pid,
             In pid (find_kernel_threads file_info) <->
             exists fdf fds,
               In (pid, fdf) file_info /\ In (VStr "txt", fds) fdf /\
               dget fds "t"%char = Some (VStr "unknown")).
  { intros pid. rewrite find_kernel_threads_In. split.
    - intros [fdf [fd [fds [Hin [Hfd Hkt]]]]]. apply is_kernel_txt_iff in Hkt.
      destruct Hkt as [-> Ht]. now exists fdf, fds.
    - intros [fdf [fds [Hin [Hfd Ht]]]]. exists fdf, (VStr "txt"), fds.
      repeat split; try assumption. now apply is_kernel_txt_iff. }
  assert (Hnone : find_kernel_threads (drop_kernel_threads file_info) = []).
  { destruct (find_kernel_threads (drop_kernel_threads file_info)) as [|pid rest] eqn:Hl;
      [reflexivity|].
    exfalso. assert (Hin : In pid (find_kernel_threads (drop_kernel_threads file_info)))
      by (rewrite Hl; now left).
    apply find_kernel_threads_In in Hin.
    destruct Hin as [fdf [fd [fds [Hin [Hfd Hkt]]]]].
    apply drop_kernel_threads_In in Hin. destruct Hin as [Hin Hnot].
    apply Hnot. apply find_kernel_threads_In. now exists fdf, fd, fds. }
  split; [|split].
  - intros pid fdf. rewrite drop_kernel_threads_In, Hk. reflexivity.
  - assumption.
  - unfold drop_kernel_threads at 1. rewrite Hnone. now apply filter_all.
Qed.

(** ** Where find_links files, and when it stops *)

(** X8.  Nothing is ever filed in the pipe partition, and the text
    [generate_dot] returns does not depend on the pipe partition it is
    given. *)
Theorem pipe_unused (file_info : file_table) (l : links) :
  find_links file_info = Ok l ->
  pipe l = [] /\
  forall proc_info pipe',
    generate_dot proc_info file_info (unix l) (fifo l) (pipe l) (tcp l) (udp l)
    = generate_dot proc_info file_info (unix l) (fifo l) pipe' (tcp l) (udp l).
Proof.
  intros Hl. split; [apply (find_links_wf _ _ Hl) | reflexivity].
Qed.

Lemma pipe_unused_witness :
  pipe two_tcp_links = [] /\
  forall proc_info pipe',
    generate_dot proc_info two_tcp_table (unix two_tcp_links) (fifo two_tcp_links)
      (pipe two_tcp_links) (tcp two_tcp_links) (udp two_tcp_links)
    = generate_dot proc_info two_tcp_table (unix two_tcp_links) (fifo two_tcp_links)
        pipe' (tcp two_tcp_links) (udp two_tcp_links).
Proof. apply (pipe_unused two_tcp_table two_tcp_links). reflexivity. Defined.

(** X9.  [find_links] completes exactly when its loop body completes on
    every retained descriptor taken alone: whether a descriptor raises does
    not depend on what was filed before it. *)
Theorem find_links_completes_iff (file_info : file_table) :
  (exists l, find_links file_info = Ok l) <->
  (forall pid fd_fields fd fds,
     In (pid, fd_fields) file_info -> In (fd, fds) fd_fields ->
     exists l, link_fd pid no_links fds = Ok l).
Proof.
  split.
  - intros [l Hl] pid fdf fd fds Hin Hfd.
    destruct (find_links_routes _ _ Hl _ _ _ _ Hin Hfd) as [r Hr].
    rewrite link_fd_route, Hr. cbn [bind]. eexists. reflexivity.
  - intros Hall. apply find_links_total. intros pid fdf fd fds Hin Hfd.
    destruct (Hall _ _ _ _ Hin Hfd) as [l Hl].
    apply link_fd_Ok in Hl. destruct Hl as [r [Hr _]]. now exists r.
Qed.

Lemma find_links_completes_iff_witness :
  exists l, link_fd (VInt 10) no_links
              [("a"%char, VStr "u"); ("t"%char, VStr "IPv4"); ("P"%char, VStr "TCP");
               ("n"%char, VStr "A:80->B:1234")] = Ok l.
Proof.
  apply (proj1 (find_links_completes_iff two_tcp_table)
           (ex_intro _ two_tcp_links eq_refl) (VInt 10)
           [(VInt 3, [("a"%char, VStr "u"); ("t"%char, VStr "IPv4");
                      ("P"%char, VStr "TCP"); ("n"%char, VStr "A:80->B:1234")])]
           (VInt 3)); left; reflexivity.
Defined.


Lemma route_other fds ty :
  dget fds "t"%char = Some ty -> channel_type ty = false -> route fds = Ok None.
Proof.
  intros Ht Hc. unfold channel_type in Hc.
  apply orb_false_iff in Hc. destruct Hc as [Hc H6].
  apply orb_false_iff in Hc. destruct Hc as [Hc H4].
  apply orb_false_iff in Hc. destruct Hc as [Hu Hf].
  unfold route, subscript. rewrite Ht. cbn [bind]. now rewrite Hu, Hf, H4, H6.
Qed.

Lemma link_fds_none pid fd_fields : forall acc,
  (forall fd fds, In (fd, fds) fd_fields -> route fds = Ok None) ->
  link_fds pid acc fd_fields = Ok acc.
Proof.
  induction fd_fields as [|[fd0 fds0] rest IH]; cbn [link_fds]; intros acc Hall;
    [reflexivity|].
  rewrite link_fd_route, (Hall fd0 fds0 (or_introl eq_refl)). cbn [bind filed].
  apply IH. intros fd fds Hin. apply (Hall fd fds). now right.
Qed.

Lemma link_pids_none file_info : forall acc,
  (forall pid fd_fields fd fds,
     In (pid, fd_fields) file_info -> In (fd, fds) fd_fields ->
     route fds = Ok None) ->
  link_pids acc file_info = Ok acc.
Proof.
  induction file_info as [|[pid0 fdf0] rest IH]; cbn [link_pids]; intros acc Hall;
    [reflexivity|].
  rewrite link_fds_none.
  - cbn [bind]. apply IH. intros pid fdf fd fds Hin Hfd.
    apply (Hall pid fdf fd fds); [now right | assumption].
  - intros fd fds Hfd. apply (Hall pid0 fdf0 fd fds); [now left | assumption].
Qed.

(** X10.  A descriptor whose type is none of unix, FIFO, IPv4, IPv6 is
    passed over: it raises nothing and is filed nowhere, whatever other
    fields it has or lacks; a table of such descriptors gives five empty
    partitions. *)
Theorem other_types_ignored (file_info : file_table) :
  (forall pid fd_fields fd fds,
     In (pid, fd_fields) file_info -> In (fd, fds) fd_fields ->
     exists ty, dget fds "t"%char = Some ty /\ channel_type ty = false) ->
  find_links file_info = Ok no_links /\
  forall pid fd_fields fd fds acc,
    In (pid, fd_fields) file_info -> In (fd, fds) fd_fields ->
    link_fd pid acc fds = Ok acc.
Proof.
  intros Hall. split.
  - apply link_pids_none. intros pid fdf fd fds Hin Hfd.
    destruct (Hall _ _ _ _ Hin Hfd) as [ty [Ht Hc]]. exact (route_other _ _ Ht Hc).
  - intros pid fdf fd fds acc Hin Hfd.
    destruct (Hall _ _ _ _ Hin Hfd) as [ty [Ht Hc]].
    now rewrite link_fd_route, (route_other _ _ Ht Hc).
Qed.

Lemma other_types_ignored_witness :
  find_links plain_files_table = Ok no_links /\
  forall pid fd_fields fd fds acc,
    In (pid, fd_fields) plain_files_table -> In (fd, fds) fd_fields ->
    link_fd pid acc fds = Ok acc.
Proof.
  apply (other_types_ignored plain_files_table).
  intros pid fdf fd fds Hin Hfd.
  destruct Hin as [Hin|[]]. injection Hin as <- <-.
  destruct Hfd as [Hfd|[Hfd|[]]]; injection Hfd as <- <-;
    eexists; split; reflexivity.
Defined.



(** X12.  An IPv4/IPv6 descriptor whose name is made of digits only has
    been decoded as a number: looking for the separator in it raises
    [TypeError], and [find_links] raises on any table that holds it. *)
Theorem number_name_raises (file_info : file_table) (pid : value)
    (fd_fields : fd_table) (fd : value) (fds : fields) (z : Z) :
  In (pid, fd_fields) file_info -> In (fd, fds) fd_fields ->
  is_ip fds ->
  dget fds "n"%char = Some (VInt z) ->
  (forall acc, link_fd pid acc fds = Raise TypeError) /\
  exists e, find_links file_info = Raise e.
Proof.
  intros Hin Hfd Hip Hn. destruct (is_ip_type _ Hip) as [ty [Ht [Hu [Hf Hi]]]].
  assert (Hr : route fds = Raise TypeError).
  { unfold route, subscript. rewrite Ht. cbn [bind]. now rewrite Hu, Hf, Hi, Hn. }
  split.
  - intros acc. now rewrite link_fd_route, Hr.
  - exact (find_links_raises _ _ _ _ _ _ Hin Hfd Hr).
Qed.

Lemma number_name_raises_witness :
  (forall acc,
     link_fd (VInt 10) acc
       [("a"%char, VStr "u"); ("t"%char, VStr "IPv4"); ("P"%char, VStr "TCP");
        ("n"%char, VInt 8080)] = Raise TypeError) /\
  exists e, find_links number_name_table = Raise e.
Proof.
  apply (number_name_raises number_name_table (VInt 10)
           [(VInt 3, [("a"%char, VStr "u"); ("t"%char, VStr "IPv4");
                      ("P"%char, VStr "TCP"); ("n"%char, VInt 8080)])]
           (VInt 3) _ 8080).
  - left. reflexivity.
  - left. reflexivity.
  - left. reflexivity.
  - reflexivity.
Defined.


(** ** What generate_dot needs and what it emits *)

Lemma dot_pid_result proc_info pid :
  dot_pid proc_info pid ([], []) =
  match dget (dget_default [] proc_info pid) "R"%char,
        dget (dget_default [] proc_info pid) "L"%char with
  | Some r, Some login =>
      Ok ([mk_node pid
             (str (py_or (get (dget_default [] proc_info pid) "n")
                     (get (dget_default [] proc_info pid) "c"))
              ++ "\n" ++ str pid ++ " " ++ str login)%string
             (if value_eqb r (VInt 1) then "grey70" else "white")],
          if truthy r && negb (value_eqb r (VInt 1))
          then [mk_edge r pid "" 2 100 "gray60" "none"] else [])
  | None, _ => Raise (KeyError "R")
  | Some _, None => Raise (KeyError "L")
  end.
Proof.
  unfold dot_pid, subscript, get.
  destruct (dget (dget_default [] proc_info pid) "R"%char) as [r|]; cbn [bind];
    [|reflexivity].
  destruct (dget (dget_default [] proc_info pid) "L"%char) as [login|]; cbn [bind];
    [|reflexivity].
  destruct (truthy r && negb (value_eqb r (VInt 1))); reflexivity.
Qed.

Lemma dot_pid_Ok proc_info pid r :
  dot_pid proc_info pid ([], []) = Ok r ->
  exists rv login,
    dget (dget_default [] proc_info pid) "R"%char = Some rv /\
    get (dget_default [] proc_info pid) "R" = rv /\
    get (dget_default [] proc_info pid) "L" = login /\
    r = ([mk_node pid
            (str (py_or (get (dget_default [] proc_info pid) "n")
                    (get (dget_default [] proc_info pid) "c"))
             ++ "\n" ++ str pid ++ " " ++ str login)%string
            (if value_eqb rv (VInt 1) then "grey70" else "white")],
         if truthy rv && negb (value_eqb rv (VInt 1))
         then [mk_edge rv pid "" 2 100 "gray60" "none"] else []).
Proof.
  rewrite dot_pid_result. unfold get.
  destruct (dget (dget_default [] proc_info pid) "R"%char) as [rv|]; [|discriminate].
  destruct (dget (dget_default [] proc_info pid) "L"%char) as [login|]; [|discriminate].
  intros [= <-]. now exists rv, login.
Qed.

Lemma dot_keys_total p fd_pids : forall edges,
  (forall key pids, In (key, pids) fd_pids ->
                    exists new, dot_key p key pids [] = Ok new) ->
  exists edges', dot_keys p fd_pids edges = Ok edges'.
Proof.
  induction fd_pids as [|[key pids] rest IH]; cbn [dot_keys]; intros edges Hall.
  - now exists edges.
  - rewrite dot_key_acc. destruct (Hall key pids (or_introl eq_refl)) as [new ->].
    cbn [bind]. apply IH. intros k ps Hin. apply (Hall k ps). now right.
Qed.

Lemma dot_conns_total conns : forall edges,
  (forall fd_pids p key pids,
     In (fd_pids, p) conns -> In (key, pids) fd_pids ->
     exists new, dot_key p key pids [] = Ok new) ->
  exists edges', dot_conns conns edges = Ok edges'.
Proof.
  induction conns as [|[part p] rest IH]; cbn [dot_conns]; intros edges Hall.
  - now exists edges.
  - destruct (dot_keys_total p part edges) as [edges1 ->].
    { intros key pids Hin. apply (Hall part p key pids); [now left | assumption]. }
    cbn [bind]. apply IH. intros fp p' key pids Hc Hin.
    apply (Hall fp p' key pids); [now right | assumption].
Qed.

Lemma dot_key_completes p key pids :
  (exists new, dot_key p key pids [] = Ok new) <->
  (forall src dst, dkeys pids = [src; dst] ->
                   dget (dget_default [] pids src) "a"%char <> None).
Proof.
  destruct (Nat.eq_dec (List.length pids) 2) as [Hlen|Hlen].
  - destruct pids as [|[src f1] [|[dst f2] [|]]]; try discriminate.
    rewrite (dot_key_two _ _ _ _ src dst) by reflexivity. unfold subscript. split.
    + intros [new Hk] s d [= <- <-] Hnone. rewrite Hnone in Hk. discriminate.
    + intros Hacc. specialize (Hacc src dst eq_refl).
      destruct (dget _ "a"%char); [|contradiction]. cbn [bind]. eexists. reflexivity.
  - rewrite dot_key_other by assumption. split.
    + intros _ src dst Hk. exfalso. apply Hlen. now rewrite <- dkeys_length, Hk.
    + intros _. eexists. reflexivity.
Qed.

(** X13.  [generate_dot] completes exactly when every retained pid has the
    fields R and L in its process record, and the first participant of
    every key with two participants has the field [a]. *)
Theorem generate_dot_completes_iff (proc_info : proc_table)
    (file_info : file_table) (unix fifo pipe tcp udp : partition) :
  (exists text, generate_dot proc_info file_info unix fifo pipe tcp udp = Ok text) <->
  (forall pid, In pid (dkeys file_info) ->
               dget (dget_default [] proc_info pid) "R"%char <> None /\
               dget (dget_default [] proc_info pid) "L"%char <> None) /\
  (forall fd_pids p key pids src dst,
     In (fd_pids, p) (conn_props unix fifo tcp udp) ->
     In (key, pids) fd_pids -> dkeys pids = [src; dst] ->
     dget (dget_default [] pids src) "a"%char <> None).
Proof.
  unfold generate_dot, dot_statements. split.
  - intros [text Hg].
    destruct (dot_pids proc_info (dkeys file_info) ([], [])) as [ne|e] eqn:Hp;
      cbn [bind] in Hg; [|discriminate].
    destruct (dot_conns (conn_props unix fifo tcp udp) (snd ne)) as [edges|e] eqn:Hc;
      cbn [bind] in Hg; [|discriminate].
    split.
    + intros pid Hin. destruct (dot_pids_each _ _ _ Hp pid Hin) as [r Hr].
      rewrite dot_pid_result in Hr.
      destruct (dget (dget_default [] proc_info pid) "R"%char); [|discriminate].
      destruct (dget (dget_default [] proc_info pid) "L"%char); [|discriminate].
      split; discriminate.
    + intros part p key pids src dst Hin Hk.
      destruct (dot_conns_covers _ _ _ _ _ _ _ Hc Hin Hk) as [new [Hnew _]].
      apply (proj1 (dot_key_completes p key pids)). now exists new.
  - intros [Hnodes Hkeys].
    destruct (dot_pids_total proc_info (dkeys file_info) ([], [])) as [ne ->].
    { intros pid Hin. destruct (Hnodes pid Hin) as [HR HL].
      rewrite dot_pid_result.
      destruct (dget (dget_default [] proc_info pid) "R"%char); [|contradiction].
      destruct (dget (dget_default [] proc_info pid) "L"%char); [|contradiction].
      eexists. reflexivity. }
    cbn [bind].
    destruct (dot_conns_total (conn_props unix fifo tcp udp) (snd ne)) as [edges ->].
    { intros part p key pids Hin Hk. apply dot_key_completes.
      intros src dst Hd. exact (Hkeys part p key pids src dst Hin Hk Hd). }
    cbn [bind]. eexists. reflexivity.
Qed.

Lemma generate_dot_completes_iff_witness :
  exists text,
    generate_dot writer_first_procs (retained writer_first_lines)
      [(VInt 5, writer_first_pids)] [] [] [] [] = Ok text.
Proof.
  apply (proj2 (generate_dot_completes_iff writer_first_procs
                  (retained writer_first_lines) [(VInt 5, writer_first_pids)]
                  [] [] [] [])).
  split.
  - intros pid Hin. vm_compute in Hin.
    destruct Hin as [<-|[<-|[]]]; split; discriminate.
  - intros part p key pids src dst Hin Hk Hd.
    destruct Hin as [Hin|[Hin|[Hin|[Hin|[]]]]]; injection Hin as <- <-;
      try (now destruct Hk).
    destruct Hk as [Hk|[]]. injection Hk as <- <-.
    injection Hd as <- <-. discriminate.
Defined.

(** X14.  A completed run has one node per retained pid, in the order of
    the descriptor table: its label is the name (field n if it is set and
    not empty, else field c, "None" if neither is there), the pid and the
    login; its colour is grey70 when field R is the number 1, else
    white. *)
Theorem nodes_of_pids (proc_info : proc_table) (file_info : file_table)
    (unix fifo pipe tcp udp : partition) (nodes : list node) (edges : list edge) :
  dot_statements proc_info file_info unix fifo pipe tcp udp = Ok (nodes, edges) ->
  Forall2
    (fun pid n =>
       node_pid n = pid /\
       node_label n =
         (str (py_or (get (dget_default [] proc_info pid) "n")
                 (get (dget_default [] proc_info pid) "c"))
          ++ "\n" ++ str pid ++ " "
          ++ str (get (dget_default [] proc_info pid) "L"))%string /\
       node_color n =
         (if value_eqb (get (dget_default [] proc_info pid) "R") (VInt 1)
          then "grey70" else "white"))
    (dkeys file_info) nodes.
Proof.
  unfold dot_statements. intros Hd.
  destruct (dot_pids proc_info (dkeys file_info) ([], [])) as [ne|e] eqn:Hp;
    cbn [bind] in Hd; [|discriminate].
  destruct (dot_conns (conn_props unix fifo tcp udp) (snd ne)) as [es|e];
    cbn [bind] in Hd; [|discriminate].
  injection Hd as <- _.
  apply dot_pids_Ok in Hp. destruct Hp as [rs [HF ->]]. cbn [fst app].
  induction HF as [|pid r rest rs Hr HF IH]; cbn [map List.concat]; [constructor|].
  destruct (dot_pid_Ok _ _ _ Hr) as [rv [login [_ [HR [HL ->]]]]].
  cbn [fst app]. constructor; [|exact IH].
  cbn [node_pid node_label node_color]. rewrite HR, HL.
  split; [reflexivity | split; reflexivity].
Qed.

Lemma nodes_of_pids_witness :
  Forall2
    (fun pid n =>
       node_pid n = pid /\
       node_label n =
         (str (py_or (get (dget_default [] (fst kernel_thread_tables) pid) "n")
                 (get (dget_default [] (fst kernel_thread_tables) pid) "c"))
          ++ "\n" ++ str pid ++ " "
          ++ str (get (dget_default [] (fst kernel_thread_tables) pid) "L"))%string /\
       node_color n =
         (if value_eqb (get (dget_default [] (fst kernel_thread_tables) pid) "R")
               (VInt 1)
          then "grey70" else "white"))
    (dkeys (drop_kernel_threads (snd kernel_thread_tables)))
    [mk_node (VInt 10) "init\n10 root" "grey70";
     mk_node (VInt 20) "sh\n20 bob" "white"].
Proof.
  apply (nodes_of_pids (fst kernel_thread_tables)
           (drop_kernel_threads (snd kernel_thread_tables))
           (unix kernel_thread_links) (fifo kernel_thread_links)
           (pipe kernel_thread_links) (tcp kernel_thread_links)
           (udp kernel_thread_links) _
           [mk_edge (VInt 10) (VInt 20) "" 2 100 "gray60" "none";
            mk_edge (VInt 10) (VInt 20) "unix:\n7" 1 10 "purple" "both"]).
  vm_compute. reflexivity.
Defined.

(** X15.  In a completed run, the edges with direction "none" are the
    edges from a parent: one for every retained pid whose field R is
    neither false (0, empty) nor the number 1, from the value of R to the
    pid, whether or not that value is a retained pid. *)
Theorem parent_edges (proc_info : proc_table) (file_info : file_table)
    (unix fifo pipe tcp udp : partition) (nodes : list node) (edges : list edge)
    (e : edge) :
  dot_statements proc_info file_info unix fifo pipe tcp udp = Ok (nodes, edges) ->
  (In e edges /\ edge_dir e = "none" <->
   exists pid,
     In pid (dkeys file_info) /\
     truthy (get (dget_default [] proc_info pid) "R") = true /\
     get (dget_default [] proc_info pid) "R" <> VInt 1 /\
     e = mk_edge (get (dget_default [] proc_info pid) "R") pid "" 2 100
           "gray60" "none").
Proof.
  unfold dot_statements. intros Hd.
  destruct (dot_pids proc_info (dkeys file_info) ([], [])) as [[ns es0]|ex] eqn:Hp;
    cbn [bind fst snd] in Hd; [|discriminate].
  destruct (dot_conns (conn_props unix fifo tcp udp) es0) as [es|ex] eqn:Hc;
    cbn [bind] in Hd; [|discriminate].
  injection Hd as <- <-.
  destruct (dot_pids_In _ _ _ _ Hp) as [_ Hes0]. split.
  - intros [Hin Hnone]. apply (dot_conns_In _ _ _ e Hc) in Hin.
    destruct Hin as [Hin|[part [p [key [pids [new [_ [_ [Hnew Hin]]]]]]]]].
    + apply Hes0 in Hin. destruct Hin as [pid [r [Hpid [Hr Hin]]]].
      destruct (dot_pid_Ok _ _ _ Hr) as [rv [login [_ [HR [_ ->]]]]].
      cbn [snd] in Hin. exists pid. rewrite HR.
      destruct (truthy rv && negb (value_eqb rv (VInt 1))) eqn:Hcond; [|destruct Hin].
      destruct Hin as [<-|[]]. apply andb_true_iff in Hcond.
      destruct Hcond as [Htr Hn1]. apply negb_true_iff, value_eqb_neq in Hn1.
      now repeat split.
    + exfalso. now apply (dot_key_is_link _ _ _ _ _ Hnew Hin).
  - intros [pid [Hpid [Htr [Hn1 ->]]]]. split; [|reflexivity].
    apply (dot_conns_In _ _ _ _ Hc). left. apply Hes0.
    destruct (dot_pids_each _ _ _ Hp pid Hpid) as [r Hr].
    exists pid, r. split; [assumption|]. split; [assumption|].
    destruct (dot_pid_Ok _ _ _ Hr) as [rv [login [_ [HR [_ ->]]]]].
    cbn [snd]. rewrite HR in *. apply value_eqb_neq in Hn1.
    rewrite Htr, Hn1. now left.
Qed.

Lemma parent_edges_witness :
  In (mk_edge (VInt 10) (VInt 20) "" 2 100 "gray60" "none")
    [mk_edge (VInt 10) (VInt 20) "" 2 100 "gray60" "none";
     mk_edge (VInt 10) (VInt 20) "unix:\n7" 1 10 "purple" "both"] /\
  edge_dir (mk_edge (VInt 10) (VInt 20) "" 2 100 "gray60" "none") = "none".
Proof.
  apply (proj2 (parent_edges (fst kernel_thread_tables)
                  (drop_kernel_threads (snd kernel_thread_tables))
                  (unix kernel_thread_links) (fifo kernel_thread_links)
                  (pipe kernel_thread_links) (tcp kernel_thread_links)
                  (udp kernel_thread_links)
                  [mk_node (VInt 10) "init\n10 root" "grey70";
                   mk_node (VInt 20) "sh\n20 bob" "white"] _ _
                  ltac:(vm_compute; reflexivity))).
  exists (VInt 20). split; [|split; [|split]].
  - vm_compute. right. left. reflexivity.
  - reflexivity.
  - discriminate.
  - reflexivity.
Defined.

Lemma two_party_cons key pids rest :
  two_party ((key, pids) :: rest) =
  (if Nat.eqb (List.length pids) 2 then 1 else 0) + two_party rest.
Proof.
  unfold two_party. cbn [filter snd].
  destruct (Nat.eqb (List.length pids) 2); reflexivity.
Qed.

Lemma dot_keys_shape p fd_pids edges edges' :
  dot_keys p fd_pids edges = Ok edges' ->
  exists new,
    edges' = edges ++ new /\
    List.length new = two_party fd_pids /\
    Forall (fun e => is_link e /\ edge_color e = color p) new.
Proof.
  intros Hd. apply dot_keys_Ok in Hd. destruct Hd as [news [HF ->]].
  exists (List.concat news). split; [reflexivity|].
  induction HF as [|[key pids] new rest news Hnew HF [IHl IHf]]; cbn [List.concat].
  - split; [reflexivity | constructor].
  - cbn [fst snd] in Hnew. rewrite two_party_cons, length_app, IHl.
    rewrite (dot_key_length _ _ _ _ Hnew). split; [reflexivity|].
    apply Forall_app. split; [|assumption].
    apply Forall_forall. intros e He. split.
    + exact (dot_key_is_link _ _ _ _ _ Hnew He).
    + destruct (dot_key_edge _ _ _ _ _ Hnew He) as [_ [_ [_ [_ [_ [Hcol _]]]]]].
      assumption.
Qed.

(** X16.  The edges of a completed run are the edges from a parent,
    followed by the unix edges (purple), the fifo edges (green), the tcp
    edges (red) and the udp edges (orange); each partition contributes as
    many edges as it has keys with exactly two participants. *)
Theorem edges_in_order (proc_info : proc_table) (file_info : file_table)
    (unix fifo pipe tcp udp : partition) (nodes : list node) (edges : list edge) :
  dot_statements proc_info file_info unix fifo pipe tcp udp = Ok (nodes, edges) ->
  exists parents eu ef et ed,
    edges = parents ++ eu ++ ef ++ et ++ ed /\
    Forall (fun e => edge_dir e = "none") parents /\
    (List.length eu = two_party unix /\
     Forall (fun e => is_link e /\ edge_color e = "purple") eu) /\
    (List.length ef = two_party fifo /\
     Forall (fun e => is_link e /\ edge_color e = "green") ef) /\
    (List.length et = two_party tcp /\
     Forall (fun e => is_link e /\ edge_color e = "red") et) /\
    (List.length ed = two_party udp /\
     Forall (fun e => is_link e /\ edge_color e = "orange") ed).
Proof.
  unfold dot_statements. intros Hd.
  destruct (dot_pids proc_info (dkeys file_info) ([], [])) as [[ns es0]|ex] eqn:Hp;
    cbn [bind fst snd] in Hd; [|discriminate].
  destruct (dot_pids_nodes _ _ _ _ Hp) as [_ Hnone].
  unfold conn_props in Hd. cbn [dot_conns] in Hd.
  destruct (dot_keys _ unix es0) as [e1|ex] eqn:H1; cbn [bind] in Hd; [|discriminate].
  destruct (dot_keys _ fifo e1) as [e2|ex] eqn:H2; cbn [bind] in Hd; [|discriminate].
  destruct (dot_keys _ tcp e2) as [e3|ex] eqn:H3; cbn [bind] in Hd; [|discriminate].
  destruct (dot_keys _ udp e3) as [e4|ex] eqn:H4; cbn [bind] in Hd; [|discriminate].
  injection Hd as <- <-.
  destruct (dot_keys_shape _ _ _ _ H1) as [eu [-> [Hlu Hfu]]].
  destruct (dot_keys_shape _ _ _ _ H2) as [ef [-> [Hlf Hff]]].
  destruct (dot_keys_shape _ _ _ _ H3) as [et [-> [Hlt Hft]]].
  destruct (dot_keys_shape _ _ _ _ H4) as [ed [-> [Hld Hfd]]].
  exists es0, eu, ef, et, ed. split; [now rewrite <- !app_assoc|].
  split; [apply Forall_forall; intros e He; now apply Hnone|].
  repeat split; assumption.
Qed.

Lemma edges_in_order_witness :
  exists parents eu ef et ed,
    [mk_edge (VInt 10) (VInt 20) "" 2 100 "gray60" "none";
     mk_edge (VInt 10) (VInt 20) "unix:\n7" 1 10 "purple" "both"]
    = parents ++ eu ++ ef ++ et ++ ed /\
    Forall (fun e => edge_dir e = "none") parents /\
    (List.length eu = two_party (unix kernel_thread_links) /\
     Forall (fun e => is_link e /\ edge_color e = "purple") eu) /\
    (List.length ef = two_party (fifo kernel_thread_links) /\
     Forall (fun e => is_link e /\ edge_color e = "green") ef) /\
    (List.length et = two_party (tcp kernel_thread_links) /\
     Forall (fun e => is_link e /\ edge_color e = "red") et) /\
    (List.length ed = two_party (udp kernel_thread_links) /\
     Forall (fun e => is_link e /\ edge_color e = "orange") ed).
Proof.
  apply (edges_in_order (fst kernel_thread_tables)
           (drop_kernel_threads (snd kernel_thread_tables))
           (unix kernel_thread_links) (fifo kernel_thread_links)
           (pipe kernel_thread_links) (tcp kernel_thread_links)
           (udp kernel_thread_links)
           [mk_node (VInt 10) "init\n10 root" "grey70";
            mk_node (VInt 20) "sh\n20 bob" "white"]).
  vm_compute. reflexivity.
Defined.

(** ** Lines that keep their line feed *)

Lemma Forall_dset {K V : Type} `{Key K} (Q : V -> Prop) (d : dict K V) k v :
  Forall (fun kv => Q (snd kv)) d -> Q v ->
  Forall (fun kv => Q (snd kv)) (dset d k v).
Proof.
  intros Hd Hv. induction Hd as [|[k' v'] rest Hx Hd IH]; cbn [dset].
  - now repeat constructor.
  - destruct (key_eqb k' k); constructor; assumption.
Qed.

Lemma Forall_dget_default {K V : Type} `{Key K} (Q : V -> Prop) (d : dict K V)
    dflt k :
  Forall (fun kv => Q (snd kv)) d -> Q dflt -> Q (dget_default dflt d k).
Proof.
  intros Hd Hdf. unfold dget_default.
  induction Hd as [|[k' v'] rest Hx Hd IH]; cbn [dget]; [assumption|].
  destruct (key_eqb k' k); assumption.
Qed.

Lemma Forall_dtouch {K V : Type} `{Key K} (Q : V -> Prop) (d : dict K V)
    dflt k :
  Forall (fun kv => Q (snd kv)) d -> Q dflt ->
  Forall (fun kv => Q (snd kv)) (dtouch dflt d k).
Proof.
  intros Hd Hdf. unfold dtouch. destruct (dget d k); [assumption|].
  now apply Forall_dset.
Qed.

Lemma terminated_not_digits s : terminated s = true -> isdigit s = false.
Proof.
  induction s as [|c s IH]; [reflexivity|]. cbn [terminated].
  destruct s as [|c' s'].
  - intros Hc. apply Ascii.eqb_eq in Hc. now subst c.
  - intros Ht. specialize (IH Ht). unfold isdigit in *. cbn [all_chars] in *.
    rewrite IH. apply andb_false_r.
Qed.

Lemma read_line_terminated line :
  terminated line = true ->
  exists field v, read_line line = Ok (field, v) /\ unstripped v = true.
Proof.
  destruct line as [|c s]; [discriminate|]. cbn [terminated read_line].
  destruct s as [|c' s'].
  - intros _. now exists c, (VStr EmptyString).
  - intros Ht. rewrite (terminated_not_digits _ Ht).
    now exists c, (VStr (String c' s')).
Qed.

Lemma unstripped_differs v s :
  unstripped v = true -> s <> EmptyString -> terminated s = false ->
  value_eqb v (VStr s) = false.
Proof.
  intros Hv Hs Ht. apply value_eqb_neq. intros ->. cbn [unstripped] in Hv.
  destruct s; congruence.
Qed.

Lemma unstripped_not_one v : unstripped v = true -> value_eqb v (VInt 1) = false.
Proof. intros Hv. apply value_eqb_neq. intros ->. discriminate. Qed.

Lemma parse_field_unstripped st field v st' :
  parse_field st field v = Ok st' -> unstripped v = true ->
  state_unstripped st -> state_unstripped st'.
Proof.
  unfold parse_field, state_unstripped. intros Hstep Hv [Hp Hf].
  destruct (Ascii.eqb field "p").
  { injection Hstep as <-. cbn [st_proc_info st_file_info].
    split; [|assumption].
    apply (Forall_dtouch fields_unstripped); [assumption | constructor]. }
  destruct (Ascii.eqb field "f").
  { destruct (st_current_pid st) as [pid|]; [|discriminate].
    injection Hstep as <-. cbn [st_proc_info st_file_info].
    split; [assumption|]. unfold open_file.
    apply (Forall_dset
             (fun fdf : fd_table =>
                Forall (fun fd_entry : value * fields =>
                          fields_unstripped (snd fd_entry)) fdf));
      [assumption|].
    apply (Forall_dtouch fields_unstripped); [|constructor].
    apply (Forall_dget_default
             (fun fdf : fd_table =>
                Forall (fun fd_entry : value * fields =>
                          fields_unstripped (snd fd_entry)) fdf));
      [assumption | constructor]. }
  destruct (st_fields st) as [[pid|pid fd]|]; [| |discriminate];
    injection Hstep as <-; unfold store; cbn [st_proc_info st_file_info].
  - split; [|assumption].
    apply (Forall_dset fields_unstripped); [assumption|].
    apply (Forall_dset (fun x : value => unstripped x = true)); [|assumption].
    apply (Forall_dget_default fields_unstripped); [assumption | constructor].
  - split; [assumption|].
    assert (Hfdf : Forall (fun fd_entry : value * fields =>
                             fields_unstripped (snd fd_entry))
                     (dget_default [] (st_file_info st) pid)).
    { apply (Forall_dget_default
               (fun fdf : fd_table =>
                  Forall (fun fd_entry : value * fields =>
                            fields_unstripped (snd fd_entry)) fdf));
        [assumption | constructor]. }
    apply (Forall_dset
             (fun fdf : fd_table =>
                Forall (fun fd_entry : value * fields =>
                          fields_unstripped (snd fd_entry)) fdf));
      [assumption|].
    apply (Forall_dset fields_unstripped); [assumption|].
    apply (Forall_dset (fun x : value => unstripped x = true)); [|assumption].
    apply (Forall_dget_default fields_unstripped); [assumption | constructor].
Qed.

Lemma parse_lines_unstripped lines : forall st st',
  forallb terminated lines = true ->
  parse_lines st lines = Ok st' -> state_unstripped st -> state_unstripped st'.
Proof.
  induction lines as [|line rest IH]; cbn [parse_lines forallb]; intros st st' Ht Hp Hok.
  - now injection Hp as <-.
  - apply andb_true_iff in Ht. destruct Ht as [Hl Ht].
    destruct (read_line_terminated _ Hl) as [field [v [Hr Hv]]].
    unfold parse_line in Hp. rewrite Hr in Hp. cbn [bind fst snd] in Hp.
    destruct (parse_field st field v) as [st1|e] eqn:Hstep;
      cbn [bind] in Hp; [|discriminate].
    apply (IH _ _ Ht Hp). exact (parse_field_unstripped _ _ _ _ Hstep Hv Hok).
Qed.

Lemma route_unstripped fds :
  fields_unstripped fds ->
  route fds = Ok None \/ route fds = Raise (KeyError "t").
Proof.
  intros Hf. destruct (dget fds "t"%char) as [ty|] eqn:Ht.
  - left. apply (route_other _ _ Ht).
    assert (Hty : unstripped ty = true).
    { apply dget_Some_In in Ht. unfold fields_unstripped in Hf.
      rewrite Forall_forall in Hf. exact (Hf _ Ht). }
    unfold channel_type.
    rewrite !(unstripped_differs ty) by (assumption || discriminate || reflexivity).
    reflexivity.
  - right. unfold route, subscript. now rewrite Ht.
Qed.

Lemma link_fds_unstripped pid fd_fields : forall acc,
  Forall (fun fd_entry : value * fields => fields_unstripped (snd fd_entry))
    fd_fields ->
  link_fds pid acc fd_fields = Ok acc \/
  link_fds pid acc fd_fields = Raise (KeyError "t").
Proof.
  induction fd_fields as [|[fd0 fds0] rest IH]; cbn [link_fds]; intros acc Hall;
    [now left|].
  inversion Hall as [|x l Hx Hrest]; subst. cbn [snd] in Hx.
  rewrite link_fd_route.
  destruct (route_unstripped _ Hx) as [-> | ->]; cbn [bind filed].
  - now apply IH.
  - now right.
Qed.

Lemma link_pids_unstripped file_info : forall acc,
  Forall (fun entry : value * fd_table =>
            Forall (fun fd_entry : value * fields =>
                      fields_unstripped (snd fd_entry)) (snd entry))
    file_info ->
  link_pids acc file_info = Ok acc \/
  link_pids acc file_info = Raise (KeyError "t").
Proof.
  induction file_info as [|[pid0 fdf0] rest IH]; cbn [link_pids]; intros acc Hall;
    [now left|].
  inversion Hall as [|x l Hx Hrest]; subst. cbn [snd] in Hx.
  destruct (link_fds_unstripped pid0 fdf0 acc Hx) as [-> | ->]; cbn [bind].
  - now apply IH.
  - now right.
Qed.

Lemma no_kernel_threads_unstripped file_info :
  Forall (fun entry : value * fd_table =>
            Forall (fun fd_entry : value * fields =>
                      fields_unstripped (snd fd_entry)) (snd entry))
    file_info ->
  find_kernel_threads file_info = [].
Proof.
  unfold find_kernel_threads. intros Hall.
  induction Hall as [|[pid fdf] rest Hx Hall IH]; cbn [flat_map]; [reflexivity|].
  rewrite IH, app_nil_r. cbn [fst snd] in *.
  induction Hx as [|[fd fds] more Hy Hx IHx]; cbn [flat_map]; [reflexivity|].
  rewrite IHx. cbn [fst snd] in *.
  destruct (is_kernel_txt fd fds) eqn:Hk; [|reflexivity].
  apply is_kernel_txt_iff in Hk. destruct Hk as [_ Ht].
  apply dget_Some_In in Ht. unfold fields_unstripped in Hy.
  rewrite Forall_forall in Hy. specialize (Hy _ Ht). discriminate.
Qed.

(** X17.  On lines that each still end with their line feed, as the
    iteration of a text stream yields them, no value is read as a number
    and no text equals a name the code tests for: no pid is taken for a
    kernel thread, correlation finds no link (or stops on a descriptor
    without type), and a completed run has white nodes only and no edge
    but those from a parent. *)
Theorem line_feeds_are_kept (lines : list string)
    (proc_info : proc_table) (file_info : file_table) :
  forallb terminated lines = true ->
  parse_lsof lines = Ok (proc_info, file_info) ->
  find_kernel_threads file_info = [] /\
  drop_kernel_threads file_info = file_info /\
  (find_links file_info = Ok no_links \/
   find_links file_info = Raise (KeyError "t")) /\
  forall nodes edges,
    main_statements lines = Ok (nodes, edges) ->
    Forall (fun n => node_color n = "white") nodes /\
    Forall (fun e => edge_dir e = "none") edges.
Proof.
  intros Hlines Hparse.
  assert (Hst : state_unstripped (mk_parse_state proc_info file_info None None)).
  { unfold parse_lsof in Hparse.
    destruct (parse_lines parse_init lines) as [st|e] eqn:Hp; cbn [bind] in Hparse;
      [|discriminate].
    injection Hparse as <- <-.
    assert (H0 : state_unstripped parse_init) by (split; constructor).
    exact (parse_lines_unstripped _ _ _ Hlines Hp H0). }
  destruct Hst as [HP HF]. cbn [st_proc_info st_file_info] in HP, HF.
  assert (Hk : find_kernel_threads file_info = [])
    by exact (no_kernel_threads_unstripped _ HF).
  assert (Hdrop : drop_kernel_threads file_info = file_info).
  { unfold drop_kernel_threads. rewrite Hk. apply filter_all. reflexivity. }
  assert (Hlinks : find_links file_info = Ok no_links \/
                   find_links file_info = Raise (KeyError "t"))
    by exact (link_pids_unstripped file_info no_links HF).
  split; [assumption|]. split; [assumption|]. split; [assumption|].
  intros nodes edges Hmain. unfold main_statements in Hmain.
  rewrite Hparse in Hmain. cbn [bind fst snd] in Hmain. rewrite Hdrop in Hmain.
  destruct Hlinks as [Hl|Hl]; rewrite Hl in Hmain; cbn [bind] in Hmain;
    [|discriminate].
  unfold dot_statements in Hmain.
  destruct (dot_pids proc_info (dkeys file_info) ([], [])) as [[ns es0]|ex] eqn:Hp;
    cbn [bind fst snd] in Hmain; [|discriminate].
  cbn in Hmain. injection Hmain as <- <-.
  destruct (dot_pids_nodes _ _ _ _ Hp) as [_ Hnone]. split.
  - apply dot_pids_Ok in Hp. destruct Hp as [rs [HF2 Heq]].
    cbn [fst snd app] in Heq. injection Heq as -> _. clear Hnone.
    induction HF2 as [|pid r rest rs Hr HF2 IH]; cbn [map List.concat];
      [constructor|].
    destruct (dot_pid_Ok _ _ _ Hr) as [rv [login [HR [_ [_ ->]]]]].
    cbn [fst app]. constructor; [|exact IH]. cbn [node_color].
    assert (Hrv : unstripped rv = true).
    { apply dget_Some_In in HR.
      assert (Htags : fields_unstripped (dget_default [] proc_info pid))
        by (apply (Forall_dget_default fields_unstripped);
            [assumption | constructor]).
      unfold fields_unstripped in Htags. rewrite Forall_forall in Htags.
      exact (Htags _ HR). }
    now rewrite (unstripped_not_one _ Hrv).
  - apply Forall_forall. intros e He. now apply Hnone.
Qed.

Lemma line_feeds_are_kept_witness :
  find_kernel_threads (snd terminated_tables) = [] /\
  drop_kernel_threads (snd terminated_tables) = snd terminated_tables /\
  (find_links (snd terminated_tables) = Ok no_links \/
   find_links (snd terminated_tables) = Raise (KeyError "t")) /\
  forall nodes edges,
    main_statements terminated_lines = Ok (nodes, edges) ->
    Forall (fun n => node_color n = "white") nodes /\
    Forall (fun e => edge_dir e = "none") edges.
Proof.
  apply (line_feeds_are_kept terminated_lines (fst terminated_tables)
           (snd terminated_tables)).
  - vm_compute. reflexivity.
  - vm_compute. reflexivity.
Defined.

(** ** The text of the graph *)

Lemma append_assoc_r (a b c : string) :
  ((a ++ b) ++ c = a ++ (b ++ c))%string.
Proof. induction a as [|x a IH]; cbn [append]; [reflexivity | now rewrite IH]. Qed.

Lemma rstrip_brace (pre : string) :
  rstrip (pre ++ ("}" ++ newline)) = (pre ++ "}")%string.
Proof.
  induction pre as [|c pre IH]; [reflexivity|].
  cbn [append rstrip] in *. rewrite IH. destruct pre; reflexivity.
Qed.

(** X18.  [strip] takes from the filled template the line feed at each end
    and nothing else, whatever the node and edge statements are: the text
    returned, between two line feeds, is the filled template. *)
Theorem render_is_template (nodes : list node) (edges : list edge) :
  template_graph
    (join newline (map (fun i => (tab ++ template_node i)%string) nodes))
    (join newline (map (fun i => (tab ++ template_edge i)%string) edges))
  = (newline ++ render nodes edges ++ newline)%string /\
  startswith "digraph G {" (render nodes edges) = true.
Proof.
  unfold render.
  set (n := join newline (map (fun i => (tab ++ template_node i)%string) nodes)).
  set (e := join newline (map (fun i => (tab ++ template_edge i)%string) edges)).
  cbv zeta.
  set (body :=
    ("digraph G {" ++ newline
     ++ "    graph [center=true, margin=0.2, nodesep=0.1, ranksep=0.3, rankdir=LR];"
     ++ newline
     ++ tab ++ "node [shape=box, style=" ++ dquote ++ "rounded,filled" ++ dquote
     ++ ", width=0, height=0, fontname=Helvetica, fontsize=10];" ++ newline
     ++ tab ++ "edge [fontname=Helvetica, fontsize=10];" ++ newline
     ++ n ++ newline
     ++ e ++ newline)%string).
  assert (Ht : template_graph n e = (newline ++ (body ++ ("}" ++ newline)))%string).
  { unfold template_graph, body. now rewrite !append_assoc_r. }
  assert (Hl : lstrip (newline ++ (body ++ ("}" ++ newline))) =
               (body ++ ("}" ++ newline))%string) by reflexivity.
  unfold strip. rewrite Ht, Hl, rstrip_brace. split.
  - now rewrite append_assoc_r.
  - reflexivity.
Qed.

(** ** What stops the program *)



Lemma dot_pid_Raise proc_info pid acc e :
  dot_pid proc_info pid acc = Raise e -> e = KeyError "R" \/ e = KeyError "L".
Proof.
  unfold dot_pid, subscript, get.
  destruct (dget (dget_default [] proc_info pid) "R"%char) as [r|]; cbn [bind];
    [|intros [= <-]; now left].
  destruct (dget (dget_default [] proc_info pid) "L"%char) as [login|]; cbn [bind];
    [|intros [= <-]; now right].
  destruct (truthy r && negb (value_eqb r (VInt 1))); discriminate.
Qed.

Lemma dot_pids_Raise proc_info pids : forall acc e,
  dot_pids proc_info pids acc = Raise e -> e = KeyError "R" \/ e = KeyError "L".
Proof.
  induction pids as [|pid rest IH]; cbn [dot_pids]; intros acc e Hd; [discriminate|].
  destruct (dot_pid proc_info pid acc) as [acc1|e1] eqn:H1; cbn [bind] in Hd.
  - exact (IH _ _ Hd).
  - injection Hd as ->. exact (dot_pid_Raise _ _ _ _ H1).
Qed.



(* ================================================================= *)
(** * The links of a run, key by key *)

Lemma Forall2_In_impl {A B : Type} (R R' : A -> B -> Prop) (l : list A)
    (l' : list B) :
  Forall2 R l l' ->
  (forall x y, In x l -> R x y -> R' x y) ->
  Forall2 R' l l'.
Proof.
  intros HF. induction HF as [|x y l l' Hxy HF IH]; intros Himp; constructor.
  - apply Himp; [now left | assumption].
  - apply IH. intros a b Ha. apply Himp. now right.
Qed.

Lemma Forall2_class (c : chan) (part : partition) (news : list (list edge)) :
  Forall2 (fun entry new =>
             dot_key (chan_props c) (fst entry) (snd entry) [] = Ok new)
    part news ->
  Forall2 (fun entry new => yield entry = Ok new) (map (pair c) part) news.
Proof.
  intros HF. induction HF as [|[key pids] new part news Hk HF IH];
    cbn [map]; constructor; assumption.
Qed.

Lemma In_drawn (l : links) (c : chan) (key : value) (pids : dict value fields) :
  In (c, (key, pids)) (drawn l) <-> In (key, pids) (chan_part c l).
Proof.
  unfold drawn. rewrite in_flat_map. split.
  - intros [c' [_ Hin]]. apply in_map_iff in Hin.
    destruct Hin as [[k q] [Heq Hin]]. now injection Heq as -> -> ->.
  - intros Hin. exists c. split; [destruct c; cbn; auto|].
    apply in_map_iff. now exists (key, pids).
Qed.

(** The edges of a completed run: those of the loop over the pids, then
    what each entry yields, in the order of the entries. *)
Lemma dot_statements_yields proc_info file_info l nodes out :
  dot_statements proc_info file_info (unix l) (fifo l) (pipe l) (tcp l) (udp l)
  = Ok (nodes, out) ->
  exists parents yields,
    dot_pids proc_info (dkeys file_info) ([], []) = Ok (nodes, parents) /\
    out = parents ++ List.concat yields /\
    Forall2 (fun entry new => yield entry = Ok new) (drawn l) yields.
Proof.
  intros Hd. apply dot_statements_Ok in Hd. destruct Hd as [es0 [Hp Hc]].
  unfold conn_props in Hc. cbn [dot_conns] in Hc.
  destruct (dot_keys _ (unix l) es0) as [e1|ex] eqn:H1; cbn [bind] in Hc;
    [|discriminate].
  destruct (dot_keys _ (fifo l) e1) as [e2|ex] eqn:H2; cbn [bind] in Hc;
    [|discriminate].
  destruct (dot_keys _ (tcp l) e2) as [e3|ex] eqn:H3; cbn [bind] in Hc;
    [|discriminate].
  destruct (dot_keys _ (udp l) e3) as [e4|ex] eqn:H4; cbn [bind] in Hc;
    [|discriminate].
  injection Hc as <-.
  apply dot_keys_Ok in H1. destruct H1 as [n1 [F1 ->]].
  apply dot_keys_Ok in H2. destruct H2 as [n2 [F2 ->]].
  apply dot_keys_Ok in H3. destruct H3 as [n3 [F3 ->]].
  apply dot_keys_Ok in H4. destruct H4 as [n4 [F4 ->]].
  exists es0, (n1 ++ n2 ++ n3 ++ n4). split; [assumption|]. split.
  - rewrite !concat_app, <- !app_assoc. reflexivity.
  - unfold drawn. cbn [flat_map chan_part]. rewrite app_nil_r.
    repeat apply Forall2_app.
    + exact (Forall2_class Unix _ _ F1).
    + exact (Forall2_class Fifo _ _ F2).
    + exact (Forall2_class Tcp _ _ F3).
    + exact (Forall2_class Udp _ _ F4).
Qed.

(** The edges of the loop over the pids are grey and undirected. *)
Lemma dot_pids_parents proc_info pids nodes edges e :
  dot_pids proc_info pids ([], []) = Ok (nodes, edges) -> In e edges ->
  edge_dir e = "none" /\ edge_color e = "gray60".
Proof.
  intros Hd Hin. destruct (dot_pids_In _ _ _ _ Hd) as [_ He].
  apply He in Hin. destruct Hin as [pid [r [_ [Hr Hin]]]].
  destruct (dot_pid_Ok _ _ _ Hr) as [rv [login [_ [_ [_ ->]]]]].
  cbn [snd] in Hin.
  destruct (truthy rv && negb (value_eqb rv (VInt 1))); [|destruct Hin].
  destruct Hin as [<-|[]]. split; reflexivity.
Qed.

(** The emitter stops on nothing but a missing field R, L or a. *)
Lemma dot_statements_Raise proc_info file_info unix fifo pipe tcp udp e :
  dot_statements proc_info file_info unix fifo pipe tcp udp = Raise e ->
  e = KeyError "R" \/ e = KeyError "L" \/ e = KeyError "a".
Proof.
  unfold dot_statements. intros Hm.
  destruct (dot_pids proc_info (dkeys file_info) ([], [])) as [ne|e1] eqn:Hd;
    cbn [bind] in Hm.
  - destruct (dot_conns_stops (conn_props unix fifo tcp udp) (snd ne))
      as [[edges Hc]|Hc]; rewrite Hc in Hm; cbn [bind] in Hm; [discriminate|].
    injection Hm as <-. now right; right.
  - injection Hm as ->.
    destruct (dot_pids_Raise _ _ _ _ Hd) as [-> | ->]; [now left | now right; left].
Qed.

(** An entry on which the loop body raises stops every run. *)
Lemma key_raises_run proc_info file_info l c key pids edges e :
  In (key, pids) (chan_part c l) ->
  dot_key (chan_props c) key pids edges = Raise e ->
  exists e',
    dot_statements proc_info file_info (unix l) (fifo l) (pipe l) (tcp l) (udp l)
    = Raise e' /\
    (e' = KeyError "R" \/ e' = KeyError "L" \/ e' = KeyError "a").
Proof.
  intros Hin Hk.
  destruct (dot_statements proc_info file_info (unix l) (fifo l) (pipe l)
              (tcp l) (udp l)) as [[nodes out]|e'] eqn:Hd.
  - exfalso. apply dot_statements_Ok in Hd. destruct Hd as [es0 [_ Hc]].
    destruct (dot_conns_covers _ _ _ (chan_part c l) (chan_props c) key pids Hc)
      as [new [Hnew _]]; [|assumption|].
    { rewrite conn_props_chan. apply in_map_iff. exists c.
      split; [reflexivity|]. destruct c; simpl; auto. }
    rewrite dot_key_acc, Hnew in Hk. discriminate.
  - exists e'. split; [reflexivity|]. exact (dot_statements_Raise _ _ _ _ _ _ _ _ Hd).
Qed.














(* ================================================================= *)
(** * The cardinality gate *)

(** C1 (amended).  For every partition the emitter draws (unix, fifo, tcp,
    udp) and every resource key in it, the participants recorded are the
    distinct process ids that hold a descriptor under the key, at least
    one.  When their number is not two, the loop body adds no edge for
    the key.  When it is two, the body adds exactly one edge, between the
    two, if the descriptor recorded for the first has an access mode
    (field [a]); if it has none the body raises [KeyError] and every run
    stops without output.  The edges of a completed run are those of the
    loop over the pids followed by what each key yields, in order: one
    edge for a key with two holders, none for any other. *)
Theorem cardinality_gate (file_info : file_table) (l : links) (c : chan)
    (key : value) (pids : dict value fields) :
  find_links file_info = Ok l ->
  In (key, pids) (chan_part c l) ->
  (Permutation (dkeys pids) (holders file_info c key) /\ pids <> []) /\
  (forall edges,
     (List.length (holders file_info c key) <> 2 ->
      dot_key (chan_props c) key pids edges = Ok edges) /\
     (List.length (holders file_info c key) = 2 ->
      exists src dst,
        dkeys pids = [src; dst] /\
        match dget (dget_default [] pids src) "a"%char with
        | Some _ =>
            exists e,
              dot_key (chan_props c) key pids edges = Ok (edges ++ [e]) /\
              edge_a e = src /\ edge_b e = dst /\ edge_of c key e = true
        | None =>
            dot_key (chan_props c) key pids edges = Raise (KeyError "a") /\
            forall proc_info,
            exists e,
              dot_statements proc_info file_info
                (unix l) (fifo l) (pipe l) (tcp l) (udp l) = Raise e /\
              (e = KeyError "R" \/ e = KeyError "L" \/ e = KeyError "a")
        end)) /\
  (forall proc_info nodes out,
     dot_statements proc_info file_info (unix l) (fifo l) (pipe l) (tcp l) (udp l)
     = Ok (nodes, out) ->
     exists parents yields,
       out = parents ++ List.concat yields /\
       Forall (fun e => edge_dir e = "none") parents /\
       Forall2
         (fun entry new =>
            yield entry = Ok new /\
            List.length new =
              (if Nat.eqb
                    (List.length (holders file_info (fst entry) (fst (snd entry))))
                    2
               then 1 else 0))
         (drawn l) yields).
Proof.
  intros Hl Hin.
  pose proof (participants_holders _ _ _ _ _ Hl Hin) as Hperm.
  pose proof (participants_length _ _ _ _ _ Hl Hin) as Hlen.
  destruct (find_links_wf _ _ Hl) as [Hwf _].
  destruct (wf_part_entry _ _ _ (Hwf c) Hin) as [_ [_ Hne]].
  split; [now split|]. split.
  - intros edges. rewrite <- Hlen. split.
    + intros H2. now apply dot_key_other.
    + intros H2. destruct pids as [|[src f1] [|[dst f2] [|]]]; try discriminate.
      exists src, dst. split; [reflexivity|].
      assert (Hd : dkeys [(src, f1); (dst, f2)] = [src; dst]) by reflexivity.
      rewrite (dot_key_two _ _ _ _ src dst Hd). unfold subscript.
      destruct (dget (dget_default [] [(src, f1); (dst, f2)] src) "a"%char)
        as [av|] eqn:Ha; cbn [bind].
      * eexists. split; [reflexivity|]. split; [reflexivity|].
        split; [reflexivity|]. unfold edge_of. cbn [edge_color edge_label].
        now rewrite !String.eqb_refl.
      * split; [reflexivity|]. intros proc_info.
        apply (key_raises_run proc_info file_info l c key
                 [(src, f1); (dst, f2)] edges (KeyError "a") Hin).
        rewrite (dot_key_two _ _ _ _ src dst Hd). unfold subscript.
        now rewrite Ha.
  - intros proc_info nodes out Hd.
    destruct (dot_statements_yields _ _ _ _ _ Hd) as [parents [yields [Hp [-> HF]]]].
    exists parents, yields. split; [reflexivity|]. split.
    + apply Forall_forall. intros e He.
      exact (proj1 (dot_pids_parents _ _ _ _ _ Hp He)).
    + apply (Forall2_In_impl _ _ _ _ HF).
      intros [c' [key' pids']] new Hen Hy. split; [assumption|].
      apply In_drawn in Hen. cbn [fst snd].
      rewrite <- (participants_length _ _ _ _ _ Hl Hen).
      unfold yield in Hy. cbn [fst snd] in Hy.
      exact (dot_key_length _ _ _ _ Hy).
Qed.

Lemma cardinality_gate_witness :
  (Permutation (dkeys writer_first_pids) (holders writer_first_table Unix (VInt 5)) /\
   (exists e,
      dot_key (chan_props Unix) (VInt 5) writer_first_pids [] = Ok ([] ++ [e]) /\
      edge_a e = VInt 10 /\ edge_b e = VInt 20 /\
      edge_of Unix (VInt 5) e = true) /\
   (exists parents yields,
      [mk_edge (VInt 10) (VInt 20) "unix:\n5" 1 10 "purple" "forward"]
      = parents ++ List.concat yields /\
      Forall (fun e => edge_dir e = "none") parents /\
      Forall2
        (fun entry new =>
           yield entry = Ok new /\
           List.length new =
             (if Nat.eqb
                   (List.length
                      (holders writer_first_table (fst entry) (fst (snd entry))))
                   2
              then 1 else 0))
        (drawn writer_first_links) yields)) /\
  (forall edges,
     dot_key (chan_props Unix) (VInt 777) single_holder_pids edges = Ok edges) /\
  (dot_key (chan_props Unix) (VInt 12345) no_access_pids [] = Raise (KeyError "a") /\
   forall proc_info,
   exists e,
     dot_statements proc_info no_access_table
       (unix no_access_links) (fifo no_access_links) (pipe no_access_links)
       (tcp no_access_links) (udp no_access_links) = Raise e /\
     (e = KeyError "R" \/ e = KeyError "L" \/ e = KeyError "a")).
Proof.
  split; [|split].
  - destruct (cardinality_gate writer_first_table writer_first_links Unix (VInt 5)
                writer_first_pids)
      as [[Hperm _] [Hbody Hrun]].
    + vm_compute. reflexivity.
    + vm_compute. left. reflexivity.
    + split; [exact Hperm|]. split.
      * destruct (proj2 (Hbody [])) as [src [dst [Hk Hm]]].
        { vm_compute. reflexivity. }
        vm_compute in Hk. injection Hk as <- <-.
        assert (Ha : dget (dget_default [] writer_first_pids (VInt 10)) "a"%char
                     = Some (VStr "w")) by reflexivity.
        rewrite Ha in Hm. exact Hm.
      * apply (Hrun writer_first_procs
                 [mk_node (VInt 10) "None\n10 root" "grey70";
                  mk_node (VInt 20) "None\n20 root" "grey70"]).
        vm_compute. reflexivity.
  - destruct (cardinality_gate shared_table shared_links Unix (VInt 777)
                single_holder_pids)
      as [_ [Hbody _]].
    + vm_compute. reflexivity.
    + vm_compute. right. left. reflexivity.
    + intros edges. apply (proj1 (Hbody edges)). vm_compute. discriminate.
  - destruct (cardinality_gate no_access_table no_access_links Unix (VInt 12345)
                no_access_pids)
      as [_ [Hbody _]].
    + vm_compute. reflexivity.
    + vm_compute. left. reflexivity.
    + destruct (proj2 (Hbody [])) as [src [dst [Hk Hm]]].
      { vm_compute. reflexivity. }
      vm_compute in Hk. injection Hk as <- <-.
      assert (Ha : dget (dget_default [] no_access_pids (VInt 10)) "a"%char
                   = None) by reflexivity.
      rewrite Ha in Hm. exact Hm.
Defined.

(** Against C1 as stated: exactly two distinct processes hold unix socket
    12345, and no edge comes out for the key; the first of the two has no
    access mode, the loop body raises [KeyError] and the program stops
    without output. *)
Lemma two_holders_no_edge :
  holders no_access_table Unix (VInt 12345) = [VInt 10; VInt 20] /\
  In (VInt 12345, no_access_pids) (unix (links_of no_access_table)) /\
  dot_key (chan_props Unix) (VInt 12345) no_access_pids [] = Raise (KeyError "a") /\
  main_statements no_access_lines = Raise (KeyError "a") /\
  main no_access_lines = Raise (KeyError "a").
Proof.
  split; [vm_compute; reflexivity|].
  split; [vm_compute; left; reflexivity|].
  split; [vm_compute; reflexivity|].
  split; vm_compute; reflexivity.
Qed.

(* ================================================================= *)
(** * The link of a network connection *)






(* ================================================================= *)
(** * Descriptors without the field their key is made of *)



